(** * HCPinterface: the bucket manager and its progress bar

    A shallow embedding of [HCPinterface/hcp/hcp.py]: the class
    [HCPManager] (attachment to a bucket, the cached object listing,
    search by substring, upload with checksum verification, download
    with the overwrite guard, delete, read) and the class
    [ProgressPercentage] (the transfer callback with its smoothed
    speed); and of the commands [delete] and [download] of
    [HCPInterface/cli/functions.py], which drive the manager.

    The manager is a Python object mutated in place and every method
    talks to the object store through boto3 and to the local file
    system through [os.path]; both are external to the repository.
    They are modelled by an explicit world (the buckets of the
    endpoint, the state of the service, the local files, the clock,
    and the trace of requests and printed lines).  Methods are
    computations in a state-and-exception monad over the pair
    (manager, world); a raised Python exception keeps every effect
    made before it. *)

From Stdlib Require Import ZArith QArith Qround Lqa String Ascii List Bool Lia.
From Stdlib Require Strings.Byte.
From stdpp Require Import gmap strings list fin_maps pretty.

Local Open Scope Z_scope.
Local Open Scope string_scope.

(** ** Python values the manager is handed *)

(** The exceptions of [hcp/errors.py] (first four), of botocore, and
    the built-in ones the methods can raise. *)
Inductive exn : Type :=
| UnattachedBucketError
| LocalFileExistsError (local_path : string)
| UnknownSourceTypeError
| MismatchChecksumError
| ClientError (code : string)     (* botocore.exceptions.ClientError: the service answered with an error *)
| EndpointConnectionError         (* botocore: no answer at all; a BotoCoreError, not a ClientError *)
| AttributeError (name : string)
| OSError (path : string)         (* FileNotFoundError, IsADirectoryError *)
| UnicodeDecodeError
| ZeroDivisionError.

(** The answer to a HeadObject request: what an [s3.Object] loads
    lazily on the first access to one of its attributes. *)
Record head : Type := Head {
  content_length : Z;
  e_tag : string;
  metadata : list (string * string)
}.

(** [bucket.Object(key)]: identifiers, and the attributes once loaded. *)
Record Object : Type := MkObject {
  o_bucket_name : string;
  o_key : string;
  o_data : option head
}.

(** An element of [bucket.objects.all()]. *)
Record ObjectSummary : Type := MkSummary {
  os_bucket_name : string;
  os_key : string;
  os_size : Z;
  os_e_tag : string
}.

Inductive value : Type :=
| VNone
| VStr (s : string)
| VInt (z : Z)
| VSummary (o : ObjectSummary)
| VObject (o : Object).

(** ** Strings: [in], [os.path.join], [os.path.basename] *)

(** [sub in s] on Python strings: an exact, case-sensitive substring
    test; the empty string is in every string. *)
Fixpoint contains (sub s : string) : bool :=
  if String.prefix sub s then true
  else match s with
       | EmptyString => false
       | String _ s' => contains sub s'
       end.

Definition startswith_sep (s : string) : bool :=
  match s with
  | String c _ => Ascii.eqb c "/"
  | EmptyString => false
  end.

Fixpoint endswith_sep (s : string) : bool :=
  match s with
  | EmptyString => false
  | String c EmptyString => Ascii.eqb c "/"
  | String _ s' => endswith_sep s'
  end.

(** [posixpath.join(a, b)]. *)
Definition join (a b : string) : string :=
  if startswith_sep b then b
  else if (String.eqb a "" || endswith_sep a)%bool then a ++ b
  else a ++ "/" ++ b.

(** [cur] is what follows the last separator seen so far. *)
Fixpoint basename_from (cur p : string) : string :=
  match p with
  | EmptyString => cur
  | String c p' =>
      if Ascii.eqb c "/" then basename_from p' p' else basename_from cur p'
  end.

(** [posixpath.basename(p)]: [p[p.rfind('/') + 1:]]. *)
Definition basename (p : string) : string := basename_from p p.

Fixpoint has_sep (s : string) : bool :=
  match s with
  | EmptyString => false
  | String c s' => (Ascii.eqb c "/" || has_sep s')%bool
  end.

(** [p[:p.rfind('/') + 1]]. *)
Fixpoint upto_last_sep (p : string) : string :=
  match p with
  | EmptyString => EmptyString
  | String c p' =>
      if has_sep p' then String c (upto_last_sep p')
      else if Ascii.eqb c "/" then String c EmptyString
      else EmptyString
  end.

(** [s == '/' * len(s)] and [s.rstrip('/')]. *)
Fixpoint all_sep (s : string) : bool :=
  match s with
  | EmptyString => true
  | String c s' => (Ascii.eqb c "/" && all_sep s')%bool
  end.

Fixpoint rstrip_sep (s : string) : string :=
  match s with
  | EmptyString => EmptyString
  | String c s' =>
      match rstrip_sep s' with
      | EmptyString => if Ascii.eqb c "/" then EmptyString else String c EmptyString
      | r => String c r
      end
  end.

(** [posixpath.dirname(p)]. *)
Definition dirname (p : string) : string :=
  let head := upto_last_sep p in
  if (negb (String.eqb head "") && negb (all_sep head))%bool
  then rstrip_sep head
  else head.

(** ** [bytes.decode('utf-8')]

    The strict decoder: shortest forms only, no surrogates, nothing
    above U+10FFFF.  A Python [str] obtained by decoding is the list
    of its code points. *)
Definition text : Type := list N.

Definition cont (b : N) : bool := ((128 <=? b) && (b <=? 191))%N%bool.

Definition cp2 (b0 b1 : N) : N := ((b0 - 192) * 64 + (b1 - 128))%N.
Definition cp3 (b0 b1 b2 : N) : N :=
  ((b0 - 224) * 4096 + (b1 - 128) * 64 + (b2 - 128))%N.
Definition cp4 (b0 b1 b2 b3 : N) : N :=
  ((b0 - 240) * 262144 + (b1 - 128) * 4096 + (b2 - 128) * 64 + (b3 - 128))%N.

(** The range of the second byte, which depends on the first. *)
Definition second_ok (b0 b1 : N) : bool :=
  (if b0 =? 224 then (160 <=? b1) && (b1 <=? 191)
   else if b0 =? 237 then (128 <=? b1) && (b1 <=? 159)
   else if b0 =? 240 then (144 <=? b1) && (b1 <=? 191)
   else if b0 =? 244 then (128 <=? b1) && (b1 <=? 143)
   else cont b1)%N%bool.

Fixpoint decode_from (fuel : nat) (bs : list N) : option text :=
  match fuel with
  | O => match bs with [] => Some [] | _ => None end
  | S fuel =>
      match bs with
      | [] => Some []
      | b0 :: r0 =>
          if (b0 <? 128)%N then cons b0 <$> decode_from fuel r0
          else if ((194 <=? b0) && (b0 <=? 223))%N%bool then
            match r0 with
            | b1 :: r1 =>
                if cont b1 then cons (cp2 b0 b1) <$> decode_from fuel r1
                else None
            | _ => None
            end
          else if ((224 <=? b0) && (b0 <=? 239))%N%bool then
            match r0 with
            | b1 :: b2 :: r2 =>
                if (second_ok b0 b1 && cont b2)%bool
                then cons (cp3 b0 b1 b2) <$> decode_from fuel r2
                else None
            | _ => None
            end
          else if ((240 <=? b0) && (b0 <=? 244))%N%bool then
            match r0 with
            | b1 :: b2 :: b3 :: r3 =>
                if (second_ok b0 b1 && cont b2 && cont b3)%bool
                then cons (cp4 b0 b1 b2 b3) <$> decode_from fuel r3
                else None
            | _ => None
            end
          else None
      end
  end.

Definition decode_utf8 (body : list Byte.byte) : option text :=
  decode_from (length body) (map Byte.to_N body).

(** ** [str.encode('utf-8')]

    The encoding as the standard defines it, written independently of
    the decoder: the code points that can be encoded are the scalar
    values, that is everything up to U+10FFFF but the surrogates. *)
Definition scalar (c : N) : bool :=
  ((c <? 55296) || ((57344 <=? c) && (c <=? 1114111)))%N%bool.

Definition encode_cp (c : N) : list N :=
  (if c <? 128 then [c]
   else if c <? 2048 then [192 + c / 64; 128 + c mod 64]
   else if c <? 65536 then
     [224 + c / 4096; 128 + (c / 64) mod 64; 128 + c mod 64]
   else [240 + c / 262144; 128 + (c / 4096) mod 64;
         128 + (c / 64) mod 64; 128 + c mod 64])%N.

Definition encode_utf8 (t : text) : list N := flat_map encode_cp t.

(** ** The world outside the manager *)

(** An object as the store holds it. *)
Record blob : Type := Blob {
  b_key : string;
  b_body : list Byte.byte;
  b_e_tag : string;
  b_metadata : list (string * string)
}.

(** How the endpoint answers a request: normally, with an error
    response whatever the request (botocore raises it as a
    [ClientError] carrying the code), or not at all. *)
Inductive service : Type :=
| Healthy
| Failing (code : string)
| Unreachable.

(** What [os.stat] finds at a path. *)
Inductive node : Type :=
| File (content : list Byte.byte)
| Dir (st_size : Z).

(** Requests sent to the endpoint and lines printed. *)
Inductive event : Type :=
| ListObjects (bucket_name : string)
| HeadObject (bucket_name key : string)
| GetObject (bucket_name key : string)
| PutObject (bucket_name key : string)
| DeleteObjects (bucket_name : string) (keys : list string)
| Printed (line : string).

Record World : Type := MkWorld {
  remote : gmap string (list blob);   (* bucket name -> objects, in listing order *)
  status : service;
  fs : gmap string node;
  clock : Q;                          (* what time.time() reads *)
  trace : list event                  (* oldest first *)
}.

(** ** The manager object *)

(** The two attributes that come and go: [hasattr(self, 'bucket')] and
    [hasattr(self, 'objects')] are [Some].  The bucket resource is
    identified by its name. *)
Record HCPManager : Type := MkManager {
  bucket : option string;
  objects : option (list ObjectSummary)
}.

Record State : Type := MkState {
  self : HCPManager;
  world : World
}.

(** ** The monad of methods *)

Definition M (A : Type) : Type := State -> (exn + A) * State.

Definition ret {A} (a : A) : M A := fun st => (inr a, st).

Definition raise {A} (e : exn) : M A := fun st => (inl e, st).

Definition bind {A B} (m : M A) (k : A -> M B) : M B :=
  fun st =>
    match m st with
    | (inr a, st') => k a st'
    | (inl e, st') => (inl e, st')
    end.

(** [try: m except <class>: h], where [handles] tells the exceptions of
    the class. *)
Definition try_except {A} (m : M A) (handles : exn -> bool) (h : M A) : M A :=
  fun st =>
    match m st with
    | (inl e, st') => if handles e then h st' else (inl e, st')
    | r => r
    end.

Declare Scope py_scope.
Delimit Scope py_scope with py.
Notation "x <- m ;; k" := (bind m (fun x => k))
  (at level 100, m at next level, right associativity) : py_scope.
Notation "m ;; k" := (bind m (fun _ => k))
  (at level 100, right associativity) : py_scope.
Local Open Scope py_scope.

Definition get_world : M World := fun st => (inr (world st), st).
Definition put_world (w : World) : M unit :=
  fun st => (inr tt, MkState (self st) w).
Definition get_self : M HCPManager := fun st => (inr (self st), st).
Definition put_self (m : HCPManager) : M unit :=
  fun st => (inr tt, MkState m (world st)).

Definition emit (ev : event) : M unit :=
  w <- get_world;;
  put_world (MkWorld (remote w) (status w) (fs w) (clock w) (trace w ++ [ev])).

Definition set_remote (r : gmap string (list blob)) : M unit :=
  w <- get_world;;
  put_world (MkWorld r (status w) (fs w) (clock w) (trace w)).

Definition set_fs (f : gmap string node) : M unit :=
  w <- get_world;;
  put_world (MkWorld (remote w) (status w) f (clock w) (trace w)).

(** [print(line)]. *)
Definition print (line : string) : M unit := emit (Printed line).

(** [time.time()]. *)
Definition time_time : M Q := w <- get_world;; ret (clock w).

(** ** boto3: requests on a bucket *)

(** Every request is recorded, then answered according to the state
    of the service. *)
Definition send (ev : event) : M unit :=
  emit ev;;
  w <- get_world;;
  match status w with
  | Healthy => ret tt
  | Failing code => raise (ClientError code)
  | Unreachable => raise EndpointConnectionError
  end.

Definition the_bucket (bucket_name : string) : M (list blob) :=
  w <- get_world;;
  match remote w !! bucket_name with
  | Some l => ret l
  | None => raise (ClientError "NoSuchBucket")
  end.

Definition find_key (key : string) (l : list blob) : option blob :=
  List.find (fun b => String.eqb (b_key b) key) l.

Definition head_of (b : blob) : head :=
  Head (Z.of_nat (length (b_body b))) (b_e_tag b) (b_metadata b).

Definition summary_of (bucket_name : string) (b : blob) : ObjectSummary :=
  MkSummary bucket_name (b_key b) (Z.of_nat (length (b_body b))) (b_e_tag b).

(** Storing under a key replaces the object that has it, if any. *)
Fixpoint put_blob (b : blob) (l : list blob) : list blob :=
  match l with
  | [] => [b]
  | x :: l' => if String.eqb (b_key x) (b_key b) then b :: l' else x :: put_blob b l'
  end.

Definition remove_keys (keys : list string) (l : list blob) : list blob :=
  List.filter (fun b => negb (existsb (String.eqb (b_key b)) keys)) l.

Definition head_object (bucket_name key : string) : M head :=
  send (HeadObject bucket_name key);;
  l <- the_bucket bucket_name;;
  match find_key key l with
  | Some b => ret (head_of b)
  | None => raise (ClientError "404")
  end.

(** [list(bucket.objects.all())]. *)
Definition Bucket_objects_all (bucket_name : string) : M (list ObjectSummary) :=
  send (ListObjects bucket_name);;
  l <- the_bucket bucket_name;;
  ret (map (summary_of bucket_name) l).

(** [obj.get()['Body'].read()]. *)
Definition get_body (bucket_name key : string) : M (list Byte.byte) :=
  send (GetObject bucket_name key);;
  l <- the_bucket bucket_name;;
  match find_key key l with
  | Some b => ret (b_body b)
  | None => raise (ClientError "NoSuchKey")
  end.

(** [bucket.delete_objects(Delete={'Objects': [{'Key': k} ...]})]. *)
Definition Bucket_delete_objects (bucket_name : string) (keys : list string) : M unit :=
  send (DeleteObjects bucket_name keys);;
  l <- the_bucket bucket_name;;
  w <- get_world;;
  set_remote (<[bucket_name := remove_keys keys l]> (remote w)).

(** ** [os.path] *)

Definition os_path_isdir (p : string) : M bool :=
  w <- get_world;;
  ret (match fs w !! p with Some (Dir _) => true | _ => false end).

Definition os_path_exists (p : string) : M bool :=
  w <- get_world;;
  ret (match fs w !! p with Some _ => true | None => false end).

Definition os_path_getsize (p : string) : M Z :=
  w <- get_world;;
  match fs w !! p with
  | Some (File content) => ret (Z.of_nat (length content))
  | Some (Dir st_size) => ret st_size
  | None => raise (OSError p)
  end.

(** ** Attribute access on the values handed to the manager *)

(** The first access to an attribute of an [s3.Object] sends the
    HeadObject request and keeps its answer in the object. *)
Definition load (o : Object) : M Object :=
  match o_data o with
  | Some _ => ret o
  | None =>
      h <- head_object (o_bucket_name o) (o_key o);;
      ret (MkObject (o_bucket_name o) (o_key o) (Some h))
  end.

Definition loaded (o : Object) : M head :=
  o' <- load o;;
  match o_data o' with
  | Some h => ret h
  | None => raise (AttributeError "meta")
  end.

(** [obj.key]. *)
Definition attr_key (obj : value) : M string :=
  match obj with
  | VSummary s => ret (os_key s)
  | VObject o => ret (o_key o)
  | _ => raise (AttributeError "key")
  end.

(** [obj.e_tag]. *)
Definition attr_e_tag (obj : value) : M string :=
  match obj with
  | VSummary s => ret (os_e_tag s)
  | VObject o => h <- loaded o;; ret (e_tag h)
  | _ => raise (AttributeError "e_tag")
  end.

(** [obj.content_length]: an attribute of [s3.Object] only. *)
Definition attr_content_length (obj : value) : M Z :=
  match obj with
  | VObject o => h <- loaded o;; ret (content_length h)
  | _ => raise (AttributeError "content_length")
  end.

(** ** class ProgressPercentage *)

Record ProgressPercentage : Type := MkProgress {
  _source : value;
  _size : Z;
  _seen_so_far : Z;
  _previous_time : Q;
  _previous_bytesize : Z;
  _interval : Q;
  _speed : Q
}.

(** [self.<name>] on an instance with dictionary [d].  The class
    defines [__init__], [_calculate_speed] and [__call__] only, so a
    name that is not in the dictionary and is none of these is an
    [AttributeError]. *)
Definition instance_attr (d : gmap string value) (name : string) : M value :=
  match d !! name with
  | Some v => ret v
  | None => raise (AttributeError name)
  end.

(** [ProgressPercentage(source)].  The chain of [isinstance] and
    [hasattr] tests is the case analysis on the kind of value: a [str]
    is a local file, an [ObjectSummary] is what has [size], an
    [Object] is what has [content_length] (the test loads it, the read
    that follows finds it loaded).  In the last branch the message of
    the exception is built first, and it reads [self.source]. *)
Definition ProgressPercentage__init__ (source : value) : M ProgressPercentage :=
  let d : gmap string value := {[ "_source" := source ]} in
  size <- match source with
          | VStr local_file => os_path_getsize local_file
          | VSummary s => ret (os_size s)
          | VObject o => h <- loaded o;; ret (content_length h)
          | _ => _ <- instance_attr d "source";; raise UnknownSourceTypeError
          end;;
  now <- time_time;;
  ret (MkProgress source size 0 now 0 1 0).

(** [round(x)] and [round(x, 2)]: to the nearest, ties to even.  The
    argument here is the exact rational.  Python rounds the binary
    float that stands for it, so the two agree except where the
    rational is so close to a decimal tie that the float falls on the
    other side of it. *)
Definition round_half_even (q : Q) : Z :=
  let f := Qfloor q in
  match (q - inject_Z f ?= 1 # 2)%Q with
  | Lt => f
  | Gt => f + 1
  | Eq => if Z.even f then f else f + 1
  end.

Definition round2 (q : Q) : Q := round_half_even (q * 100) # 100.

(** [_calculate_speed(self)], where [now] is what [time.time()]
    returns in it.  Python floats are taken as exact rationals. *)
Definition _calculate_speed (now : Q) (self : ProgressPercentage)
  : ProgressPercentage * Q :=
  let curr_time := now in
  if Qlt_le_dec (_previous_time self) (curr_time - _interval self) then
    let speed := (inject_Z (_seen_so_far self - _previous_bytesize self)
                  / (curr_time - _previous_time self))%Q in
    let self := MkProgress (_source self) (_size self) (_seen_so_far self)
                  curr_time (_seen_so_far self) (_interval self)
                  (round2 (speed / inject_Z (1024 ^ 2))) in
    (self, _speed self)
  else (self, _speed self).

(** What one call writes on the progress line. *)
Record progress_line : Type := MkLine {
  l_source : value;
  l_seen_so_far : Z;
  l_size : Z;
  l_speed : Q;
  l_percentage : Q
}.

(** [__call__(self, bytes_amount)] under the lock: the instance after
    the call, and the line written or the exception raised.  The
    counters are Python integers and exact.  The percentage is the
    exact rational; the code computes it in binary floating point,
    which gives the same value when the bytes seen equal the size
    and the correctly rounded one otherwise. *)
Definition __call__ (now : Q) (bytes_amount : Z) (self : ProgressPercentage)
  : ProgressPercentage * (exn + progress_line) :=
  let self := MkProgress (_source self) (_size self)
                (_seen_so_far self + bytes_amount) (_previous_time self)
                (_previous_bytesize self) (_interval self) (_speed self) in
  let '(self, speed) := _calculate_speed now self in
  if Z.eqb (_size self) 0 then (self, inl ZeroDivisionError)
  else
    let percentage := (inject_Z (_seen_so_far self) / inject_Z (_size self) * 100)%Q in
    (self, inr (MkLine (_source self) (_seen_so_far self) (_size self) speed percentage)).

(** The instance after a sequence of calls, each with the reading of
    the clock at that call and its [bytes_amount]. *)
Fixpoint callbacks (calls : list (Q * Z)) (self : ProgressPercentage)
  : ProgressPercentage :=
  match calls with
  | [] => self
  | (now, bytes_amount) :: calls' =>
      callbacks calls' (fst (__call__ now bytes_amount self))
  end.

(** The readings of the clock at which a call of the sequence moved
    the sample baseline. *)
Fixpoint speed_updates (calls : list (Q * Z)) (self : ProgressPercentage)
  : list Q :=
  match calls with
  | [] => []
  | (now, bytes_amount) :: calls' =>
      let self' := fst (__call__ now bytes_amount self) in
      if Qeq_bool (_previous_time self') (_previous_time self)
      then speed_updates calls' self'
      else now :: speed_updates calls' self'
  end.

(** ** boto3: transfers with a progress callback *)

(** A transfer hands the number of bytes it moved to the callback as
    it goes, in calls with a positive count (a count of 0 is not
    reported), and the instance is dropped when the transfer ends.
    A call raises exactly when [_size] is 0, however the bytes are
    split over the calls, and what raises in the callback ends the
    transfer; so one call with all the bytes stands for them.  The
    progress line itself is not put on the trace. *)
Definition report (callback : ProgressPercentage) (bytes_amount : Z) : M unit :=
  if Z.eqb bytes_amount 0 then ret tt
  else
    now <- time_time;;
    match snd (__call__ now bytes_amount callback) with
    | inl e => raise e
    | inr _ => ret tt
    end.

(** Whether a new file can be created at a path: its directory is the
    current one or exists. *)
Definition parent_exists (files : gmap string node) (p : string) : bool :=
  (String.eqb (dirname p) "" ||
   match files !! dirname p with Some (Dir _) => true | _ => false end)%bool.

(** [bucket.download_file(key, local_path, Callback=callback)]: the
    body is fetched and reported to the callback, then written at the
    path.  A file that is there is replaced; where nothing is, the
    file is created if its directory exists. *)
Definition Bucket_download_file (bucket_name key local_path : string)
    (callback : ProgressPercentage) : M unit :=
  body <- get_body bucket_name key;;
  report callback (Z.of_nat (length body));;
  w <- get_world;;
  match fs w !! local_path with
  | Some (Dir _) => raise (OSError local_path)
  | Some (File _) => set_fs (<[local_path := File body]> (fs w))
  | None =>
      if parent_exists (fs w) local_path
      then set_fs (<[local_path := File body]> (fs w))
      else raise (OSError local_path)
  end.

(** ** class HCPManager *)

(** [self.bucket] and [self.objects]. *)
Definition self_bucket : M string :=
  s <- get_self;;
  match bucket s with
  | Some b => ret b
  | None => raise (AttributeError "bucket")
  end.

Definition self_objects : M (list ObjectSummary) :=
  s <- get_self;;
  match objects s with
  | Some l => ret l
  | None => raise (AttributeError "objects")
  end.

Definition hasattr_objects : M bool :=
  s <- get_self;;
  ret (match objects s with Some _ => true | None => false end).

Definition set_objects (l : list ObjectSummary) : M unit :=
  s <- get_self;;
  put_self (MkManager (bucket s) (Some l)).

(** The decorator: the method runs only on a manager that has the
    attribute [bucket]. *)
Definition bucketcheck {A} (fn : M A) : M A :=
  s <- get_self;;
  match bucket s with
  | Some _ => fn
  | None => raise UnattachedBucketError
  end.

Definition attach_bucket (name : string) : M unit :=
  s <- get_self;;
  put_self (MkManager (Some name) (objects s));;
  has <- hasattr_objects;;
  if has then
    s <- get_self;;
    put_self (MkManager (bucket s) None)
  else ret tt.

Definition is_ClientError (e : exn) : bool :=
  match e with ClientError _ => true | _ => false end.

Definition get_object (key : string) : M value :=
  bucketcheck (
    b <- self_bucket;;
    let obj := MkObject b key None in
    try_except
      (obj <- load obj;; ret (VObject obj))
      is_ClientError
      (ret VNone)).

Definition get_objects : M (list ObjectSummary) :=
  bucketcheck (
    has <- hasattr_objects;;
    if has then self_objects
    else
      b <- self_bucket;;
      l <- Bucket_objects_all b;;
      set_objects l;;
      self_objects).

Definition reload_objects : M (list ObjectSummary) :=
  bucketcheck (
    b <- self_bucket;;
    l <- Bucket_objects_all b;;
    set_objects l;;
    self_objects).

Definition search_objects (str : string) : M (list ObjectSummary) :=
  bucketcheck (
    has <- hasattr_objects;;
    (if negb has then _ <- get_objects;; ret tt else ret tt);;
    objs <- self_objects;;
    ret (List.filter (fun obj => contains str (os_key obj)) objs)).

Definition delete_object (obj : value) : M unit :=
  bucketcheck (
    b <- self_bucket;;
    key <- attr_key obj;;
    Bucket_delete_objects b [key]).

Definition download_file (obj : value) (local_path : string) (force : bool)
  : M unit :=
  bucketcheck (
    obj <- match obj with
           | VStr key => get_object key
           | _ => ret obj
           end;;
    isdir <- os_path_isdir local_path;;
    local_path <- (if isdir : bool then
                     key <- attr_key obj;;
                     ret (join local_path (basename key))
                   else ret local_path);;
    found <- os_path_exists local_path;;
    (if (found && negb force)%bool
     then raise (LocalFileExistsError local_path)
     else ret tt);;
    b <- self_bucket;;
    key <- attr_key obj;;
    callback <- ProgressPercentage__init__ obj;;
    Bucket_download_file b key local_path callback;;
    print "").

(** [obj.get()['Body'].read()] on the values: a method of [s3.Object]
    and of [s3.ObjectSummary]. *)
Definition obj_get_body (obj : value) : M (list Byte.byte) :=
  match obj with
  | VObject o => get_body (o_bucket_name o) (o_key o)
  | VSummary s => get_body (os_bucket_name s) (os_key s)
  | _ => raise (AttributeError "get")
  end.

Definition read_object (obj : value) : M text :=
  bucketcheck (
    n <- attr_content_length obj;;
    if Z.ltb n 100000 then
      body <- obj_get_body obj;;
      match decode_utf8 body with
      | Some s => ret s
      | None => raise UnicodeDecodeError
      end
    else ret []).

(** *** Upload

    [calculate_etag] is the helper of [hcp/helpers.py], applied to the
    content of the local file; [store_etag] is the entity tag the
    store gives to a content it receives. *)
Section Upload.

Variable calculate_etag : list Byte.byte -> string.
Variable store_etag : list Byte.byte -> string.

(** [bucket.upload_file(local_path, key, ExtraArgs={'Metadata': m},
    Config=..., Callback=callback)].  The transfer opens the file to
    build the body of the request, before the request is issued: a
    path that cannot be opened for reading raises there and nothing
    is sent.  The bytes read from the file are reported to the
    callback while the request is sent. *)
Definition Bucket_upload_file (bucket_name local_path key : string)
    (m : list (string * string)) (callback : ProgressPercentage) : M unit :=
  w <- get_world;;
  match fs w !! local_path with
  | Some (File content) =>
      send (PutObject bucket_name key);;
      report callback (Z.of_nat (length content));;
      l <- the_bucket bucket_name;;
      w <- get_world;;
      set_remote (<[bucket_name := put_blob (Blob key content (store_etag content) m) l]>
                    (remote w))
  | _ => raise (OSError local_path)
  end.

(** [calculate_etag(local_path)]. *)
Definition calculate_etag_of (local_path : string) : M string :=
  w <- get_world;;
  match fs w !! local_path with
  | Some (File content) => ret (calculate_etag content)
  | _ => raise (OSError local_path)
  end.

Definition upload_file (local_path remote_key : string)
    (metadata : list (string * string)) : M unit :=
  bucketcheck (
    b <- self_bucket;;
    callback <- ProgressPercentage__init__ (VStr local_path);;
    Bucket_upload_file b local_path remote_key metadata callback;;
    print "";;
    calculated_etag <- calculate_etag_of local_path;;
    remote_obj <- get_object remote_key;;
    remote_e_tag <- attr_e_tag remote_obj;;
    if negb (String.eqb calculated_etag remote_e_tag) then
      delete_object remote_obj;;
      raise MismatchChecksumError
    else ret tt).

End Upload.

(** ** A small endpoint for the examples

    One bucket with the three objects of the search example, and a
    local directory that already holds one of the files. *)

Definition body_A1 : list Byte.byte := [Byte.x40; Byte.x72; Byte.x31].  (* "@r1" *)
Definition body_B1 : list Byte.byte := [Byte.x40; Byte.x72; Byte.x32].
Definition body_A2 : list Byte.byte := [].
Definition body_bad : list Byte.byte := [Byte.xff].

Definition demo_blobs : list blob :=
  [ Blob "run1/sampleA.fastq" body_A1 "e-a1" [];
    Blob "run1/sampleB.fastq" body_B1 "e-b1" [];
    Blob "run2/sampleA.fastq" body_A2 "e-a2" [] ].

Definition demo_fs : gmap string node :=
  <["/data/out" := Dir 4096]>
    (<["/data/out/sampleA.fastq" := File body_B1]>
       (<["/data/new.fastq" := File body_B1]>
          (<["/data/keep.fastq" := File body_A1]> ∅))).

Definition demo_world (s : service) : World :=
  MkWorld (<["fastq" := demo_blobs]> ∅) s demo_fs 0 [].

Definition demo_unattached : State :=
  MkState (MkManager None None) (demo_world Healthy).

Definition demo_attached (s : service) : State :=
  MkState (MkManager (Some "fastq") None) (demo_world s).

Definition demo_summaries : list ObjectSummary :=
  map (summary_of "fastq") demo_blobs.

Definition demo_cached : State :=
  MkState (MkManager (Some "fastq") (Some demo_summaries)) (demo_world Healthy).

(** ** Vocabulary of the statements *)

(** The descriptors of a listing whose key contains [str]. *)
Definition matching (str : string) (l : list ObjectSummary) : list ObjectSummary :=
  List.filter (fun obj => contains str (os_key obj)) l.

(** The world after some more events. *)
Definition logged (w : World) (evs : list event) : World :=
  MkWorld (remote w) (status w) (fs w) (clock w) (trace w ++ evs).

(** A computation that leaves the manager object as it is. *)
Definition keeps_self {A} (m : M A) : Prop :=
  forall st, self (snd (m st)) = self st.

(** The cached listing, when there is one, is a listing of the
    attached bucket. *)
Definition cache_of_bucket (m : HCPManager) : Prop :=
  forall l, objects m = Some l ->
    exists b, bucket m = Some b /\ Forall (fun o => os_bucket_name o = b) l.

(** The calls a client can make on a manager. *)
Inductive call : Type :=
| Attach (name : string)
| GetObjectOf (key : string)
| GetObjects
| ReloadObjects
| SearchObjects (str : string)
| UploadFile (local_path remote_key : string) (metadata : list (string * string))
| DownloadFile (obj : value) (local_path : string) (force : bool)
| DeleteObject (obj : value)
| ReadObject (obj : value).

Section Calls.

Variable calculate_etag : list Byte.byte -> string.
Variable store_etag : list Byte.byte -> string.

(** The state a call leaves, whether it returns or raises. *)
Definition exec (c : call) (st : State) : State :=
  match c with
  | Attach name => snd (attach_bucket name st)
  | GetObjectOf key => snd (get_object key st)
  | GetObjects => snd (get_objects st)
  | ReloadObjects => snd (reload_objects st)
  | SearchObjects str => snd (search_objects str st)
  | UploadFile local_path remote_key metadata =>
      snd (upload_file calculate_etag store_etag local_path remote_key metadata st)
  | DownloadFile obj local_path force => snd (download_file obj local_path force st)
  | DeleteObject obj => snd (delete_object obj st)
  | ReadObject obj => snd (read_object obj st)
  end.

(** The states of a manager created by [HCPManager(...)], between
    calls; the world may change under it at any time. *)
Inductive reachable : State -> Prop :=
| reachable_new (w : World) : reachable (MkState (MkManager None None) w)
| reachable_call (c : call) (st : State) :
    reachable st -> reachable (exec c st)
| reachable_world (st : State) (w : World) :
    reachable st -> reachable (MkState (self st) w).

End Calls.

(** The object a bucket of the world holds under a key. *)
Definition stored (w : World) (bucket_name key : string) : option blob :=
  match remote w !! bucket_name with
  | Some l => find_key key l
  | None => None
  end.

(** The state after some more events. *)
Definition after (st : State) (evs : list event) : State :=
  MkState (self st) (logged (world st) evs).

(** [obj.key], when the value has one. *)
Definition key_of (obj : value) : option string :=
  match obj with
  | VSummary s => Some (os_key s)
  | VObject o => Some (o_key o)
  | _ => None
  end.

(** The path [download_file] writes to: inside [local_path] when that
    is a directory, [local_path] itself otherwise. *)
Definition target (files : gmap string node) (obj : value) (local_path : string)
  : option string :=
  match files !! local_path with
  | Some (Dir _) =>
      match key_of obj with
      | Some key => Some (join local_path (basename key))
      | None => None
      end
  | _ => Some local_path
  end.

(** The first statement of [download_file]: a key is looked up. *)
Definition resolve (obj : value) : M value :=
  match obj with
  | VStr key => get_object key
  | _ => ret obj
  end.

(** The statements of [download_file] after it. *)
Definition download_resolved (obj : value) (local_path : string) (force : bool)
  : M unit :=
  isdir <- os_path_isdir local_path;;
  local_path <- (if isdir : bool then
                   key <- attr_key obj;;
                   ret (join local_path (basename key))
                 else ret local_path);;
  found <- os_path_exists local_path;;
  (if (found && negb force)%bool
   then raise (LocalFileExistsError local_path)
   else ret tt);;
  b <- self_bucket;;
  key <- attr_key obj;;
  callback <- ProgressPercentage__init__ obj;;
  Bucket_download_file b key local_path callback;;
  print "".

(** A descriptor as the manager hands them out: a summary of a
    listing, or an object that [get_object] has loaded. *)
Definition handed_out (obj : value) : bool :=
  match obj with
  | VSummary _ => true
  | VObject o => match o_data o with Some _ => true | None => false end
  | _ => false
  end.


(** The size the progress bar takes from such a descriptor. *)
Definition size_of (obj : value) : Z :=
  match obj with
  | VSummary s => os_size s
  | VObject o => match o_data o with Some h => content_length h | None => 0 end
  | _ => 0
  end.

(** The world with one local file written. *)
Definition written (w : World) (path : string) (content : list Byte.byte) : World :=
  MkWorld (remote w) (status w) (<[path := File content]> (fs w)) (clock w) (trace w).

(** The world with the content of one bucket replaced. *)
Definition with_bucket (w : World) (bucket_name : string) (l : list blob) : World :=
  MkWorld (<[bucket_name := l]> (remote w)) (status w) (fs w) (clock w) (trace w).

(** Readings of the clock, each more than one second after the one
    before it, the first more than one second after [prev]. *)
Fixpoint spaced (prev : Q) (updates : list Q) : Prop :=
  match updates with
  | [] => True
  | t :: rest => (prev + 1 < t)%Q /\ spaced t rest
  end.

(** A progress bar as the constructor leaves it at time [now]. *)
Definition new_progress (source : value) (size : Z) (now : Q) : ProgressPercentage :=
  MkProgress source size 0 now 0 1 0.

(** A computation that leaves what [view] shows of the state as it is,
    whether it returns or raises. *)
Definition keeps {A X} (view : State -> X) (m : M A) : Prop :=
  forall st, view (snd (m st)) = view st.

(** The buckets of the endpoint and the local files, as views. *)
Definition remote_of (st : State) : gmap string (list blob) := remote (world st).
Definition fs_of (st : State) : gmap string node := fs (world st).

(** The calls that can write to a bucket, and the call that can write
    a local file. *)
Definition writes_remote (c : call) : bool :=
  match c with
  | UploadFile _ _ _ | DeleteObject _ => true
  | _ => false
  end.

Definition writes_fs (c : call) : bool :=
  match c with
  | DownloadFile _ _ _ => true
  | _ => false
  end.

(** From a state where [I] holds, [m] keeps [I] and raises only
    exceptions that [ok] admits. *)
Definition hoare {A} (I : State -> Prop) (ok : exn -> Prop) (m : M A) : Prop :=
  forall st, I st ->
    I (snd (m st)) /\ forall e, fst (m st) = inl e -> ok e.

(** The exceptions that come from boto3, [os] and the built-in types,
    as opposed to those of [hcp/errors.py]. *)
Definition external (e : exn) : bool :=
  match e with
  | ClientError _ | EndpointConnectionError | AttributeError _ | OSError _
  | UnicodeDecodeError | ZeroDivisionError => true
  | _ => false
  end.

(** The exception a computation ends with, if it raises. *)
Definition raised {A} (r : (exn + A) * State) : option exn :=
  match fst r with
  | inl e => Some e
  | inr _ => None
  end.

Section Raised.

Variable calculate_etag : list Byte.byte -> string.
Variable store_etag : list Byte.byte -> string.

Definition call_raises (c : call) (st : State) : option exn :=
  match c with
  | Attach name => raised (attach_bucket name st)
  | GetObjectOf key => raised (get_object key st)
  | GetObjects => raised (get_objects st)
  | ReloadObjects => raised (reload_objects st)
  | SearchObjects str => raised (search_objects str st)
  | UploadFile local_path remote_key metadata =>
      raised (upload_file calculate_etag store_etag local_path remote_key metadata st)
  | DownloadFile obj local_path force => raised (download_file obj local_path force st)
  | DeleteObject obj => raised (delete_object obj st)
  | ReadObject obj => raised (read_object obj st)
  end.

End Raised.

(** The total of the byte counts of a sequence of calls. *)
Definition total_bytes (calls : list (Q * Z)) : Z :=
  fold_right Z.add 0 (map snd calls).

(** ** The commands of [cli/functions.py]

    The commands [delete] and [download] drive the manager held in
    [ctx['hcpm']], write to the log and to the standard output, read
    answers from the standard input and sleep.  They are
    computations over the state of the manager and a console: the
    lines still to be read, and what was shown so far. *)

Inductive cli_exn : Type :=
| Raised (e : exn)              (* an exception of the manager, passing through *)
| NameError (name : string)
| IndexError.

Inductive cli_output : Type :=
| LogInfo (msg : string)        (* log.info(msg) *)
| StdoutWrite (text : string)   (* sys.stdout.write(text) *)
| Sleep (seconds : Z).          (* time.sleep(seconds) *)

Record Console : Type := MkConsole {
  stdin : list string;          (* the lines not read yet *)
  shown : list cli_output       (* oldest first *)
}.

Definition CLI (A : Type) : Type :=
  State * Console -> (cli_exn + A) * (State * Console).

Definition cret {A} (a : A) : CLI A := fun s => (inr a, s).

Definition craise {A} (e : cli_exn) : CLI A := fun s => (inl e, s).

Definition cbind {A B} (m : CLI A) (k : A -> CLI B) : CLI B :=
  fun s =>
    match m s with
    | (inr a, s') => k a s'
    | (inl e, s') => (inl e, s')
    end.

Declare Scope cli_scope.
Delimit Scope cli_scope with cli.
Notation "x <- m ;; k" := (cbind m (fun x => k))
  (at level 100, m at next level, right associativity) : cli_scope.
Notation "m ;; k" := (cbind m (fun _ => k))
  (at level 100, right associativity) : cli_scope.

(** A method of the manager called from a command. *)
Definition lift {A} (m : M A) : CLI A :=
  fun s =>
    match m (fst s) with
    | (inr a, st') => (inr a, (st', snd s))
    | (inl e, st') => (inl (Raised e), (st', snd s))
    end.

Definition show (o : cli_output) : CLI unit :=
  fun s => (inr tt, (fst s, MkConsole (stdin (snd s)) (shown (snd s) ++ [o]))).

Definition log_info (msg : string) : CLI unit := show (LogInfo msg).
Definition stdout_write (text : string) : CLI unit := show (StdoutWrite text).
Definition time_sleep (seconds : Z) : CLI unit := show (Sleep seconds).

(** [sys.stdin.readline()]: the next line, or the empty string at the
    end of the input. *)
Definition stdin_readline : CLI string :=
  fun s =>
    match stdin (snd s) with
    | [] => (inr "", s)
    | line :: rest => (inr line, (fst s, MkConsole rest (shown (snd s))))
    end.

(** [answer[0]]. *)
Definition index0 (answer : string) : CLI ascii :=
  match answer with
  | String c _ => cret c
  | EmptyString => craise IndexError
  end.

(** [c.lower()] for one character. *)
Definition lower (c : ascii) : ascii :=
  let n := nat_of_ascii c in
  if ((65 <=? n) && (n <=? 90))%nat then ascii_of_nat (n + 32) else c.

(** [ctx['hcpm'].bucket.name]. *)
Definition bucket_name : CLI string := lift self_bucket.

(** [for x in l: body]. *)
Fixpoint for_each {A} (l : list A) (body : A -> CLI unit) : CLI unit :=
  match l with
  | [] => cret tt
  | x :: l' => cbind (body x) (fun _ => for_each l' body)
  end.

Definition nl : string := String "010"%char "".
Definition dquote : string := String "034"%char "".

(** [str(obj)] of an element of a listing. *)
Definition str_summary (o : ObjectSummary) : string :=
  "s3.ObjectSummary(bucket_name='" ++ os_bucket_name o ++ "', key='"
  ++ os_key o ++ "')".

(** What both branches of the loop of [delete] do to an object. *)
Definition delete_and_log (query : string) (obj : ObjectSummary) : CLI unit :=
  (lift (delete_object (VSummary obj));;
   time_sleep 2;;
   log_info ("[--] Deleting file " ++ dquote ++ query ++ dquote ++ " " ++ nl))%cli.

(** The command [delete]. *)
Definition cli_delete (query : string) (force : bool) : CLI unit :=
  (objs <- lift (search_objects query);;
   if (length objs <? 1)%nat then
     name <- bucket_name;;
     log_info ("File: " ++ query ++ " does not exist on " ++ name)
   else
     log_info ("Found " ++ pretty (length objs) ++ " files matching query");;
     for_each objs (fun obj =>
       if negb force then
         name <- bucket_name;;
         stdout_write ("[--] You are about to delete the file " ++ os_key obj
                       ++ "on " ++ name ++ ", are you sure? [Y/N]?" ++ nl);;
         answer <- stdin_readline;;
         c <- index0 answer;;
         if Ascii.eqb (lower c) "y" then delete_and_log query obj
         else log_info ("Skipped deleting " ++ dquote ++ os_key obj ++ dquote ++ nl)
       else if force then delete_and_log query obj
       else cret tt))%cli.

(** The command [download].  In the loop over several matches the
    first statement reads the name [found_obj], which nothing
    defines. *)
Definition cli_download (destination query : string) (fast : bool) : CLI unit :=
  (if negb fast then
     found_objs <- lift (search_objects query);;
     if (length found_objs =? 0)%nat then
       name <- bucket_name;;
       log_info ("File: " ++ query ++ " does not exist on " ++ name)
     else if (1 <? length found_objs)%nat then
       for_each found_objs (fun obj =>
         found_obj <- (craise (NameError "found_obj") : CLI (list ObjectSummary));;
         log_info ("Found " ++ pretty (length found_obj) ++ " files matching query");;
         log_info ("Download " ++ str_summary obj ++ "? [Y/N]");;
         name <- bucket_name;;
         stdout_write ("[--] Do you wish to download " ++ os_key obj ++ " on "
                       ++ name ++ "? [Y/N]?" ++ nl);;
         answer <- stdin_readline;;
         c <- index0 answer;;
         if Ascii.eqb (lower c) "y" then
           obj <- lift (get_object query);;
           lift (download_file obj destination true)
         else cret tt)
     else if (length found_objs =? 1)%nat then
       obj <- lift (get_object query);;
       lift (download_file obj destination true)
     else cret tt
   else if fast then
     obj <- lift (get_object query);;
     lift (download_file obj destination true)
   else cret tt)%cli.

(** The descriptors whose deletion the answers confirm: one answer
    per descriptor, in order; an answer confirms when its first
    character is [y] or [Y]. *)
Definition says_yes (answer : string) : bool :=
  match answer with
  | String c _ => Ascii.eqb (lower c) "y"
  | EmptyString => false
  end.

Fixpoint confirmed (answers : list string) (objs : list ObjectSummary)
  : list ObjectSummary :=
  match objs, answers with
  | obj :: objs', answer :: answers' =>
      if says_yes answer then obj :: confirmed answers' objs'
      else confirmed answers' objs'
  | _, _ => []
  end.

(** What the loop of [delete] shows. *)
Definition question (b : string) (obj : ObjectSummary) : cli_output :=
  StdoutWrite ("[--] You are about to delete the file " ++ os_key obj
               ++ "on " ++ b ++ ", are you sure? [Y/N]?" ++ nl).

Definition deleting_line (query : string) : cli_output :=
  LogInfo ("[--] Deleting file " ++ dquote ++ query ++ dquote ++ " " ++ nl).

Definition skipped_line (obj : ObjectSummary) : cli_output :=
  LogInfo ("Skipped deleting " ++ dquote ++ os_key obj ++ dquote ++ nl).

Fixpoint forced_shown (query : string) (objs : list ObjectSummary)
  : list cli_output :=
  match objs with
  | [] => []
  | _ :: objs' => Sleep 2 :: deleting_line query :: forced_shown query objs'
  end.

Fixpoint prompted_shown (b query : string) (answers : list string)
    (objs : list ObjectSummary) : list cli_output :=
  match objs, answers with
  | obj :: objs', answer :: answers' =>
      question b obj
      :: (if says_yes answer then [Sleep 2; deleting_line query]
          else [skipped_line obj])
      ++ prompted_shown b query answers' objs'
  | _, _ => []
  end.

(** The first line [delete] logs after the search. *)
Definition search_line (b query : string) (objs : list ObjectSummary)
  : cli_output :=
  match objs with
  | [] => LogInfo ("File: " ++ query ++ " does not exist on " ++ b)
  | _ => LogInfo ("Found " ++ pretty (length objs) ++ " files matching query")
  end.

(** A bucket content with the keys of some descriptors removed. *)
Definition without (objs : list ObjectSummary) (l : list blob) : list blob :=
  fold_left (fun l obj => remove_keys [os_key obj] l) objs l.

(** The state of the service, as a view. *)
Definition status_of (st : State) : service := status (world st).

(** The body of the loop of [delete]. *)
Definition delete_body (query : string) (force : bool) (obj : ObjectSummary)
  : CLI unit :=
  (if negb force then
     name <- bucket_name;;
     stdout_write ("[--] You are about to delete the file " ++ os_key obj
                   ++ "on " ++ name ++ ", are you sure? [Y/N]?" ++ nl);;
     answer <- stdin_readline;;
     c <- index0 answer;;
     if Ascii.eqb (lower c) "y" then delete_and_log query obj
     else log_info ("Skipped deleting " ++ dquote ++ os_key obj ++ dquote ++ nl)
   else if force then delete_and_log query obj
   else cret tt)%cli.

(** Whether a key is the key of one of some descriptors. *)
Definition key_among (key : string) (objs : list ObjectSummary) : bool :=
  existsb (fun o => String.eqb (os_key o) key) objs.

(** * Properties *)

(** ** Running the monad *)

Ltac unfold_methods :=
  unfold get_object, get_objects, reload_objects, search_objects,
    upload_file, download_file, delete_object, read_object, attach_bucket,
    bucketcheck, self_bucket, self_objects, hasattr_objects, set_objects in *.

Ltac unfold_world :=
  unfold ProgressPercentage__init__, instance_attr, Bucket_upload_file,
    calculate_etag_of, Bucket_download_file, Bucket_delete_objects,
    Bucket_objects_all, obj_get_body, get_body, attr_content_length,
    attr_e_tag, attr_key, loaded, load, head_object, the_bucket, send,
    os_path_getsize, os_path_exists, os_path_isdir, time_time, print,
    set_fs, set_remote, emit in *.

Ltac run :=
  unfold bind, ret, raise, try_except, get_world, put_world, get_self,
    put_self in *;
  cbn [self world bucket objects remote status fs clock trace fst snd
       is_ClientError negb andb orb
       o_bucket_name o_key o_data os_bucket_name os_key os_size os_e_tag
       content_length e_tag metadata] in *.

Lemma bucketcheck_unattached {A} (fn : M A) (st : State) :
  bucket (self st) = None ->
  bucketcheck fn st = (inl UnattachedBucketError, st).
Proof. intros H. unfold bucketcheck. run. rewrite H. reflexivity. Qed.

Lemma bucketcheck_attached {A} (fn : M A) (st : State) (b : string) :
  bucket (self st) = Some b ->
  bucketcheck fn st = fn st.
Proof. intros H. unfold bucketcheck. run. rewrite H. reflexivity. Qed.

(** ** The decorator *)

(** C3. On a manager to which no bucket has been attached, each of
    [get_object], [get_objects], [reload_objects], [search_objects],
    [upload_file], [download_file], [delete_object] and [read_object]
    raises [UnattachedBucketError], and neither the manager nor the
    world (buckets, local files, requests sent, lines printed) has
    changed. *)
Theorem unattached_raises (st : State) :
  bucket (self st) = None ->
  (forall key, get_object key st = (inl UnattachedBucketError, st)) /\
  get_objects st = (inl UnattachedBucketError, st) /\
  reload_objects st = (inl UnattachedBucketError, st) /\
  (forall str, search_objects str st = (inl UnattachedBucketError, st)) /\
  (forall calculate_etag store_etag local_path remote_key metadata,
      upload_file calculate_etag store_etag local_path remote_key metadata st
      = (inl UnattachedBucketError, st)) /\
  (forall obj local_path force,
      download_file obj local_path force st = (inl UnattachedBucketError, st)) /\
  (forall obj, delete_object obj st = (inl UnattachedBucketError, st)) /\
  (forall obj, read_object obj st = (inl UnattachedBucketError, st)).
Proof.
  intros H.
  repeat split; intros; apply bucketcheck_unattached; exact H.
Qed.

(** ** Substrings *)

Lemma append_String (c : ascii) (s t : string) :
  String c s ++ t = String c (s ++ t).
Proof. reflexivity. Qed.

Lemma append_empty (t : string) : "" ++ t = t.
Proof. reflexivity. Qed.

Lemma prefix_app (sub s : string) :
  String.prefix sub s = true <-> exists post, s = sub ++ post.
Proof.
  revert s. induction sub as [|a sub IH]; intros s.
  - destruct s; simpl; split; eauto.
  - destruct s as [|c s]; simpl.
    + split; [discriminate | intros [post H]; discriminate].
    + destruct (Ascii.ascii_dec a c) as [->|Hne].
      * rewrite IH.
        split; intros [post H]; exists post; rewrite append_String in *;
          congruence.
      * split; [discriminate|].
        intros [post H]. rewrite append_String in H. congruence.
Qed.

Lemma contains_empty (sub : string) :
  contains sub "" = String.prefix sub "".
Proof. destruct sub; reflexivity. Qed.

Lemma contains_String (sub : string) (c : ascii) (s : string) :
  contains sub (String c s)
  = (String.prefix sub (String c s) || contains sub s)%bool.
Proof.
  cbn [contains]. destruct (String.prefix sub (String c s)); reflexivity.
Qed.

Lemma contains_spec (sub s : string) :
  contains sub s = true <-> exists pre post, s = pre ++ sub ++ post.
Proof.
  induction s as [|c s IH].
  - rewrite contains_empty, prefix_app. split.
    + intros [post E]. exists "", post. exact E.
    + intros (pre & post & H). destruct pre; [|discriminate]. eauto.
  - rewrite contains_String, orb_true_iff, prefix_app, IH. split.
    + intros [[post E]|(pre & post & ->)].
      * exists "", post. exact E.
      * exists (String c pre), post. reflexivity.
    + intros (pre & post & H). destruct pre as [|c' pre].
      * left. eauto.
      * right. rewrite append_String in H. injection H as _ ->. eauto.
Qed.

(** ** The cached listing and the search *)

Lemma matching_In (str : string) (l : list ObjectSummary) (o : ObjectSummary) :
  In o (matching str l) <->
  In o l /\ exists pre post, os_key o = pre ++ str ++ post.
Proof. unfold matching. rewrite filter_In, contains_spec. reflexivity. Qed.

Lemma search_objects_hit (str b : string) (l : list ObjectSummary) (st : State) :
  bucket (self st) = Some b ->
  objects (self st) = Some l ->
  search_objects str st = (inr (matching str l), st).
Proof.
  intros Hb Ho. unfold_methods. run. rewrite Hb. run. rewrite Ho. run.
  rewrite ?Ho. reflexivity.
Qed.

Lemma Bucket_objects_all_ok (b : string) (blobs : list blob) (st : State) :
  status (world st) = Healthy ->
  remote (world st) !! b = Some blobs ->
  Bucket_objects_all b st
  = (inr (map (summary_of b) blobs),
     MkState (self st) (logged (world st) [ListObjects b])).
Proof.
  intros Hs Hr. unfold_world. run. rewrite Hs. run. rewrite Hr.
  unfold logged. rewrite Hs. reflexivity.
Qed.

Lemma get_objects_miss (b : string) (blobs : list blob) (st : State) :
  bucket (self st) = Some b ->
  objects (self st) = None ->
  status (world st) = Healthy ->
  remote (world st) !! b = Some blobs ->
  get_objects st
  = (inr (map (summary_of b) blobs),
     MkState (MkManager (Some b) (Some (map (summary_of b) blobs)))
             (logged (world st) [ListObjects b])).
Proof.
  intros Hb Ho Hs Hr. unfold_methods. run. rewrite Hb. run. rewrite Ho. run.
  rewrite Hb. run. rewrite (Bucket_objects_all_ok b blobs) by assumption.
  run. rewrite Hb. reflexivity.
Qed.

Lemma search_objects_miss (str b : string) (blobs : list blob) (st : State) :
  bucket (self st) = Some b ->
  objects (self st) = None ->
  status (world st) = Healthy ->
  remote (world st) !! b = Some blobs ->
  search_objects str st
  = (inr (matching str (map (summary_of b) blobs)),
     MkState (MkManager (Some b) (Some (map (summary_of b) blobs)))
             (logged (world st) [ListObjects b])).
Proof.
  intros Hb Ho Hs Hr.
  unfold search_objects. rewrite (bucketcheck_attached _ _ b Hb).
  unfold hasattr_objects at 1. run. rewrite Ho. run.
  rewrite (get_objects_miss b blobs) by assumption.
  unfold self_objects. run. reflexivity.
Qed.

Lemma matching_sublist (str : string) (l : list ObjectSummary) :
  matching str l `sublist_of` l.
Proof.
  unfold matching. induction l as [|o l IH]; simpl.
  - constructor.
  - destruct (contains str (os_key o)); constructor; exact IH.
Qed.

(** C2. On an attached bucket [search_objects(str)] returns the
    descriptors of the cached listing whose key contains [str], in
    the order of the listing: when the listing is cached, nothing is
    requested and nothing changes; when it is not, one listing
    request loads it.  A descriptor is returned exactly when it is in
    the listing and its key is [pre ++ str ++ post] for some [pre],
    [post]; no match is the empty list, not an exception. *)
Theorem search_objects_spec (str b : string) (st : State) :
  bucket (self st) = Some b ->
  (forall l, objects (self st) = Some l ->
     search_objects str st = (inr (matching str l), st)) /\
  (forall blobs,
     objects (self st) = None ->
     status (world st) = Healthy ->
     remote (world st) !! b = Some blobs ->
     search_objects str st
     = (inr (matching str (map (summary_of b) blobs)),
        MkState (MkManager (Some b) (Some (map (summary_of b) blobs)))
                (logged (world st) [ListObjects b]))) /\
  (forall l,
     matching str l `sublist_of` l /\
     (forall o, In o (matching str l) <->
                In o l /\ exists pre post, os_key o = pre ++ str ++ post) /\
     ((forall o, In o l -> contains str (os_key o) = false) ->
      matching str l = [])).
Proof.
  intros Hb. split; [|split].
  - intros l Ho. exact (search_objects_hit str b l st Hb Ho).
  - intros blobs Ho Hs Hr. exact (search_objects_miss str b blobs st Hb Ho Hs Hr).
  - intros l. split; [apply matching_sublist|]. split; [apply matching_In|].
    intros Hno. unfold matching. induction l as [|o l IH]; [reflexivity|].
    simpl. rewrite (Hno o (or_introl eq_refl)).
    apply IH. intros o' Ho'. apply Hno. right. exact Ho'.
Qed.

Lemma search_objects_spec_witness :
  search_objects "sampleA" (demo_attached Healthy)
  = (inr [ MkSummary "fastq" "run1/sampleA.fastq" 3 "e-a1";
           MkSummary "fastq" "run2/sampleA.fastq" 0 "e-a2" ],
     MkState (MkManager (Some "fastq") (Some demo_summaries))
             (logged (demo_world Healthy) [ListObjects "fastq"])) /\
  search_objects "sampleA" demo_cached
  = (inr [ MkSummary "fastq" "run1/sampleA.fastq" 3 "e-a1";
           MkSummary "fastq" "run2/sampleA.fastq" 0 "e-a2" ],
     demo_cached) /\
  search_objects "SAMPLEA" demo_cached = (inr [], demo_cached).
Proof.
  split; [|split].
  - destruct (search_objects_spec "sampleA" "fastq" (demo_attached Healthy) eq_refl)
      as (_ & Hmiss & _).
    exact (Hmiss demo_blobs eq_refl eq_refl eq_refl).
  - destruct (search_objects_spec "sampleA" "fastq" demo_cached eq_refl)
      as (Hhit & _).
    exact (Hhit demo_summaries eq_refl).
  - destruct (search_objects_spec "SAMPLEA" "fastq" demo_cached eq_refl)
      as (Hhit & _).
    exact (Hhit demo_summaries eq_refl).
Defined.

Lemma unattached_raises_witness :
  get_objects demo_unattached = (inl UnattachedBucketError, demo_unattached) /\
  download_file (VStr "run1/sampleA.fastq") "/data/out" true demo_unattached
  = (inl UnattachedBucketError, demo_unattached).
Proof.
  destruct (unattached_raises demo_unattached eq_refl)
    as (_ & Hget & _ & _ & _ & Hdown & _).
  split; [exact Hget | apply Hdown].
Defined.

(** ** Methods that leave the manager alone *)

Lemma keeps_ret {A} (a : A) : keeps_self (ret a).
Proof. intros st. reflexivity. Qed.

Lemma keeps_raise {A} (e : exn) : keeps_self (@raise A e).
Proof. intros st. reflexivity. Qed.

Lemma keeps_bind {A B} (m : M A) (k : A -> M B) :
  keeps_self m -> (forall a, keeps_self (k a)) -> keeps_self (bind m k).
Proof.
  intros Hm Hk st. unfold bind. specialize (Hm st).
  destruct (m st) as [[e|a] st']; simpl in *; [exact Hm|].
  rewrite Hk. exact Hm.
Qed.

Lemma keeps_try_except {A} (m : M A) (handles : exn -> bool) (h : M A) :
  keeps_self m -> keeps_self h -> keeps_self (try_except m handles h).
Proof.
  intros Hm Hh st. unfold try_except. specialize (Hm st).
  destruct (m st) as [[e|a] st']; simpl in *; [|exact Hm].
  destruct (handles e); simpl; [rewrite Hh|]; exact Hm.
Qed.

Lemma keeps_get_world : keeps_self get_world.
Proof. intros st. reflexivity. Qed.

Lemma keeps_put_world (w : World) : keeps_self (put_world w).
Proof. intros st. reflexivity. Qed.

Lemma keeps_get_self : keeps_self get_self.
Proof. intros st. reflexivity. Qed.

Create HintDb keeps.
#[local] Hint Resolve keeps_ret keeps_raise keeps_get_world keeps_put_world
  keeps_get_self : keeps.

(** Goes through a computation made of the pieces above. *)
Ltac keeps :=
  repeat first
    [ progress intros
    | apply keeps_bind
    | apply keeps_try_except
    | solve [auto with keeps]
    | match goal with
      | |- keeps_self (match ?x with _ => _ end) => destruct x
      | |- keeps_self (if ?x then _ else _) => destruct x
      end ].

Lemma keeps_send (ev : event) : keeps_self (send ev).
Proof. unfold send, emit. keeps. Qed.

Lemma keeps_the_bucket (b : string) : keeps_self (the_bucket b).
Proof. unfold the_bucket. keeps. Qed.

#[local] Hint Resolve keeps_send keeps_the_bucket : keeps.

Lemma keeps_head_object (b key : string) : keeps_self (head_object b key).
Proof. unfold head_object. keeps. Qed.

Lemma keeps_get_body (b key : string) : keeps_self (get_body b key).
Proof. unfold get_body. keeps. Qed.

Lemma keeps_Bucket_objects_all (b : string) : keeps_self (Bucket_objects_all b).
Proof. unfold Bucket_objects_all. keeps. Qed.

Lemma keeps_Bucket_delete_objects (b : string) (keys : list string) :
  keeps_self (Bucket_delete_objects b keys).
Proof. unfold Bucket_delete_objects, set_remote. keeps. Qed.

#[local] Hint Resolve keeps_head_object keeps_get_body keeps_Bucket_objects_all
  keeps_Bucket_delete_objects : keeps.

Lemma keeps_report (callback : ProgressPercentage) (n : Z) :
  keeps_self (report callback n).
Proof. unfold report, time_time. keeps. Qed.

#[local] Hint Resolve keeps_report : keeps.

Lemma keeps_Bucket_download_file (b key local_path : string) callback :
  keeps_self (Bucket_download_file b key local_path callback).
Proof. unfold Bucket_download_file, set_fs. keeps. Qed.

Lemma keeps_Bucket_upload_file store_etag (b local_path key : string) m callback :
  keeps_self (Bucket_upload_file store_etag b local_path key m callback).
Proof. unfold Bucket_upload_file, set_remote. keeps. Qed.

Lemma keeps_calculate_etag_of calculate_etag (local_path : string) :
  keeps_self (calculate_etag_of calculate_etag local_path).
Proof. unfold calculate_etag_of. keeps. Qed.

Lemma keeps_loaded (o : Object) : keeps_self (loaded o).
Proof. unfold loaded, load. keeps. Qed.

Lemma keeps_load (o : Object) : keeps_self (load o).
Proof. unfold load. keeps. Qed.

#[local] Hint Resolve keeps_Bucket_download_file keeps_Bucket_upload_file
  keeps_calculate_etag_of keeps_loaded keeps_load : keeps.

Lemma keeps_attr_key (obj : value) : keeps_self (attr_key obj).
Proof. unfold attr_key. keeps. Qed.

Lemma keeps_attr_e_tag (obj : value) : keeps_self (attr_e_tag obj).
Proof. unfold attr_e_tag. keeps. Qed.

Lemma keeps_attr_content_length (obj : value) :
  keeps_self (attr_content_length obj).
Proof. unfold attr_content_length. keeps. Qed.

Lemma keeps_obj_get_body (obj : value) : keeps_self (obj_get_body obj).
Proof. unfold obj_get_body. keeps. Qed.

Lemma keeps_os_path (p : string) :
  keeps_self (os_path_isdir p) /\ keeps_self (os_path_exists p) /\
  keeps_self (os_path_getsize p).
Proof.
  unfold os_path_isdir, os_path_exists, os_path_getsize. repeat split; keeps.
Qed.

Lemma keeps_os_path_isdir (p : string) : keeps_self (os_path_isdir p).
Proof. apply keeps_os_path. Qed.

Lemma keeps_os_path_exists (p : string) : keeps_self (os_path_exists p).
Proof. apply keeps_os_path. Qed.

Lemma keeps_os_path_getsize (p : string) : keeps_self (os_path_getsize p).
Proof. apply keeps_os_path. Qed.

Lemma keeps_print (line : string) : keeps_self (print line).
Proof. unfold print, emit. keeps. Qed.

#[local] Hint Resolve keeps_attr_key keeps_attr_e_tag keeps_attr_content_length
  keeps_obj_get_body keeps_os_path_isdir keeps_os_path_exists
  keeps_os_path_getsize keeps_print : keeps.

Lemma keeps_ProgressPercentage__init__ (source : value) :
  keeps_self (ProgressPercentage__init__ source).
Proof. unfold ProgressPercentage__init__, instance_attr, time_time. keeps. Qed.

Lemma keeps_self_bucket : keeps_self self_bucket.
Proof. unfold self_bucket. keeps. Qed.

#[local] Hint Resolve keeps_ProgressPercentage__init__ keeps_self_bucket : keeps.

Lemma keeps_bucketcheck {A} (fn : M A) :
  keeps_self fn -> keeps_self (bucketcheck fn).
Proof. intros H. unfold bucketcheck. keeps. Qed.

Lemma keeps_get_object (key : string) : keeps_self (get_object key).
Proof. unfold get_object. apply keeps_bucketcheck. keeps. Qed.

Lemma keeps_delete_object (obj : value) : keeps_self (delete_object obj).
Proof. unfold delete_object. apply keeps_bucketcheck. keeps. Qed.

#[local] Hint Resolve keeps_get_object keeps_delete_object : keeps.

Lemma keeps_read_object (obj : value) : keeps_self (read_object obj).
Proof. unfold read_object. apply keeps_bucketcheck. keeps. Qed.

Lemma keeps_download_file (obj : value) (local_path : string) (force : bool) :
  keeps_self (download_file obj local_path force).
Proof. unfold download_file. apply keeps_bucketcheck. keeps. Qed.

Lemma keeps_upload_file calculate_etag store_etag
    (local_path remote_key : string) (m : list (string * string)) :
  keeps_self (upload_file calculate_etag store_etag local_path remote_key m).
Proof. unfold upload_file. apply keeps_bucketcheck. keeps. Qed.

(** ** Attachment and the cache *)

Lemma attach_bucket_run (name : string) (st : State) :
  attach_bucket name st
  = (inr tt, MkState (MkManager (Some name) None) (world st)).
Proof. destruct st as [[bk [l|]] w]; reflexivity. Qed.

Lemma Bucket_objects_all_result (b : string) (st st' : State)
    (r : exn + list ObjectSummary) :
  Bucket_objects_all b st = (r, st') ->
  self st' = self st /\
  (forall l, r = inr l -> Forall (fun o => os_bucket_name o = b) l).
Proof.
  intros H. split.
  - pose proof (keeps_Bucket_objects_all b st) as K. rewrite H in K. exact K.
  - intros l ->. revert H. unfold_world. run.
    destruct (status (world st)); try discriminate.
    run. destruct (remote (world st) !! b) as [blobs|]; try discriminate.
    intros [= <- _]. apply List.Forall_forall. intros o Ho.
    apply in_map_iff in Ho as (x & <- & _). reflexivity.
Qed.

Lemma cache_after_listing (b : string) (st : State) :
  bucket (self st) = Some b ->
  cache_of_bucket (self st) ->
  cache_of_bucket
    (self (snd ((l <- Bucket_objects_all b;; set_objects l;; self_objects) st))).
Proof.
  intros Hb Hc. unfold bind at 1.
  destruct (Bucket_objects_all b st) as [[e|l] st'] eqn:E;
    apply Bucket_objects_all_result in E as [Hself Hl].
  - simpl. rewrite Hself. exact Hc.
  - unfold set_objects, self_objects. run. rewrite Hself, Hb.
    intros l' [= <-]. exists b. split; [reflexivity|]. apply Hl. reflexivity.
Qed.

Lemma reload_objects_cache (st : State) :
  cache_of_bucket (self st) -> cache_of_bucket (self (snd (reload_objects st))).
Proof.
  intros Hc. unfold reload_objects.
  destruct (bucket (self st)) as [b|] eqn:Hb.
  - rewrite (bucketcheck_attached _ _ b Hb).
    unfold self_bucket at 1. unfold bind at 1, get_self, bind at 1.
    rewrite Hb. exact (cache_after_listing b st Hb Hc).
  - rewrite bucketcheck_unattached by exact Hb. exact Hc.
Qed.

Lemma get_objects_cache (st : State) :
  cache_of_bucket (self st) -> cache_of_bucket (self (snd (get_objects st))).
Proof.
  intros Hc. unfold get_objects.
  destruct (bucket (self st)) as [b|] eqn:Hb.
  - rewrite (bucketcheck_attached _ _ b Hb).
    unfold hasattr_objects, bind at 1, get_self, bind at 1, ret at 1.
    destruct (objects (self st)) as [l|] eqn:Ho.
    + unfold self_objects. run. rewrite Ho. exact Hc.
    + unfold self_bucket at 1. unfold bind at 1, get_self, bind at 1.
      rewrite Hb. exact (cache_after_listing b st Hb Hc).
  - rewrite bucketcheck_unattached by exact Hb. exact Hc.
Qed.

Lemma search_objects_cache (str : string) (st : State) :
  cache_of_bucket (self st) ->
  cache_of_bucket (self (snd (search_objects str st))).
Proof.
  intros Hc. unfold search_objects.
  destruct (bucket (self st)) as [b|] eqn:Hb.
  - rewrite (bucketcheck_attached _ _ b Hb).
    unfold hasattr_objects, bind at 1, get_self, bind at 1, ret at 1.
    destruct (objects (self st)) as [l|] eqn:Ho.
    + unfold self_objects. run. rewrite Ho. exact Hc.
    + cbn [negb]. unfold bind at 1, bind at 1.
      pose proof (get_objects_cache st Hc) as Hg.
      destruct (get_objects st) as [[e|l] st'] eqn:E; [exact Hg|].
      unfold self_objects. run.
      destruct (objects (self st')); exact Hg.
  - rewrite bucketcheck_unattached by exact Hb. exact Hc.
Qed.

Lemma exec_cache calculate_etag store_etag (c : call) (st : State) :
  cache_of_bucket (self st) ->
  cache_of_bucket (self (exec calculate_etag store_etag c st)).
Proof.
  intros Hc. destruct c; cbn [exec].
  - rewrite attach_bucket_run. intros l [=].
  - rewrite keeps_get_object. exact Hc.
  - apply get_objects_cache, Hc.
  - apply reload_objects_cache, Hc.
  - apply search_objects_cache, Hc.
  - rewrite keeps_upload_file. exact Hc.
  - rewrite keeps_download_file. exact Hc.
  - rewrite keeps_delete_object. exact Hc.
  - rewrite keeps_read_object. exact Hc.
Qed.

Lemma reachable_cache calculate_etag store_etag (st : State) :
  reachable calculate_etag store_etag st -> cache_of_bucket (self st).
Proof.
  induction 1 as [w|c st _ IH|st w _ IH].
  - intros l [=].
  - apply exec_cache, IH.
  - exact IH.
Qed.

(** C8. From every state of the manager, [attach_bucket(name)] returns
    with the manager bound to [name] and without a cached listing,
    the world untouched.  The next [get_objects] or [search_objects]
    (in whatever world it runs) therefore sends one listing request
    for [name] and works on its answer.  And in every state a manager
    can reach, a cached listing is a listing of the attached
    bucket. *)
Theorem attach_bucket_spec calculate_etag store_etag (name : string) (st : State) :
  attach_bucket name st
  = (inr tt, MkState (MkManager (Some name) None) (world st)) /\
  (forall w blobs,
     status w = Healthy ->
     remote w !! name = Some blobs ->
     let st1 := MkState (MkManager (Some name) None) w in
     let fresh := map (summary_of name) blobs in
     let st2 := MkState (MkManager (Some name) (Some fresh))
                        (logged w [ListObjects name]) in
     get_objects st1 = (inr fresh, st2) /\
     forall str, search_objects str st1 = (inr (matching str fresh), st2)) /\
  (forall st', reachable calculate_etag store_etag st' ->
               cache_of_bucket (self st')).
Proof.
  split; [apply attach_bucket_run|]. split.
  - intros w blobs Hs Hr st1 fresh st2. split.
    + apply (get_objects_miss name blobs st1); auto.
    + intros str. apply (search_objects_miss str name blobs st1); auto.
  - apply reachable_cache.
Qed.

Lemma attach_bucket_spec_witness :
  let other := <["archive" := [Blob "old/sampleA.fastq" [] "e-old" []]]>
                 (remote (demo_world Healthy)) in
  let w := MkWorld other Healthy demo_fs 0 [] in
  let st1 := snd (attach_bucket "archive" (MkState (self demo_cached) w)) in
  objects (self st1) = None /\
  fst (search_objects "sampleA" st1)
  = inr [MkSummary "archive" "old/sampleA.fastq" 0 "e-old"].
Proof.
  intros other w st1.
  destruct (attach_bucket_spec (fun _ => "") (fun _ => "") "archive"
              (MkState (self demo_cached) w)) as (Hrun & Hnext & _).
  subst st1. rewrite Hrun. split; [reflexivity|].
  destruct (Hnext w [Blob "old/sampleA.fastq" [] "e-old" []] eq_refl eq_refl)
    as [_ Hsearch].
  cbn [world]. rewrite Hsearch. reflexivity.
Defined.

(** ** Lookup of one key *)

Ltac open_state st :=
  let bk := fresh "bk" in
  let objs := fresh "objs" in
  let rem := fresh "rem" in
  let sts := fresh "sts" in
  let files := fresh "files" in
  let clk := fresh "clk" in
  let tr := fresh "tr" in
  destruct st as [[bk objs] [rem sts files clk tr]];
  unfold after, logged, stored in *;
  cbn [self world bucket objects remote status fs clock trace] in *.

Lemma head_object_run (b key : string) (st : State) :
  head_object b key st
  = match status (world st) with
    | Healthy =>
        match stored (world st) b key with
        | Some x => (inr (head_of x), after st [HeadObject b key])
        | None => (inl (ClientError (match remote (world st) !! b with
                                     | Some _ => "404"
                                     | None => "NoSuchBucket"
                                     end)),
                   after st [HeadObject b key])
        end
    | Failing code => (inl (ClientError code), after st [HeadObject b key])
    | Unreachable => (inl EndpointConnectionError, after st [HeadObject b key])
    end.
Proof.
  open_state st. unfold_world. run.
  destruct sts; try reflexivity.
  run. destruct (rem !! b) as [l|]; [|reflexivity].
  destruct (find_key key l); reflexivity.
Qed.

Lemma get_object_run (b key : string) (st : State) :
  bucket (self st) = Some b ->
  get_object key st
  = (match status (world st) with
     | Healthy =>
         match stored (world st) b key with
         | Some x => inr (VObject (MkObject b key (Some (head_of x))))
         | None => inr VNone
         end
     | Failing _ => inr VNone
     | Unreachable => inl EndpointConnectionError
     end,
     after st [HeadObject b key]).
Proof.
  intros Hb. unfold get_object. rewrite (bucketcheck_attached _ _ b Hb).
  unfold self_bucket, load. run. rewrite Hb. run.
  rewrite head_object_run.
  destruct (status (world st)); try reflexivity.
  destruct (stored (world st) b key); reflexivity.
Qed.

(** C5, as the code has it.  On an attached bucket [get_object(key)]
    sends one HeadObject request.  It returns [None] whenever the
    service answers with an error: for a key that has no object, and
    just as well for any other error response (403, 500, ...), also
    when the object exists.  It returns the loaded object when the
    request succeeds, and only a request that gets no answer at all
    propagates as an exception. *)
Theorem get_object_spec (b key : string) (st : State) :
  bucket (self st) = Some b ->
  let st' := after st [HeadObject b key] in
  (status (world st) = Healthy ->
   stored (world st) b key = None ->
   get_object key st = (inr VNone, st')) /\
  (forall x,
   status (world st) = Healthy ->
   stored (world st) b key = Some x ->
   get_object key st = (inr (VObject (MkObject b key (Some (head_of x)))), st')) /\
  (forall code,
   status (world st) = Failing code ->
   get_object key st = (inr VNone, st')) /\
  (status (world st) = Unreachable ->
   get_object key st = (inl EndpointConnectionError, st')).
Proof.
  intros Hb st'. rewrite (get_object_run b key st Hb).
  repeat split; intros; repeat match goal with H : _ = _ |- _ => rewrite H end;
    reflexivity.
Qed.

Lemma get_object_spec_witness :
  fst (get_object "run9/none.fastq" (demo_attached Healthy)) = inr VNone /\
  fst (get_object "run9/none.fastq" (demo_attached (Failing "403"))) = inr VNone /\
  fst (get_object "run9/none.fastq" (demo_attached Unreachable))
  = inl EndpointConnectionError.
Proof.
  split; [|split].
  - destruct (get_object_spec "fastq" "run9/none.fastq" (demo_attached Healthy) eq_refl)
      as (H & _).
    rewrite (H eq_refl eq_refl). reflexivity.
  - destruct (get_object_spec "fastq" "run9/none.fastq"
                (demo_attached (Failing "403")) eq_refl) as (_ & _ & H & _).
    rewrite (H "403" eq_refl). reflexivity.
  - destruct (get_object_spec "fastq" "run9/none.fastq"
                (demo_attached Unreachable) eq_refl) as (_ & _ & _ & H).
    rewrite (H eq_refl). reflexivity.
Defined.

(** C5, as stated, fails: the service answers the request for an
    existing object with the error 500, and [get_object] returns the
    not-found value instead of raising. *)
Lemma get_object_error_response_is_not_found :
  let st := demo_attached (Failing "500") in
  stored (world st) "fastq" "run1/sampleA.fastq"
  = Some (Blob "run1/sampleA.fastq" body_A1 "e-a1" []) /\
  fst (get_object "run1/sampleA.fastq" st) = inr VNone /\
  ~ (exists e, fst (get_object "run1/sampleA.fastq" st) = inl e).
Proof.
  split; [reflexivity|]. split; [reflexivity|].
  intros [e H]. discriminate H.
Qed.

(** ** Download *)

Lemma download_file_split (obj : value) (local_path : string) (force : bool) :
  download_file obj local_path force
  = bucketcheck (o <- resolve obj;; download_resolved o local_path force).
Proof. reflexivity. Qed.

Lemma resolve_run (b : string) (obj o : value) (st st1 : State) :
  bucket (self st) = Some b ->
  resolve obj st = (inr o, st1) ->
  bucket (self st1) = Some b /\
  remote (world st1) = remote (world st) /\
  fs (world st1) = fs (world st) /\
  status (world st1) = status (world st) /\
  (st1 = st \/ exists key, obj = VStr key /\ st1 = after st [HeadObject b key]).
Proof.
  intros Hb H. destruct obj; cbn [resolve] in H;
    try (injection H as <- <-; repeat split; auto).
  rewrite (get_object_run b s st Hb) in H. injection H as _ <-.
  repeat split; eauto.
Qed.

Lemma attr_key_run (obj : value) (st : State) :
  attr_key obj st
  = (match key_of obj with
     | Some key => inr key
     | None => inl (AttributeError "key")
     end, st).
Proof. destruct obj; reflexivity. Qed.

(** The guard: nothing is requested and nothing is written. *)
Lemma download_resolved_guard (o : value) (local_path t : string) (n : node)
    (st : State) :
  target (fs (world st)) o local_path = Some t ->
  fs (world st) !! t = Some n ->
  download_resolved o local_path false st = (inl (LocalFileExistsError t), st).
Proof.
  intros Ht Hn. unfold download_resolved, target in *.
  unfold os_path_isdir, os_path_exists. run.
  destruct (fs (world st) !! local_path) as [[c|sz]|] eqn:E.
  - injection Ht as <-. run. rewrite E. reflexivity.
  - rewrite attr_key_run. destruct (key_of o) as [k|]; [|discriminate].
    injection Ht as <-. run. rewrite Hn. reflexivity.
  - injection Ht as <-. congruence.
Qed.

(** One statement at a time. *)
Lemma bind_inr {A B} (m : M A) (k : A -> M B) (st st' : State) (a : A) :
  m st = (inr a, st') -> bind m k st = k a st'.
Proof. intros H. unfold bind. rewrite H. reflexivity. Qed.

Lemma bind_inl {A B} (m : M A) (k : A -> M B) (st st' : State) (e : exn) :
  m st = (inl e, st') -> bind m k st = (inl e, st').
Proof. intros H. unfold bind. rewrite H. reflexivity. Qed.

Ltac step L :=
  erewrite bind_inr by (apply L; first [eassumption | reflexivity]); cbv beta.
Ltac stop L :=
  erewrite bind_inl by (apply L; first [eassumption | reflexivity]); cbv beta.

Lemma os_path_isdir_run (p : string) (st : State) :
  os_path_isdir p st
  = (inr (match fs (world st) !! p with Some (Dir _) => true | _ => false end), st).
Proof. reflexivity. Qed.

Lemma os_path_exists_run (p : string) (st : State) :
  os_path_exists p st
  = (inr (match fs (world st) !! p with Some _ => true | None => false end), st).
Proof. reflexivity. Qed.

Lemma self_bucket_run (b : string) (st : State) :
  bucket (self st) = Some b -> self_bucket st = (inr b, st).
Proof. intros H. unfold self_bucket. run. rewrite H. reflexivity. Qed.

Lemma attr_key_ok (obj : value) (key : string) (st : State) :
  key_of obj = Some key -> attr_key obj st = (inr key, st).
Proof. intros H. rewrite attr_key_run, H. reflexivity. Qed.

Lemma attr_key_fails (obj : value) (st : State) :
  key_of obj = None -> attr_key obj st = (inl (AttributeError "key"), st).
Proof. intros H. rewrite attr_key_run, H. reflexivity. Qed.

Lemma print_run (line : string) (st : State) :
  print line st = (inr tt, after st [Printed line]).
Proof. reflexivity. Qed.

Lemma init_handed_out (o : value) (st : State) :
  handed_out o = true ->
  exists p, ProgressPercentage__init__ o st = (inr p, st) /\ _size p = size_of o.
Proof.
  intros Ho. destruct o as [| | |s|[bn k [h|]]]; try discriminate Ho;
    eexists; split; reflexivity.
Qed.

Lemma calculate_speed_size (now : Q) (self : ProgressPercentage) :
  _size (fst (_calculate_speed now self)) = _size self.
Proof. unfold _calculate_speed. destruct (Qlt_le_dec _ _); reflexivity. Qed.

(** A call of the callback raises exactly when the size is 0. *)
Lemma call_outcome (now : Q) (bytes_amount : Z) (self : ProgressPercentage) :
  (_size self = 0 ->
   snd (__call__ now bytes_amount self) = inl ZeroDivisionError) /\
  (_size self <> 0 ->
   exists line, snd (__call__ now bytes_amount self) = inr line).
Proof.
  unfold __call__.
  match goal with
  | |- context [_calculate_speed now ?s] =>
      pose proof (calculate_speed_size now s) as Hsize;
      destruct (_calculate_speed now s) as [self' speed]
  end.
  cbn [fst _size] in Hsize. rewrite Hsize.
  destruct (Z.eqb_spec (_size self) 0) as [E|E]; cbn [snd].
  - split; [reflexivity | contradiction].
  - split; [contradiction | eauto].
Qed.

Lemma report_ok (callback : ProgressPercentage) (n : Z) (st : State) :
  (_size callback = 0 -> n = 0) ->
  report callback n st = (inr tt, st).
Proof.
  intros H. unfold report. destruct (Z.eqb_spec n 0) as [E|E]; [reflexivity|].
  unfold time_time. run.
  destruct (call_outcome (clock (world st)) n callback) as [_ Hok].
  destruct Hok as [line ->]; [intros Hz; exact (E (H Hz)) | reflexivity].
Qed.

Lemma get_body_run (b key : string) (x : blob) (st : State) :
  status (world st) = Healthy ->
  stored (world st) b key = Some x ->
  get_body b key st = (inr (b_body x), after st [GetObject b key]).
Proof.
  intros Hs Hx. open_state st. subst sts. unfold_world. run.
  destruct (rem !! b) as [l|]; [|discriminate]. rewrite Hx. reflexivity.
Qed.

Lemma Bucket_download_file_run (b key t : string) (x : blob)
    (old : list Byte.byte) (callback : ProgressPercentage) (st : State) :
  status (world st) = Healthy ->
  stored (world st) b key = Some x ->
  fs (world st) !! t = Some (File old) ->
  (_size callback = 0 -> b_body x = []) ->
  Bucket_download_file b key t callback st
  = (inr tt, MkState (self st)
               (logged (written (world st) t (b_body x)) [GetObject b key])).
Proof.
  intros Hs Hx Hold Hsize. unfold Bucket_download_file.
  step get_body_run.
  rewrite (bind_inr _ _ _ _ _ (report_ok callback _ _
             (fun Hz => f_equal (fun l => Z.of_nat (length l)) (Hsize Hz)))).
  unfold set_fs, after, logged, written. run.
  rewrite Hold. reflexivity.
Qed.

Lemma download_resolved_force (b key local_path t : string) (o : value)
    (old : list Byte.byte) (x : blob) (st : State) :
  bucket (self st) = Some b ->
  handed_out o = true ->
  key_of o = Some key ->
  target (fs (world st)) o local_path = Some t ->
  fs (world st) !! t = Some (File old) ->
  status (world st) = Healthy ->
  stored (world st) b key = Some x ->
  (size_of o = 0 -> b_body x = []) ->
  download_resolved o local_path true st
  = (inr tt,
     MkState (self st)
       (logged (written (world st) t (b_body x)) [GetObject b key; Printed ""])).
Proof.
  intros Hb Ho Hk Ht Hold Hs Hx Hsize. unfold download_resolved.
  step os_path_isdir_run.
  assert (Hpath :
    (if match fs (world st) !! local_path with Some (Dir _) => true | _ => false end
     then key <- attr_key o;; ret (join local_path (basename key))
     else ret local_path) st = (inr t, st)).
  { unfold target in Ht. rewrite Hk in Ht.
    destruct (fs (world st) !! local_path) as [[c|sz]|]; injection Ht as <-;
      try reflexivity.
    step attr_key_ok. reflexivity. }
  rewrite (bind_inr _ _ _ _ _ Hpath).
  step os_path_exists_run. rewrite Hold. cbn [andb negb].
  unfold ret at 1. unfold bind at 1.
  step self_bucket_run. step attr_key_ok.
  destruct (init_handed_out o st Ho) as (p & Hp & Hpsize).
  rewrite (bind_inr _ _ _ _ _ Hp).
  rewrite <- Hpsize in Hsize.
  rewrite (bind_inr _ _ _ _ _
             (Bucket_download_file_run b key t x old p st Hs Hx Hold Hsize)).
  rewrite print_run.
  unfold after, logged, written. cbn [self world remote status fs clock trace].
  rewrite <- app_assoc. reflexivity.
Qed.

(** C4. [download_file] on an attached bucket, once the object
    reference is resolved to [o] (a key is looked up with one
    HeadObject request, anything else is taken as it is) and [t] is
    the path it resolves to write to.  If something exists at [t] and
    [force] is false, the call raises [LocalFileExistsError] for [t]:
    the local files and the buckets are as before and the only
    request that may have been sent is the lookup of the key, so no
    byte was transferred.  If [force] is true, [t] is a file and the
    object is there to fetch, the call returns and [t] holds the body
    of the object (the progress callback divides by the size the
    descriptor gives, which therefore is not 0 unless the body is
    empty). *)
Theorem download_file_overwrite_guard (b : string) (obj o : value)
    (local_path t : string) (st st1 : State) :
  bucket (self st) = Some b ->
  resolve obj st = (inr o, st1) ->
  target (fs (world st)) o local_path = Some t ->
  (forall n,
     fs (world st) !! t = Some n ->
     download_file obj local_path false st = (inl (LocalFileExistsError t), st1) /\
     fs (world st1) = fs (world st) /\
     remote (world st1) = remote (world st) /\
     (st1 = st \/ exists key, obj = VStr key /\ st1 = after st [HeadObject b key])) /\
  (forall old key x,
     fs (world st) !! t = Some (File old) ->
     handed_out o = true ->
     key_of o = Some key ->
     status (world st) = Healthy ->
     stored (world st) b key = Some x ->
     (size_of o = 0 -> b_body x = []) ->
     let st2 := MkState (self st1)
                  (logged (written (world st1) t (b_body x))
                          [GetObject b key; Printed ""]) in
     download_file obj local_path true st = (inr tt, st2) /\
     fs (world st2) = <[t := File (b_body x)]> (fs (world st)) /\
     fs (world st2) !! t = Some (File (b_body x))).
Proof.
  intros Hb Hres Ht.
  destruct (resolve_run b obj o st st1 Hb Hres) as (Hb1 & Hrem & Hfs & Hst & Hev).
  split.
  - intros n Hn. repeat split; auto.
    rewrite download_file_split, (bucketcheck_attached _ _ b Hb).
    rewrite (bind_inr _ _ _ _ _ Hres).
    apply (download_resolved_guard o local_path t n); rewrite Hfs; assumption.
  - intros old key x Hold Ho Hk Hs Hx Hsize st2.
    assert (Hfs2 : fs (world st2) = <[t := File (b_body x)]> (fs (world st))).
    { subst st2. cbn. rewrite Hfs. reflexivity. }
    repeat split.
    + rewrite download_file_split, (bucketcheck_attached _ _ b Hb).
      rewrite (bind_inr _ _ _ _ _ Hres).
      apply (download_resolved_force b key local_path t o old x st1);
        unfold stored in *; rewrite ?Hfs, ?Hrem, ?Hst; assumption.
    + exact Hfs2.
    + rewrite Hfs2. apply lookup_insert_eq.
Qed.

Lemma download_file_overwrite_guard_witness :
  let st := demo_attached Healthy in
  let key := "run1/sampleA.fastq" in
  let st1 := after st [HeadObject "fastq" key] in
  download_file (VStr key) "/data/out" false st
  = (inl (LocalFileExistsError "/data/out/sampleA.fastq"), st1) /\
  fs (world (snd (download_file (VStr key) "/data/out" true st)))
    !! "/data/out/sampleA.fastq" = Some (File body_A1).
Proof.
  intros st key st1.
  destruct (download_file_overwrite_guard "fastq" (VStr key)
              (VObject (MkObject "fastq" key (Some (Head 3 "e-a1" []))))
              "/data/out" "/data/out/sampleA.fastq" st st1
              eq_refl eq_refl eq_refl) as [Hguard Hforce].
  split.
  - destruct (Hguard (File body_B1) eq_refl) as (H & _). exact H.
  - pose proof (Hforce body_B1 key (Blob key body_A1 "e-a1" [])
                  eq_refl eq_refl eq_refl eq_refl eq_refl) as Hf.
    destruct Hf as (H & _ & Hfile); [discriminate|].
    rewrite H. exact Hfile.
Defined.

Lemma download_resolved_none (b local_path : string) (force : bool) (st : State) :
  bucket (self st) = Some b ->
  download_resolved VNone local_path force st
  = (match fs (world st) !! local_path with
     | Some (File _) =>
         if force then inl (AttributeError "key")
         else inl (LocalFileExistsError local_path)
     | _ => inl (AttributeError "key")
     end, st).
Proof.
  intros Hb. unfold download_resolved. step os_path_isdir_run.
  destruct (fs (world st) !! local_path) as [[c|sz]|] eqn:E.
  - unfold ret at 1. unfold bind at 1. step os_path_exists_run. rewrite E.
    destruct force; cbn [andb negb]; [|reflexivity].
    unfold ret at 1. unfold bind at 1. step self_bucket_run.
    stop attr_key_fails; reflexivity.
  - unfold bind at 1. stop attr_key_fails; reflexivity.
  - unfold ret at 1. unfold bind at 1. step os_path_exists_run. rewrite E.
    cbn [andb]. unfold ret at 1. unfold bind at 1. step self_bucket_run.
    stop attr_key_fails; reflexivity.
Qed.

(** C10, as the code has it.  When [get_object(key)] returns [None],
    [download_file(key, local_path, force)] raises [AttributeError]
    for the attribute [key] of [None], except that with [force] false
    and [local_path] an existing file the overwrite guard comes first
    and the call raises [LocalFileExistsError]. *)
Theorem download_file_not_found (b key local_path : string) (force : bool)
    (st st1 : State) :
  bucket (self st) = Some b ->
  get_object key st = (inr VNone, st1) ->
  download_file (VStr key) local_path force st
  = (match fs (world st) !! local_path with
     | Some (File _) =>
         if force then inl (AttributeError "key")
         else inl (LocalFileExistsError local_path)
     | _ => inl (AttributeError "key")
     end, st1).
Proof.
  intros Hb Hget.
  destruct (resolve_run b (VStr key) VNone st st1 Hb Hget) as (Hb1 & _ & Hfs & _).
  rewrite download_file_split, (bucketcheck_attached _ _ b Hb).
  change (resolve (VStr key)) with (get_object key).
  rewrite (bind_inr _ _ _ _ _ Hget).
  rewrite (download_resolved_none b local_path force st1 Hb1), Hfs.
  reflexivity.
Qed.

Lemma download_file_not_found_witness :
  fst (download_file (VStr "run9/none.fastq") "/data/out" false
         (demo_attached Healthy)) = inl (AttributeError "key") /\
  fst (download_file (VStr "run9/none.fastq") "/data/keep.fastq" true
         (demo_attached Healthy)) = inl (AttributeError "key").
Proof.
  split.
  - rewrite (download_file_not_found "fastq" "run9/none.fastq" "/data/out" false
               (demo_attached Healthy) _ eq_refl eq_refl).
    reflexivity.
  - rewrite (download_file_not_found "fastq" "run9/none.fastq" "/data/keep.fastq"
               true (demo_attached Healthy) _ eq_refl eq_refl).
    reflexivity.
Defined.

(** C10, as stated, fails: the key has no object, [local_path] is an
    existing file and [force] is left false; the call raises
    [LocalFileExistsError], one of the documented errors, and [None]
    is never dereferenced. *)
Lemma download_file_not_found_guard_first :
  let st := demo_attached Healthy in
  fst (get_object "run9/none.fastq" st) = inr VNone /\
  fst (download_file (VStr "run9/none.fastq") "/data/keep.fastq" false st)
  = inl (LocalFileExistsError "/data/keep.fastq") /\
  fst (download_file (VStr "run9/none.fastq") "/data/keep.fastq" false st)
  <> inl (AttributeError "key").
Proof.
  split; [reflexivity|]. split; [reflexivity|]. discriminate.
Qed.

(** ** Upload *)

Lemma find_key_put_blob (x : blob) (l : list blob) :
  find_key (b_key x) (put_blob x l) = Some x.
Proof.
  unfold find_key. induction l as [|y l IH]; simpl.
  - rewrite String.eqb_refl. reflexivity.
  - destruct (String.eqb (b_key y) (b_key x)) eqn:E; simpl.
    + rewrite String.eqb_refl. reflexivity.
    + rewrite E. exact IH.
Qed.

Lemma find_key_remove_keys (key : string) (l : list blob) :
  find_key key (remove_keys [key] l) = None.
Proof.
  unfold find_key, remove_keys. induction l as [|y l IH]; simpl; [reflexivity|].
  destruct (String.eqb (b_key y) key) eqn:E; simpl; [exact IH|].
  rewrite E. exact IH.
Qed.

Lemma init_local_file (p : string) (content : list Byte.byte) (st : State) :
  fs (world st) !! p = Some (File content) ->
  ProgressPercentage__init__ (VStr p) st
  = (inr (MkProgress (VStr p) (Z.of_nat (length content)) 0
            (clock (world st)) 0 1 0), st).
Proof.
  intros H. unfold ProgressPercentage__init__, os_path_getsize, time_time.
  run. rewrite H. reflexivity.
Qed.

Lemma Bucket_upload_file_run store_etag (b local_path key : string)
    (m : list (string * string)) (content : list Byte.byte) (l : list blob)
    (callback : ProgressPercentage) (st : State) :
  status (world st) = Healthy ->
  remote (world st) !! b = Some l ->
  fs (world st) !! local_path = Some (File content) ->
  (_size callback = 0 -> content = []) ->
  Bucket_upload_file store_etag b local_path key m callback st
  = (inr tt,
     MkState (self st)
       (logged (with_bucket (world st) b
                  (put_blob (Blob key content (store_etag content) m) l))
               [PutObject b key])).
Proof.
  intros Hs Hr Hf Hsize. open_state st. subst sts.
  unfold Bucket_upload_file. unfold_world. run. rewrite Hf. run.
  rewrite (report_ok callback _ _
             (fun Hz => f_equal (fun l => Z.of_nat (length l)) (Hsize Hz))).
  run. rewrite Hr. reflexivity.
Qed.

Lemma calculate_etag_of_run calculate_etag (local_path : string)
    (content : list Byte.byte) (st : State) :
  fs (world st) !! local_path = Some (File content) ->
  calculate_etag_of calculate_etag local_path st
  = (inr (calculate_etag content), st).
Proof. intros H. unfold calculate_etag_of. run. rewrite H. reflexivity. Qed.

Lemma delete_object_run (b key : string) (obj : value) (l : list blob)
    (st : State) :
  bucket (self st) = Some b ->
  key_of obj = Some key ->
  status (world st) = Healthy ->
  remote (world st) !! b = Some l ->
  delete_object obj st
  = (inr tt,
     MkState (self st)
       (logged (with_bucket (world st) b (remove_keys [key] l))
               [DeleteObjects b [key]])).
Proof.
  intros Hb Hk Hs Hr. unfold delete_object.
  rewrite (bucketcheck_attached _ _ b Hb).
  step self_bucket_run. step attr_key_ok.
  open_state st. subst sts. unfold_world. run. rewrite Hr. reflexivity.
Qed.

Lemma attr_e_tag_loaded (b key : string) (h : head) (st : State) :
  attr_e_tag (VObject (MkObject b key (Some h))) st = (inr (e_tag h), st).
Proof. reflexivity. Qed.

Lemma upload_file_run calculate_etag store_etag
    (b local_path remote_key : string) (metadata : list (string * string))
    (content : list Byte.byte) (l : list blob) (st : State) :
  bucket (self st) = Some b ->
  status (world st) = Healthy ->
  remote (world st) !! b = Some l ->
  fs (world st) !! local_path = Some (File content) ->
  let x := Blob remote_key content (store_etag content) metadata in
  upload_file calculate_etag store_etag local_path remote_key metadata st
  = if String.eqb (calculate_etag content) (store_etag content) then
      (inr tt,
       MkState (self st)
         (logged (with_bucket (world st) b (put_blob x l))
            [PutObject b remote_key; Printed ""; HeadObject b remote_key]))
    else
      (inl MismatchChecksumError,
       MkState (self st)
         (logged (with_bucket (world st) b (remove_keys [remote_key] (put_blob x l)))
            [PutObject b remote_key; Printed ""; HeadObject b remote_key;
             DeleteObjects b [remote_key]])).
Proof.
  intros Hb Hs Hr Hf x. unfold upload_file.
  rewrite (bucketcheck_attached _ _ b Hb).
  step self_bucket_run.
  rewrite (bind_inr _ _ _ _ _ (init_local_file local_path content st Hf)).
  assert (Hsize : _size (MkProgress (VStr local_path)
                             (Z.of_nat (length content)) 0
                             (clock (world st)) 0 1 0) = 0 -> content = []).
  { cbn [_size]. intros Hz. apply length_zero_iff_nil. lia. }
  rewrite (bind_inr _ _ _ _ _
             (Bucket_upload_file_run store_etag b local_path remote_key metadata
                content l _ st Hs Hr Hf Hsize)).
  fold x. rewrite (bind_inr _ _ _ _ _ (print_run _ _)).
  open_state st. subst bk sts.
  erewrite bind_inr by (apply (calculate_etag_of_run calculate_etag); exact Hf).
  unfold bind at 1. rewrite (get_object_run b remote_key) by reflexivity.
  unfold stored, after, logged, with_bucket.
  cbn [self world bucket objects remote status fs clock trace].
  rewrite lookup_insert_eq.
  replace (find_key remote_key (put_blob x l)) with (Some x)
    by (symmetry; exact (find_key_put_blob x l)).
  cbv beta iota.
  rewrite (bind_inr _ _ _ _ _ (attr_e_tag_loaded b remote_key (head_of x) _)).
  change (e_tag (head_of x)) with (store_etag content).
  destruct (String.eqb (calculate_etag content) (store_etag content));
    cbn [negb].
  - unfold ret. rewrite <- !app_assoc. reflexivity.
  - erewrite bind_inr
      by (apply (delete_object_run b remote_key); try reflexivity;
          cbn [self world remote]; apply lookup_insert_eq).
    unfold raise, logged, with_bucket.
    cbn [self world remote status fs clock trace].
    rewrite insert_insert_eq, <- !app_assoc. reflexivity.
Qed.

(** C1. [upload_file] on an attached bucket, once the transfer has
    stored the file under [remote_key]: the checksum computed from the
    local file is compared, character for character, with the entity
    tag of the object just fetched.  If they differ the object is
    deleted by one DeleteObjects request for that key, the call
    raises [MismatchChecksumError], and the bucket holds nothing
    under [remote_key] afterwards.  If they are equal the call
    returns, the object is there, and nothing is requested after the
    fetch of its entity tag. *)
Theorem upload_file_checksum calculate_etag store_etag
    (b local_path remote_key : string) (metadata : list (string * string))
    (content : list Byte.byte) (l : list blob) (st : State) :
  bucket (self st) = Some b ->
  status (world st) = Healthy ->
  remote (world st) !! b = Some l ->
  fs (world st) !! local_path = Some (File content) ->
  let x := Blob remote_key content (store_etag content) metadata in
  let sent := [PutObject b remote_key; Printed ""; HeadObject b remote_key] in
  let r := upload_file calculate_etag store_etag local_path remote_key metadata st in
  (calculate_etag content <> store_etag content ->
   r = (inl MismatchChecksumError,
        MkState (self st)
          (logged (with_bucket (world st) b (remove_keys [remote_key] (put_blob x l)))
                  (sent ++ [DeleteObjects b [remote_key]]))) /\
   stored (world (snd r)) b remote_key = None) /\
  (calculate_etag content = store_etag content ->
   r = (inr tt,
        MkState (self st) (logged (with_bucket (world st) b (put_blob x l)) sent)) /\
   stored (world (snd r)) b remote_key = Some x).
Proof.
  intros Hb Hs Hr Hf x sent r.
  pose proof (upload_file_run calculate_etag store_etag b local_path remote_key
                metadata content l st Hb Hs Hr Hf) as Hrun.
  cbv zeta in Hrun. fold x in Hrun. fold r in Hrun.
  split; intros Hcmp.
  - apply String.eqb_neq in Hcmp. rewrite Hcmp in Hrun. rewrite Hrun.
    split; [reflexivity|].
    unfold stored, logged, with_bucket. cbn [snd world remote].
    rewrite lookup_insert_eq. apply find_key_remove_keys.
  - apply String.eqb_eq in Hcmp. rewrite Hcmp in Hrun. rewrite Hrun.
    split; [reflexivity|].
    unfold stored, logged, with_bucket. cbn [snd world remote].
    rewrite lookup_insert_eq. exact (find_key_put_blob x l).
Qed.

Lemma upload_file_checksum_witness :
  let st := demo_attached Healthy in
  let up_bad := upload_file (fun _ => "local") (fun _ => "remote")
                  "/data/new.fastq" "run3/new.fastq" [] st in
  let up_ok := upload_file (fun _ => "same") (fun _ => "same")
                 "/data/new.fastq" "run3/new.fastq" [] st in
  (fst up_bad = inl MismatchChecksumError /\
   stored (world (snd up_bad)) "fastq" "run3/new.fastq" = None) /\
  (fst up_ok = inr tt /\
   stored (world (snd up_ok)) "fastq" "run3/new.fastq"
   = Some (Blob "run3/new.fastq" body_B1 "same" [])).
Proof.
  intros st up_bad up_ok. split.
  - destruct (upload_file_checksum (fun _ => "local") (fun _ => "remote")
                "fastq" "/data/new.fastq" "run3/new.fastq" [] body_B1 demo_blobs
                st eq_refl eq_refl eq_refl eq_refl) as [Hbad _].
    destruct Hbad as [Hr Hgone]; [discriminate|].
    fold up_bad in Hr, Hgone. split; [rewrite Hr; reflexivity | exact Hgone].
  - destruct (upload_file_checksum (fun _ => "same") (fun _ => "same")
                "fastq" "/data/new.fastq" "run3/new.fastq" [] body_B1 demo_blobs
                st eq_refl eq_refl eq_refl eq_refl) as [_ Hok].
    destruct Hok as [Hr Hthere]; [reflexivity|].
    fold up_ok in Hr, Hthere. split; [rewrite Hr; reflexivity | exact Hthere].
Defined.

(** ** Reading an object *)

(** *** The decoder against the encoder *)

Lemma cont_range (b : N) : cont b = true <-> (128 <= b <= 191)%N.
Proof.
  unfold cont. rewrite andb_true_iff, !N.leb_le. tauto.
Qed.

Lemma second_ok_range (b0 b1 : N) :
  second_ok b0 b1 = true <->
  (128 <= b1 <= 191 /\ (b0 = 224 -> 160 <= b1) /\ (b0 = 237 -> b1 <= 159) /\
   (b0 = 240 -> 144 <= b1) /\ (b0 = 244 -> b1 <= 143))%N.
Proof.
  unfold second_ok.
  destruct (N.eqb_spec b0 224) as [->|H1].
  { rewrite andb_true_iff, !N.leb_le. lia. }
  destruct (N.eqb_spec b0 237) as [->|H2].
  { rewrite andb_true_iff, !N.leb_le. lia. }
  destruct (N.eqb_spec b0 240) as [->|H3].
  { rewrite andb_true_iff, !N.leb_le. lia. }
  destruct (N.eqb_spec b0 244) as [->|H4].
  { rewrite andb_true_iff, !N.leb_le. lia. }
  rewrite cont_range. lia.
Qed.

Lemma scalar_range (c : N) :
  scalar c = true <-> (c < 55296 \/ 57344 <= c <= 1114111)%N.
Proof.
  unfold scalar. rewrite orb_true_iff, andb_true_iff, N.ltb_lt, !N.leb_le.
  tauto.
Qed.

Lemma encode_cp1 (b0 : N) :
  (b0 < 128)%N -> scalar b0 = true /\ encode_cp b0 = [b0].
Proof.
  intros Hb0. split.
  - apply scalar_range. lia.
  - unfold encode_cp. apply N.ltb_lt in Hb0. rewrite Hb0. reflexivity.
Qed.

Lemma encode_cp2 (b0 b1 : N) :
  (194 <= b0 <= 223)%N -> cont b1 = true ->
  scalar (cp2 b0 b1) = true /\ encode_cp (cp2 b0 b1) = [b0; b1].
Proof.
  intros Hb0 Hb1. apply cont_range in Hb1.
  assert (Hc : cp2 b0 b1 = ((b0 - 192) * 64 + (b1 - 128))%N) by reflexivity.
  set (c := cp2 b0 b1) in *.
  assert (Hr : (128 <= c < 2048)%N) by lia.
  split; [apply scalar_range; lia|].
  unfold encode_cp.
  replace (c <? 128)%N with false by (symmetry; apply N.ltb_ge; lia).
  replace (c <? 2048)%N with true by (symmetry; apply N.ltb_lt; lia).
  assert (H64 : (c / 64 = b0 - 192 /\ c mod 64 = b1 - 128)%N).
  { split; [symmetry; apply (N.div_unique c 64 _ (b1 - 128)%N)
           | symmetry; apply (N.mod_unique c 64 (b0 - 192)%N)]; lia. }
  destruct H64 as [-> ->]. f_equal; [|f_equal]; lia.
Qed.

Lemma encode_cp3 (b0 b1 b2 : N) :
  (224 <= b0 <= 239)%N -> second_ok b0 b1 = true -> cont b2 = true ->
  scalar (cp3 b0 b1 b2) = true /\ encode_cp (cp3 b0 b1 b2) = [b0; b1; b2].
Proof.
  intros Hb0 Hb1 Hb2. apply cont_range in Hb2. apply second_ok_range in Hb1.
  destruct Hb1 as (Hb1 & Hlow & Hsur & _).
  assert (Hc : cp3 b0 b1 b2
               = (((b0 - 224) * 64 + (b1 - 128)) * 64 + (b2 - 128))%N)
    by (unfold cp3; lia).
  set (c := cp3 b0 b1 b2) in *.
  assert (Hr : (2048 <= c < 65536 /\ (c < 55296 \/ 57344 <= c))%N) by lia.
  split; [apply scalar_range; lia|].
  unfold encode_cp.
  replace (c <? 128)%N with false by (symmetry; apply N.ltb_ge; lia).
  replace (c <? 2048)%N with false by (symmetry; apply N.ltb_ge; lia).
  replace (c <? 65536)%N with true by (symmetry; apply N.ltb_lt; lia).
  assert (H1 : (c / 64 = (b0 - 224) * 64 + (b1 - 128))%N)
    by (symmetry; apply (N.div_unique c 64 _ (b2 - 128)%N); lia).
  assert (H2 : (c mod 64 = b2 - 128)%N)
    by (symmetry;
        apply (N.mod_unique c 64 ((b0 - 224) * 64 + (b1 - 128))%N); lia).
  assert (H3 : (c / 4096 = b0 - 224)%N).
  { change 4096%N with (64 * 64)%N. rewrite <- N.Div0.div_div, H1.
    symmetry. apply (N.div_unique _ 64 _ (b1 - 128)%N); lia. }
  assert (H4 : ((c / 64) mod 64 = b1 - 128)%N)
    by (rewrite H1; symmetry; apply (N.mod_unique _ 64 (b0 - 224)%N); lia).
  rewrite H2, H3, H4. f_equal; [|f_equal; [|f_equal]]; lia.
Qed.

Lemma encode_cp4 (b0 b1 b2 b3 : N) :
  (240 <= b0 <= 244)%N -> second_ok b0 b1 = true -> cont b2 = true ->
  cont b3 = true ->
  scalar (cp4 b0 b1 b2 b3) = true /\
  encode_cp (cp4 b0 b1 b2 b3) = [b0; b1; b2; b3].
Proof.
  intros Hb0 Hb1 Hb2 Hb3. apply cont_range in Hb2, Hb3.
  apply second_ok_range in Hb1. destruct Hb1 as (Hb1 & _ & _ & Hlow & Hhigh).
  assert (Hc : cp4 b0 b1 b2 b3
               = ((((b0 - 240) * 64 + (b1 - 128)) * 64 + (b2 - 128)) * 64
                  + (b3 - 128))%N)
    by (unfold cp4; lia).
  set (c := cp4 b0 b1 b2 b3) in *.
  assert (Hr : (65536 <= c <= 1114111)%N) by lia.
  split; [apply scalar_range; lia|].
  unfold encode_cp.
  replace (c <? 128)%N with false by (symmetry; apply N.ltb_ge; lia).
  replace (c <? 2048)%N with false by (symmetry; apply N.ltb_ge; lia).
  replace (c <? 65536)%N with false by (symmetry; apply N.ltb_ge; lia).
  assert (H1 : (c / 64 = ((b0 - 240) * 64 + (b1 - 128)) * 64 + (b2 - 128))%N)
    by (symmetry; apply (N.div_unique c 64 _ (b3 - 128)%N); lia).
  assert (H2 : (c mod 64 = b3 - 128)%N)
    by (symmetry;
        apply (N.mod_unique c 64
                 (((b0 - 240) * 64 + (b1 - 128)) * 64 + (b2 - 128))%N); lia).
  assert (H3 : (c / 4096 = (b0 - 240) * 64 + (b1 - 128))%N).
  { change 4096%N with (64 * 64)%N. rewrite <- N.Div0.div_div, H1.
    symmetry. apply (N.div_unique _ 64 _ (b2 - 128)%N); lia. }
  assert (H4 : ((c / 64) mod 64 = b2 - 128)%N)
    by (rewrite H1; symmetry;
        apply (N.mod_unique _ 64 ((b0 - 240) * 64 + (b1 - 128))%N); lia).
  assert (H5 : (c / 262144 = b0 - 240)%N).
  { change 262144%N with (4096 * 64)%N. rewrite <- N.Div0.div_div, H3.
    symmetry. apply (N.div_unique _ 64 _ (b1 - 128)%N); lia. }
  assert (H6 : ((c / 4096) mod 64 = b1 - 128)%N)
    by (rewrite H3; symmetry; apply (N.mod_unique _ 64 (b0 - 240)%N); lia).
  rewrite H2, H4, H5, H6. f_equal; [|f_equal; [|f_equal; [|f_equal]]]; lia.
Qed.

(** Every text the decoder returns is a sequence of scalar values
    whose encoding is the input. *)
Lemma decode_from_sound (fuel : nat) :
  forall (bs : list N) (t : text),
    decode_from fuel bs = Some t ->
    Forall (fun c => scalar c = true) t /\ bs = encode_utf8 t.
Proof.
  induction fuel as [|fuel IH]; intros bs t.
  - destruct bs; [|discriminate]. intros [= <-]. split; [constructor|reflexivity].
  - cbn [decode_from]. destruct bs as [|b0 r0].
    { intros [= <-]. split; [constructor|reflexivity]. }
    destruct (b0 <? 128)%N eqn:H1.
    { destruct (decode_from fuel r0) as [t'|] eqn:Hd; [|discriminate].
      intros [= <-]. destruct (IH _ _ Hd) as [Hall ->].
      apply N.ltb_lt in H1. destruct (encode_cp1 b0 H1) as [Hs He].
      split; [constructor; assumption|].
      cbn [encode_utf8 flat_map]. rewrite He. reflexivity. }
    destruct ((194 <=? b0) && (b0 <=? 223))%N%bool eqn:H2.
    { destruct r0 as [|b1 r1]; [discriminate|].
      destruct (cont b1) eqn:Hc1; [|discriminate].
      destruct (decode_from fuel r1) as [t'|] eqn:Hd; [|discriminate].
      intros [= <-]. destruct (IH _ _ Hd) as [Hall ->].
      apply andb_prop in H2. destruct H2 as [Hlo Hhi].
      apply N.leb_le in Hlo, Hhi.
      destruct (encode_cp2 b0 b1) as [Hs He]; [lia|assumption|].
      split; [constructor; assumption|].
      cbn [encode_utf8 flat_map]. rewrite He. reflexivity. }
    destruct ((224 <=? b0) && (b0 <=? 239))%N%bool eqn:H3.
    { destruct r0 as [|b1 [|b2 r2]]; try discriminate.
      destruct (second_ok b0 b1 && cont b2)%bool eqn:Hc; [|discriminate].
      destruct (decode_from fuel r2) as [t'|] eqn:Hd; [|discriminate].
      intros [= <-]. destruct (IH _ _ Hd) as [Hall ->].
      apply andb_prop in Hc. destruct Hc as [Hc1 Hc2].
      apply andb_prop in H3. destruct H3 as [Hlo Hhi].
      apply N.leb_le in Hlo, Hhi.
      destruct (encode_cp3 b0 b1 b2) as [Hs He]; [lia|assumption..|].
      split; [constructor; assumption|].
      cbn [encode_utf8 flat_map]. rewrite He. reflexivity. }
    destruct ((240 <=? b0) && (b0 <=? 244))%N%bool eqn:H4; [|discriminate].
    destruct r0 as [|b1 [|b2 [|b3 r3]]]; try discriminate.
    destruct (second_ok b0 b1 && cont b2 && cont b3)%bool eqn:Hc; [|discriminate].
    destruct (decode_from fuel r3) as [t'|] eqn:Hd; [|discriminate].
    intros [= <-]. destruct (IH _ _ Hd) as [Hall ->].
    apply andb_prop in Hc. destruct Hc as [Hc Hc3].
    apply andb_prop in Hc. destruct Hc as [Hc1 Hc2].
    apply andb_prop in H4. destruct H4 as [Hlo Hhi].
    apply N.leb_le in Hlo, Hhi.
    destruct (encode_cp4 b0 b1 b2 b3) as [Hs He]; [lia|assumption..|].
    split; [constructor; assumption|].
    cbn [encode_utf8 flat_map]. rewrite He. reflexivity.
Qed.

Lemma split64 (c : N) : (c = 64 * (c / 64) + c mod 64 /\ c mod 64 < 64)%N.
Proof.
  split; [apply N.div_mod; discriminate | apply N.mod_lt; discriminate].
Qed.

Ltac is_false := symmetry; first
  [ apply N.ltb_ge; lia
  | apply andb_false_iff; right; apply N.leb_gt; lia
  | apply andb_false_iff; left; apply N.leb_gt; lia ].

Ltac is_true := symmetry; first
  [ apply N.ltb_lt; lia
  | apply andb_true_iff; split; apply N.leb_le; lia
  | apply cont_range; lia
  | apply second_ok_range; lia ].

(** The decoder reads the encoding of one scalar value back. *)
Lemma decode_from_encode_cp (c : N) (fuel : nat) (rest : list N) :
  scalar c = true ->
  decode_from (S fuel) (encode_cp c ++ rest) = cons c <$> decode_from fuel rest.
Proof.
  intros Hs. apply scalar_range in Hs. unfold encode_cp.
  destruct (split64 c) as [Hc Hr1].
  destruct (split64 (c / 64)) as [Hq1 Hr2].
  destruct (split64 (c / 64 / 64)) as [Hq2 Hr3].
  replace (c / 4096)%N with (c / 64 / 64)%N by apply N.Div0.div_div.
  replace (c / 262144)%N with (c / 64 / 64 / 64)%N
    by (rewrite !N.Div0.div_div; reflexivity).
  set (q1 := (c / 64)%N) in *. set (r1 := (c mod 64)%N) in *.
  set (q2 := (q1 / 64)%N) in *. set (r2 := (q1 mod 64)%N) in *.
  set (q3 := (q2 / 64)%N) in *. set (r3 := (q2 mod 64)%N) in *.
  clearbody q1 r1 q2 r2 q3 r3.
  destruct (N.ltb_spec c 128) as [H1|H1].
  { cbn [app decode_from].
    replace (c <? 128)%N with true by is_true. reflexivity. }
  destruct (N.ltb_spec c 2048) as [H2|H2].
  { cbn [app decode_from].
    replace (192 + q1 <? 128)%N with false by is_false.
    replace ((194 <=? 192 + q1) && (192 + q1 <=? 223))%N%bool with true
      by is_true.
    replace (cont (128 + r1)) with true by is_true.
    replace (cp2 (192 + q1) (128 + r1)) with c by (unfold cp2; lia).
    reflexivity. }
  destruct (N.ltb_spec c 65536) as [H3|H3].
  { cbn [app decode_from].
    replace (224 + q2 <? 128)%N with false by is_false.
    replace ((194 <=? 224 + q2) && (224 + q2 <=? 223))%N%bool with false
      by is_false.
    replace ((224 <=? 224 + q2) && (224 + q2 <=? 239))%N%bool with true
      by is_true.
    replace (second_ok (224 + q2) (128 + r2)) with true by is_true.
    replace (cont (128 + r1)) with true by is_true.
    replace (cp3 (224 + q2) (128 + r2) (128 + r1)) with c
      by (unfold cp3; lia).
    reflexivity. }
  cbn [app decode_from].
  replace (240 + q3 <? 128)%N with false by is_false.
  replace ((194 <=? 240 + q3) && (240 + q3 <=? 223))%N%bool with false
    by is_false.
  replace ((224 <=? 240 + q3) && (240 + q3 <=? 239))%N%bool with false
    by is_false.
  replace ((240 <=? 240 + q3) && (240 + q3 <=? 244))%N%bool with true
    by is_true.
  replace (second_ok (240 + q3) (128 + r3)) with true by is_true.
  replace (cont (128 + r2)) with true by is_true.
  replace (cont (128 + r1)) with true by is_true.
  replace (cp4 (240 + q3) (128 + r3) (128 + r2) (128 + r1)) with c
    by (unfold cp4; lia).
  reflexivity.
Qed.

Lemma encode_cp_length (c : N) : (1 <= length (encode_cp c))%nat.
Proof.
  unfold encode_cp.
  destruct (c <? 128)%N; [cbn [length]; lia|].
  destruct (c <? 2048)%N; [cbn [length]; lia|].
  destruct (c <? 65536)%N; cbn [length]; lia.
Qed.

(** The decoder reads the encoding of every sequence of scalar values
    back, given as much fuel as there are bytes. *)
Lemma decode_from_complete (t : text) :
  forall fuel : nat,
    Forall (fun c => scalar c = true) t ->
    (length (encode_utf8 t) <= fuel)%nat ->
    decode_from fuel (encode_utf8 t) = Some t.
Proof.
  induction t as [|c t IH]; intros fuel Hall Hfuel.
  - destruct fuel; reflexivity.
  - apply List.Forall_cons_iff in Hall as [Hc Hall].
    cbn [encode_utf8 flat_map] in *. rewrite length_app in Hfuel.
    pose proof (encode_cp_length c) as Hlen.
    destruct fuel as [|fuel]; [lia|].
    rewrite (decode_from_encode_cp c fuel _ Hc).
    fold (encode_utf8 t). rewrite (IH fuel Hall) by (unfold encode_utf8; lia).
    reflexivity.
Qed.

(** [bytes.decode('utf-8')] is the inverse of [str.encode('utf-8')]:
    it returns a text exactly for the bytes that encode one. *)
Lemma decode_utf8_spec (body : list Byte.byte) (t : text) :
  decode_utf8 body = Some t <->
  Forall (fun c => scalar c = true) t /\ map Byte.to_N body = encode_utf8 t.
Proof.
  unfold decode_utf8. split.
  - apply decode_from_sound.
  - intros [Hall He]. rewrite He. apply decode_from_complete; [exact Hall|].
    rewrite <- He, length_map. lia.
Qed.

Lemma read_object_run (b : string) (o : Object) (h : head) (st st1 : State) :
  bucket (self st) = Some b ->
  loaded o st = (inr h, st1) ->
  read_object (VObject o) st
  = if Z.ltb (content_length h) 100000 then
      (body <- get_body (o_bucket_name o) (o_key o);;
       match decode_utf8 body with
       | Some s => ret s
       | None => raise UnicodeDecodeError
       end) st1
    else (inr [], st1).
Proof.
  intros Hb Hl. unfold read_object. rewrite (bucketcheck_attached _ _ b Hb).
  unfold attr_content_length. unfold bind at 1, bind at 1. rewrite Hl.
  unfold ret at 1. destruct (Z.ltb (content_length h) 100000); reflexivity.
Qed.

Lemma read_object_small (b : string) (o : Object) (h : head) (st st1 : State)
    (x : blob) :
  bucket (self st) = Some b ->
  loaded o st = (inr h, st1) ->
  content_length h < 100000 ->
  status (world st1) = Healthy ->
  stored (world st1) (o_bucket_name o) (o_key o) = Some x ->
  read_object (VObject o) st
  = (match decode_utf8 (b_body x) with
     | Some s => inr s
     | None => inl UnicodeDecodeError
     end,
     after st1 [GetObject (o_bucket_name o) (o_key o)]).
Proof.
  intros Hb Hl Hlt Hs Hx.
  rewrite (read_object_run b o h st st1 Hb Hl).
  apply Z.ltb_lt in Hlt. rewrite Hlt.
  rewrite (bind_inr _ _ _ _ _ (get_body_run _ _ x st1 Hs Hx)).
  destruct (decode_utf8 (b_body x)); reflexivity.
Qed.

(** C9, amended.  [read_object] on an attached bucket.

    For an [s3.Object] descriptor whose content length is
    [content_length h] (read from the descriptor, or fetched by a
    HeadObject request if the descriptor was not loaded): strictly
    below 100000 the body is fetched by one GetObject request and the
    result is its UTF-8 decoding, that is the text [t] whose UTF-8
    encoding the body is, or [UnicodeDecodeError] when the body is
    the encoding of no text.  From 100000 on, nothing more is
    requested and the result is the empty string, which is also what
    an object with an empty body gives.

    For every other descriptor, the [s3.ObjectSummary] values of the
    listing among them, the call raises [AttributeError] at
    [obj.content_length] and requests nothing. *)
Theorem read_object_threshold (b : string) (o : Object) (h : head)
    (st st1 : State) :
  bucket (self st) = Some b ->
  loaded o st = (inr h, st1) ->
  (content_length h < 100000 ->
   forall x,
     status (world st1) = Healthy ->
     stored (world st1) (o_bucket_name o) (o_key o) = Some x ->
     read_object (VObject o) st
     = (match decode_utf8 (b_body x) with
        | Some s => inr s
        | None => inl UnicodeDecodeError
        end,
        after st1 [GetObject (o_bucket_name o) (o_key o)]) /\
     (forall t,
        fst (read_object (VObject o) st) = inr t <->
        Forall (fun c => scalar c = true) t /\
        map Byte.to_N (b_body x) = encode_utf8 t) /\
     ((forall t, fst (read_object (VObject o) st) <> inr t) ->
      fst (read_object (VObject o) st) = inl UnicodeDecodeError)) /\
  (100000 <= content_length h ->
   read_object (VObject o) st = (inr [], st1) /\
   forall b' o' h' st' st1' x,
     bucket (self st') = Some b' ->
     loaded o' st' = (inr h', st1') ->
     content_length h' < 100000 ->
     status (world st1') = Healthy ->
     stored (world st1') (o_bucket_name o') (o_key o') = Some x ->
     b_body x = [] ->
     fst (read_object (VObject o') st') = fst (read_object (VObject o) st)) /\
  (forall obj,
     (forall o', obj <> VObject o') ->
     read_object obj st = (inl (AttributeError "content_length"), st)).
Proof.
  intros Hb Hl. split; [|split].
  - intros Hlt x Hs Hx.
    pose proof (read_object_small b o h st st1 x Hb Hl Hlt Hs Hx) as Hrun.
    split; [exact Hrun|]. rewrite Hrun. cbn [fst].
    pose proof (decode_utf8_spec (b_body x)) as Hspec.
    destruct (decode_utf8 (b_body x)) as [s|].
    + split.
      * intros t. rewrite <- Hspec. split; intros [= ->]; reflexivity.
      * intros Hnone. destruct (Hnone s eq_refl).
    + split; [|reflexivity].
      intros t. rewrite <- Hspec. split; discriminate.
  - intros Hge.
    assert (Hbig : read_object (VObject o) st = (inr [], st1)).
    { rewrite (read_object_run b o h st st1 Hb Hl).
      apply Z.ltb_ge in Hge. rewrite Hge. reflexivity. }
    split; [exact Hbig|].
    intros b' o' h' st' st1' x Hb' Hl' Hlt Hs Hx Hempty.
    rewrite (read_object_small b' o' h' st' st1' x Hb' Hl' Hlt Hs Hx), Hbig,
      Hempty.
    reflexivity.
  - intros obj Hobj. unfold read_object.
    rewrite (bucketcheck_attached _ _ b Hb).
    destruct obj as [| | | |o']; try reflexivity.
    destruct (Hobj o' eq_refl).
Qed.

Lemma read_object_threshold_witness :
  let st := demo_attached Healthy in
  let small := MkObject "fastq" "run1/sampleA.fastq" (Some (Head 3 "e-a1" [])) in
  let empty := MkObject "fastq" "run2/sampleA.fastq" (Some (Head 0 "e-a2" [])) in
  let big := MkObject "fastq" "run1/sampleB.fastq" (Some (Head 100000 "e-b1" [])) in
  read_object (VObject small) st
  = (inr [64%N; 114%N; 49%N],
     after st [GetObject "fastq" "run1/sampleA.fastq"]) /\
  read_object (VObject big) st = (inr [], st) /\
  fst (read_object (VObject empty) st) = fst (read_object (VObject big) st) /\
  read_object (VStr "run1/sampleA.fastq") st
  = (inl (AttributeError "content_length"), st).
Proof.
  intros st small empty big. split; [|split; [|split]].
  - destruct (read_object_threshold "fastq" small (Head 3 "e-a1" []) st st
                eq_refl eq_refl) as [Hsmall _].
    destruct (Hsmall eq_refl (Blob "run1/sampleA.fastq" body_A1 "e-a1" [])
                eq_refl eq_refl) as [H _].
    exact H.
  - destruct (read_object_threshold "fastq" big (Head 100000 "e-b1" []) st st
                eq_refl eq_refl) as (_ & Hbig & _).
    destruct Hbig as [H _]; [discriminate | exact H].
  - destruct (read_object_threshold "fastq" big (Head 100000 "e-b1" []) st st
                eq_refl eq_refl) as (_ & Hbig & _).
    destruct Hbig as [_ H]; [discriminate|].
    exact (H "fastq" empty (Head 0 "e-a2" []) st st
             (Blob "run2/sampleA.fastq" body_A2 "e-a2" [])
             eq_refl eq_refl eq_refl eq_refl eq_refl eq_refl).
  - destruct (read_object_threshold "fastq" big (Head 100000 "e-b1" []) st st
                eq_refl eq_refl) as (_ & _ & Hother).
    apply Hother. intros o'. discriminate.
Defined.

(** C9, as stated, fails: a descriptor that [search_objects] hands out
    for an object of three bytes, which are the UTF-8 encoding of a
    text, is passed to [read_object] on the attached bucket; the call
    raises [AttributeError] and fetches nothing, instead of returning
    the decoded body. *)
Lemma read_object_listed_descriptor_raises :
  let st := demo_cached in
  let s := MkSummary "fastq" "run1/sampleA.fastq" 3 "e-a1" in
  fst (search_objects "run1/sampleA" st) = inr [s] /\
  os_size s < 100000 /\
  stored (world st) "fastq" (os_key s)
  = Some (Blob "run1/sampleA.fastq" body_A1 "e-a1" []) /\
  decode_utf8 body_A1 = Some [64%N; 114%N; 49%N] /\
  read_object (VSummary s) st = (inl (AttributeError "content_length"), st) /\
  ~ (exists t, fst (read_object (VSummary s) st) = inr t).
Proof.
  repeat split; try reflexivity.
  intros [t H]. discriminate H.
Qed.

(** ** The constructor of the progress bar *)

(** C7 on the code.  A source that is neither a [str], nor has
    [size], nor has [content_length] (here [None] or an [int]) makes
    the constructor raise [AttributeError] for [source], the
    attribute read to build the message; and whatever the source, the
    constructor does not raise [UnknownSourceTypeError]. *)
Theorem ProgressPercentage_unknown_source (st : State) :
  ProgressPercentage__init__ VNone st = (inl (AttributeError "source"), st) /\
  (forall z,
     ProgressPercentage__init__ (VInt z) st = (inl (AttributeError "source"), st)) /\
  (forall source,
     fst (ProgressPercentage__init__ source st) <> inl UnknownSourceTypeError).
Proof.
  split; [reflexivity|]. split; [reflexivity|].
  intros source. destruct source as [| p | z | s | [bn k [h|]]];
    try discriminate.
  - unfold ProgressPercentage__init__, os_path_getsize, time_time. run.
    destruct (fs (world st) !! p) as [[c|sz]|]; discriminate.
  - unfold ProgressPercentage__init__, loaded, load, time_time. run.
    rewrite head_object_run.
    destruct (status (world st)); try discriminate.
    destruct (stored (world st) bn k); discriminate.
Qed.

(** ** The smoothed speed *)

Lemma calculate_speed_within (now : Q) (self : ProgressPercentage) :
  _interval self = 1%Q ->
  (now - _previous_time self <= 1)%Q ->
  _calculate_speed now self = (self, _speed self).
Proof.
  intros Hi Hle. unfold _calculate_speed. rewrite Hi.
  destruct (Qlt_le_dec (_previous_time self) (now - 1)) as [Hlt|_];
    [lra | reflexivity].
Qed.

Lemma calculate_speed_beyond (now : Q) (self : ProgressPercentage) :
  _interval self = 1%Q ->
  (1 < now - _previous_time self)%Q ->
  let speed :=
    round2 (inject_Z (_seen_so_far self - _previous_bytesize self)
            / (now - _previous_time self) / inject_Z (1024 ^ 2))%Q in
  _calculate_speed now self
  = (MkProgress (_source self) (_size self) (_seen_so_far self) now
       (_seen_so_far self) 1 speed, speed).
Proof.
  intros Hi Hlt speed. unfold _calculate_speed. rewrite Hi.
  destruct (Qlt_le_dec (_previous_time self) (now - 1)) as [_|Hle];
    [reflexivity | lra].
Qed.

(** The instance with the bytes of one call added. *)
Lemma call_state (now : Q) (bytes_amount : Z) (self : ProgressPercentage) :
  fst (__call__ now bytes_amount self)
  = fst (_calculate_speed now
           (MkProgress (_source self) (_size self)
              (_seen_so_far self + bytes_amount) (_previous_time self)
              (_previous_bytesize self) (_interval self) (_speed self))).
Proof.
  unfold __call__.
  destruct (_calculate_speed now _) as [self' speed]. cbn [fst].
  destruct (Z.eqb (_size self') 0); reflexivity.
Qed.

Lemma call_within (now : Q) (bytes_amount : Z) (self : ProgressPercentage) :
  _interval self = 1%Q ->
  (now - _previous_time self <= 1)%Q ->
  __call__ now bytes_amount self
  = let self' := MkProgress (_source self) (_size self)
                   (_seen_so_far self + bytes_amount) (_previous_time self)
                   (_previous_bytesize self) 1 (_speed self) in
    (self',
     if Z.eqb (_size self) 0 then inl ZeroDivisionError
     else inr (MkLine (_source self) (_seen_so_far self + bytes_amount)
                 (_size self) (_speed self)
                 (inject_Z (_seen_so_far self + bytes_amount)
                  / inject_Z (_size self) * 100)%Q)).
Proof.
  intros Hi Hle. unfold __call__.
  rewrite calculate_speed_within by (cbn; assumption).
  cbn [_size _source _seen_so_far _speed]. rewrite Hi.
  destruct (Z.eqb (_size self) 0); reflexivity.
Qed.

Lemma call_interval (now : Q) (bytes_amount : Z) (self : ProgressPercentage) :
  _interval (fst (__call__ now bytes_amount self)) = _interval self.
Proof.
  rewrite call_state. unfold _calculate_speed.
  destruct (Qlt_le_dec _ _); reflexivity.
Qed.

Lemma call_previous_time (now : Q) (bytes_amount : Z) (self : ProgressPercentage) :
  _interval self = 1%Q ->
  ((1 < now - _previous_time self)%Q /\
   _previous_time (fst (__call__ now bytes_amount self)) = now) \/
  ((now - _previous_time self <= 1)%Q /\
   _previous_time (fst (__call__ now bytes_amount self)) = _previous_time self).
Proof.
  intros Hi. rewrite call_state. unfold _calculate_speed.
  cbn [_previous_time _interval]. rewrite Hi.
  destruct (Qlt_le_dec (_previous_time self) (now - 1)) as [Hlt|Hle].
  - left. split; [lra | reflexivity].
  - right. split; [lra | reflexivity].
Qed.

Lemma speed_updates_spaced (calls : list (Q * Z)) (self : ProgressPercentage) :
  _interval self = 1%Q ->
  spaced (_previous_time self) (speed_updates calls self).
Proof.
  revert self. induction calls as [|[now n] calls IH]; intros self Hi.
  - exact I.
  - cbn [speed_updates].
    pose proof (call_interval now n self) as Hi'. rewrite Hi in Hi'.
    specialize (IH _ Hi').
    destruct (call_previous_time now n self Hi) as [[Hlt Hp]|[Hle Hp]];
      rewrite Hp in *.
    + destruct (Qeq_bool now (_previous_time self)) eqn:E.
      * apply Qeq_bool_iff in E. lra.
      * split; [lra | exact IH].
    + rewrite Qeq_bool_refl. exact IH.
Qed.

Lemma speed_updates_among (calls : list (Q * Z)) (self : ProgressPercentage)
    (t : Q) :
  In t (speed_updates calls self) -> In t (map fst calls).
Proof.
  revert self. induction calls as [|[now n] calls IH]; intros self; [tauto|].
  cbn [speed_updates map fst].
  destruct (Qeq_bool _ _); [right; eauto|].
  intros [<-|H]; [left; reflexivity | right; eauto].
Qed.

Lemma spaced_window (a prev : Q) (l : list Q) :
  spaced prev l ->
  (forall t, In t l -> (a <= t <= a + 1)%Q) ->
  (length l <= 1)%nat.
Proof.
  destruct l as [|t1 [|t2 l]]; cbn [length]; try lia.
  intros (_ & H12 & _) Hin.
  pose proof (Hin t1 (or_introl eq_refl)).
  pose proof (Hin t2 (or_intror (or_introl eq_refl))).
  lra.
Qed.

(** C6. For a progress bar (its interval is 1 second) and every
    sequence of calls, each with the reading of the clock at that
    call.  A call at most one second after the sample baseline
    leaves the baseline and the speed as they are and writes the
    speed computed before; a call more than one second after it
    recomputes the speed and moves the baseline to that call.  So
    the calls that recompute are each more than one second after the
    previous one, and calls whose readings all lie within one second
    recompute at most once, however many they are. *)
Theorem speed_recomputed_once_per_interval (self : ProgressPercentage) :
  _interval self = 1%Q ->
  (forall now bytes_amount,
     (now - _previous_time self <= 1)%Q ->
     let self' := fst (__call__ now bytes_amount self) in
     _calculate_speed now self = (self, _speed self) /\
     _speed self' = _speed self /\
     _previous_time self' = _previous_time self /\
     _previous_bytesize self' = _previous_bytesize self /\
     (forall line, snd (__call__ now bytes_amount self) = inr line ->
                   l_speed line = _speed self)) /\
  (forall now,
     (1 < now - _previous_time self)%Q ->
     let speed :=
       round2 (inject_Z (_seen_so_far self - _previous_bytesize self)
               / (now - _previous_time self) / inject_Z (1024 ^ 2))%Q in
     _calculate_speed now self
     = (MkProgress (_source self) (_size self) (_seen_so_far self) now
          (_seen_so_far self) 1 speed, speed)) /\
  (forall calls, spaced (_previous_time self) (speed_updates calls self)) /\
  (forall calls a,
     (forall t, In t (map fst calls) -> (a <= t <= a + 1)%Q) ->
     (length (speed_updates calls self) <= 1)%nat).
Proof.
  intros Hi. split; [|split; [|split]].
  - intros now n Hle self'. split; [exact (calculate_speed_within now self Hi Hle)|].
    subst self'. rewrite (call_within now n self Hi Hle). cbn [fst snd].
    repeat split; try reflexivity.
    intros line. destruct (Z.eqb (_size self) 0); [discriminate|].
    intros [= <-]. reflexivity.
  - intros now Hlt. exact (calculate_speed_beyond now self Hi Hlt).
  - intros calls. exact (speed_updates_spaced calls self Hi).
  - intros calls a Hwin.
    apply (spaced_window a (_previous_time self)).
    + exact (speed_updates_spaced calls self Hi).
    + intros t Ht. apply Hwin. exact (speed_updates_among calls self t Ht).
Qed.

Lemma speed_recomputed_once_per_interval_witness :
  let bar := new_progress (VStr "/data/new.fastq") 4194304 0 in
  let burst := [((3 # 10)%Q, 1000); ((1 # 2)%Q, 1000); ((6 # 5)%Q, 1000);
                ((13 # 10)%Q, 1000)] in
  snd (_calculate_speed (1 # 2) bar) = 0%Q /\
  (length (speed_updates burst bar) <= 1)%nat /\
  spaced 0 (speed_updates burst bar).
Proof.
  intros bar burst.
  destruct (speed_recomputed_once_per_interval bar eq_refl)
    as (Hwithin & _ & Hspaced & Hwindow).
  split; [|split].
  - destruct (Hwithin (1 # 2)%Q 0) as [H _]; [vm_compute; discriminate|].
    rewrite H. reflexivity.
  - apply (Hwindow burst (3 # 10)%Q).
    intros t [<-|[<-|[<-|[<-|[]]]]]; split; vm_compute; discriminate.
  - exact (Hspaced burst).
Defined.

(** ** The model on small inputs *)

Example speed_updates_burst :
  speed_updates [((3 # 10)%Q, 1000); ((1 # 2)%Q, 1000); ((6 # 5)%Q, 1000);
                 ((13 # 10)%Q, 1000); ((5 # 2)%Q, 1000)]
    (new_progress (VStr "/data/new.fastq") 4194304 0)
  = [6 # 5; 5 # 2]%Q.
Proof. reflexivity. Qed.

Example speed_after_two_seconds :
  snd (_calculate_speed 2
         (MkProgress (VStr "/data/new.fastq") 4194304 2097152 0 0 1 0))
  = (100 # 100)%Q.
Proof. reflexivity. Qed.

Example round2_tie_to_even : round2 (1 # 8) = (12 # 100)%Q.
Proof. reflexivity. Qed.

Example round2_tie_to_even_up : round2 (3 # 8) = (38 # 100)%Q.
Proof. reflexivity. Qed.

Example call_on_empty_file :
  snd (__call__ (1 # 2) 0 (new_progress (VStr "/data/empty") 0 0))
  = inl ZeroDivisionError.
Proof. reflexivity. Qed.

Example decode_ascii : decode_utf8 [Byte.x68; Byte.x69] = Some [104%N; 105%N].
Proof. reflexivity. Qed.
Example decode_e_acute : decode_utf8 [Byte.xc3; Byte.xa9] = Some [233%N].
Proof. reflexivity. Qed.
Example decode_overlong : decode_utf8 [Byte.xc0; Byte.x80] = None.
Proof. reflexivity. Qed.
Example decode_surrogate : decode_utf8 [Byte.xed; Byte.xa0; Byte.x80] = None.
Proof. reflexivity. Qed.
Example decode_euro : decode_utf8 [Byte.xe2; Byte.x82; Byte.xac] = Some [8364%N].
Proof. reflexivity. Qed.
Example decode_emoji : decode_utf8 [Byte.xf0; Byte.x9f; Byte.x98; Byte.x80] = Some [128512%N].
Proof. reflexivity. Qed.
Example decode_truncated : decode_utf8 [Byte.xe2; Byte.x82] = None.
Proof. reflexivity. Qed.
Example basename_ex : basename "run1/sampleA.fastq" = "sampleA.fastq".
Proof. reflexivity. Qed.
Example basename_trailing : basename "run1/" = "".
Proof. reflexivity. Qed.
Example join_ex : join "/tmp/out" "a.fq" = "/tmp/out/a.fq".
Proof. reflexivity. Qed.
Example join_sep : join "/tmp/out/" "a.fq" = "/tmp/out/a.fq".
Proof. reflexivity. Qed.
Example contains_ex : contains "sampleA" "run2/sampleA.fastq" = true.
Proof. reflexivity. Qed.
Example contains_case : contains "samplea" "run2/sampleA.fastq" = false.
Proof. reflexivity. Qed.
Example contains_empty_string : contains "" "run1" = true.
Proof. reflexivity. Qed.
Example read_object_invalid_utf8 :
  let w := MkWorld (<["fastq" := [Blob "bad.bin" body_bad "e-bad" []]]> ∅)
             Healthy ∅ 0 [] in
  fst (read_object (VObject (MkObject "fastq" "bad.bin" (Some (Head 1 "e-bad" []))))
         (MkState (MkManager (Some "fastq") None) w))
  = inl UnicodeDecodeError.
Proof. reflexivity. Qed.
Example read_object_summary :
  fst (read_object (VSummary (MkSummary "fastq" "run1/sampleA.fastq" 3 "e-a1"))
         (demo_attached Healthy))
  = inl (AttributeError "content_length").
Proof. reflexivity. Qed.
Example dirname_ex : dirname "/data/out/x.fastq" = "/data/out".
Proof. reflexivity. Qed.
Example dirname_relative : dirname "x.fastq" = "".
Proof. reflexivity. Qed.
Example dirname_root : dirname "/x.fastq" = "/".
Proof. reflexivity. Qed.
Example dirname_slashes : dirname "/data//x.fastq" = "/data".
Proof. reflexivity. Qed.
Example download_into_missing_directory :
  let st := demo_attached Healthy in
  let r := download_file (VStr "run1/sampleA.fastq") "/data/missing/x.fastq"
             false st in
  fst r = inl (OSError "/data/missing/x.fastq") /\
  fs (world (snd r)) = fs (world st).
Proof. split; reflexivity. Qed.
Example download_into_directory :
  let st := demo_attached Healthy in
  let r := download_file (VStr "run1/sampleB.fastq") "/data/out" false st in
  fst r = inr tt /\
  fs (world (snd r)) !! "/data/out/sampleB.fastq" = Some (File body_B1).
Proof. split; reflexivity. Qed.
Example download_stale_empty_descriptor :
  let st := demo_attached Healthy in
  let r := download_file
             (VSummary (MkSummary "fastq" "run1/sampleA.fastq" 0 "e-a1"))
             "/data/out/x.fastq" false st in
  fst r = inl ZeroDivisionError /\
  fs (world (snd r)) = fs (world st).
Proof. split; reflexivity. Qed.
Example encode_euro : encode_utf8 [8364%N] = [226%N; 130%N; 172%N].
Proof. reflexivity. Qed.
Example encode_emoji : encode_utf8 [128512%N] = [240%N; 159%N; 152%N; 128%N].
Proof. reflexivity. Qed.
Example delete_then_search :
  let st := snd (delete_object
                   (VSummary (MkSummary "fastq" "run1/sampleA.fastq" 3 "e-a1"))
                   demo_cached) in
  stored (world st) "fastq" "run1/sampleA.fastq" = None /\
  fst (search_objects "sampleA" st)
  = inr [ MkSummary "fastq" "run1/sampleA.fastq" 3 "e-a1";
          MkSummary "fastq" "run2/sampleA.fastq" 0 "e-a2" ].
Proof. split; reflexivity. Qed.

(** * More of the manager *)

(** ** What a call leaves untouched *)

Section Frames.

Context {X : Type} (view : State -> X).

Lemma keeps_view_ret {A} (a : A) : keeps view (ret a).
Proof. intros st. reflexivity. Qed.

Lemma keeps_view_raise {A} (e : exn) : keeps view (@raise A e).
Proof. intros st. reflexivity. Qed.

Lemma keeps_view_bind {A B} (m : M A) (k : A -> M B) :
  keeps view m -> (forall a, keeps view (k a)) -> keeps view (bind m k).
Proof.
  intros Hm Hk st. unfold bind. specialize (Hm st).
  destruct (m st) as [[e|a] st']; cbn [snd] in *; [exact Hm|].
  rewrite Hk. exact Hm.
Qed.

Lemma keeps_view_try_except {A} (m : M A) (handles : exn -> bool) (h : M A) :
  keeps view m -> keeps view h -> keeps view (try_except m handles h).
Proof.
  intros Hm Hh st. unfold try_except. specialize (Hm st).
  destruct (m st) as [[e|a] st']; cbn [snd] in *; [|exact Hm].
  destruct (handles e); cbn [snd]; [rewrite Hh|]; exact Hm.
Qed.

Lemma keeps_view_get_world : keeps view get_world.
Proof. intros st. reflexivity. Qed.

Lemma keeps_view_get_self : keeps view get_self.
Proof. intros st. reflexivity. Qed.

Lemma keeps_view_bucketcheck {A} (fn : M A) :
  keeps view fn -> keeps view (bucketcheck fn).
Proof.
  intros H. unfold bucketcheck. apply keeps_view_bind.
  - apply keeps_view_get_self.
  - intros s. destruct (bucket s); [exact H | apply keeps_view_raise].
Qed.

End Frames.

(** Goes through a computation, given how its writes fare. *)
Ltac frame writes :=
  repeat first
    [ progress intros
    | solve [writes]
    | apply keeps_view_bucketcheck
    | apply keeps_view_bind
    | apply keeps_view_try_except
    | apply keeps_view_ret
    | apply keeps_view_raise
    | apply keeps_view_get_world
    | apply keeps_view_get_self
    | match goal with
      | |- keeps _ (match ?x with _ => _ end) => destruct x
      | |- keeps _ (if ?x then _ else _) => destruct x
      end ].

Lemma emit_keeps_remote (ev : event) : keeps remote_of (emit ev).
Proof. intros st. reflexivity. Qed.

Lemma emit_keeps_fs (ev : event) : keeps fs_of (emit ev).
Proof. intros st. reflexivity. Qed.

Lemma set_fs_keeps_remote (f : gmap string node) : keeps remote_of (set_fs f).
Proof. intros st. reflexivity. Qed.

Lemma set_remote_keeps_fs (r : gmap string (list blob)) : keeps fs_of (set_remote r).
Proof. intros st. reflexivity. Qed.

Lemma put_self_keeps_remote (m : HCPManager) : keeps remote_of (put_self m).
Proof. intros st. reflexivity. Qed.

Lemma put_self_keeps_fs (m : HCPManager) : keeps fs_of (put_self m).
Proof. intros st. reflexivity. Qed.

Ltac frame_remote :=
  frame ltac:(first [ apply emit_keeps_remote | apply set_fs_keeps_remote
                    | apply put_self_keeps_remote ]).

Ltac frame_fs :=
  frame ltac:(first [ apply emit_keeps_fs | apply set_remote_keeps_fs
                    | apply put_self_keeps_fs ]).

Ltac unfold_all :=
  unfold get_object, get_objects, reload_objects, search_objects,
    upload_file, download_file, delete_object, read_object, attach_bucket,
    self_bucket, self_objects, hasattr_objects, set_objects,
    ProgressPercentage__init__, instance_attr, Bucket_upload_file,
    calculate_etag_of, Bucket_download_file, Bucket_delete_objects,
    Bucket_objects_all, obj_get_body, get_body, attr_content_length,
    attr_e_tag, attr_key, loaded, load, head_object, the_bucket, send,
    os_path_getsize, os_path_exists, os_path_isdir, report, time_time, print.

Lemma get_object_keeps_remote (key : string) : keeps remote_of (get_object key).
Proof. unfold_all. frame_remote. Qed.

Lemma get_objects_keeps_remote : keeps remote_of get_objects.
Proof. unfold_all. frame_remote. Qed.

Lemma reload_objects_keeps_remote : keeps remote_of reload_objects.
Proof. unfold_all. frame_remote. Qed.

Lemma search_objects_keeps_remote (str : string) :
  keeps remote_of (search_objects str).
Proof.
  unfold search_objects. frame_remote; apply get_objects_keeps_remote.
Qed.

Lemma read_object_keeps_remote (obj : value) : keeps remote_of (read_object obj).
Proof. unfold_all. frame_remote. Qed.

Lemma download_file_keeps_remote (obj : value) (local_path : string)
    (force : bool) :
  keeps remote_of (download_file obj local_path force).
Proof.
  unfold download_file. frame_remote; try apply get_object_keeps_remote;
    unfold_all; frame_remote.
Qed.

Lemma attach_bucket_keeps_world (name : string) (st : State) :
  world (snd (attach_bucket name st)) = world st.
Proof. rewrite attach_bucket_run. reflexivity. Qed.

Lemma get_object_keeps_fs (key : string) : keeps fs_of (get_object key).
Proof. unfold_all. frame_fs. Qed.

Lemma get_objects_keeps_fs : keeps fs_of get_objects.
Proof. unfold_all. frame_fs. Qed.

Lemma reload_objects_keeps_fs : keeps fs_of reload_objects.
Proof. unfold_all. frame_fs. Qed.

Lemma search_objects_keeps_fs (str : string) : keeps fs_of (search_objects str).
Proof. unfold search_objects. frame_fs; apply get_objects_keeps_fs. Qed.

Lemma read_object_keeps_fs (obj : value) : keeps fs_of (read_object obj).
Proof. unfold_all. frame_fs. Qed.

Lemma delete_object_keeps_fs (obj : value) : keeps fs_of (delete_object obj).
Proof. unfold_all. frame_fs. Qed.

Lemma upload_file_keeps_fs calculate_etag store_etag
    (local_path remote_key : string) (m : list (string * string)) :
  keeps fs_of (upload_file calculate_etag store_etag local_path remote_key m).
Proof.
  unfold upload_file.
  frame_fs; try apply get_object_keeps_fs; try apply delete_object_keeps_fs;
    unfold_all; frame_fs.
Qed.

(** X1. Of all the calls on a manager only [upload_file] and
    [delete_object] can change what the buckets hold, and only
    [download_file] can change a local file: after any other call,
    returned or raised, in any state, they are as before. *)
Theorem calls_frame calculate_etag store_etag (c : call) (st : State) :
  (writes_remote c = false ->
   remote (world (exec calculate_etag store_etag c st)) = remote (world st)) /\
  (writes_fs c = false ->
   fs (world (exec calculate_etag store_etag c st)) = fs (world st)).
Proof.
  split; intros Hw; destruct c; try discriminate Hw; cbn [exec];
    try (rewrite attach_bucket_keeps_world; reflexivity);
    first
      [ apply (get_object_keeps_remote _ st)
      | apply (get_objects_keeps_remote st)
      | apply (reload_objects_keeps_remote st)
      | apply (search_objects_keeps_remote _ st)
      | apply (download_file_keeps_remote _ _ _ st)
      | apply (read_object_keeps_remote _ st)
      | apply (get_object_keeps_fs _ st)
      | apply (get_objects_keeps_fs st)
      | apply (reload_objects_keeps_fs st)
      | apply (search_objects_keeps_fs _ st)
      | apply (upload_file_keeps_fs _ _ _ _ _ st)
      | apply (delete_object_keeps_fs _ st)
      | apply (read_object_keeps_fs _ st) ].
Qed.

Lemma calls_frame_witness :
  let st := demo_attached Healthy in
  remote (world (exec (fun _ => "") (fun _ => "")
                   (DownloadFile (VStr "run1/sampleA.fastq") "/data/out" true) st))
  = remote (world st) /\
  fs (world (exec (fun _ => "") (fun _ => "")
               (UploadFile "/data/new.fastq" "run3/new.fastq" []) st))
  = fs (world st).
Proof.
  intros st. split.
  - apply (calls_frame (fun _ => "") (fun _ => "")
             (DownloadFile (VStr "run1/sampleA.fastq") "/data/out" true) st).
    reflexivity.
  - apply (calls_frame (fun _ => "") (fun _ => "")
             (UploadFile "/data/new.fastq" "run3/new.fastq" []) st).
    reflexivity.
Defined.

(** ** Reloading the listing *)

Lemma Bucket_objects_all_run (b : string) (st : State) :
  Bucket_objects_all b st
  = (match status (world st) with
     | Healthy =>
         match remote (world st) !! b with
         | Some l => inr (map (summary_of b) l)
         | None => inl (ClientError "NoSuchBucket")
         end
     | Failing code => inl (ClientError code)
     | Unreachable => inl EndpointConnectionError
     end, after st [ListObjects b]).
Proof.
  open_state st. unfold_world. run. destruct sts; try reflexivity.
  run. destruct (rem !! b); reflexivity.
Qed.

Lemma reload_objects_run (b : string) (st : State) :
  bucket (self st) = Some b ->
  reload_objects st
  = match status (world st), remote (world st) !! b with
    | Healthy, Some l =>
        (inr (map (summary_of b) l),
         MkState (MkManager (Some b) (Some (map (summary_of b) l)))
                 (logged (world st) [ListObjects b]))
    | Healthy, None => (inl (ClientError "NoSuchBucket"), after st [ListObjects b])
    | Failing code, _ => (inl (ClientError code), after st [ListObjects b])
    | Unreachable, _ => (inl EndpointConnectionError, after st [ListObjects b])
    end.
Proof.
  intros Hb. unfold reload_objects. rewrite (bucketcheck_attached _ _ b Hb).
  step self_bucket_run. unfold bind at 1. rewrite Bucket_objects_all_run.
  destruct (status (world st)); try reflexivity.
  destruct (remote (world st) !! b); [|reflexivity].
  unfold set_objects, self_objects, after. run. rewrite Hb. reflexivity.
Qed.

(** X2. [reload_objects] on an attached bucket always sends a listing
    request, cached listing or not.  When the request succeeds the
    cache is replaced by the fresh listing, which is returned.  When
    it fails (error response, no answer, or no such bucket) the
    exception propagates and the manager is as before: a listing
    cached earlier stays cached. *)
Theorem reload_objects_spec (b : string) (st : State) :
  bucket (self st) = Some b ->
  (forall blobs,
     status (world st) = Healthy ->
     remote (world st) !! b = Some blobs ->
     reload_objects st
     = (inr (map (summary_of b) blobs),
        MkState (MkManager (Some b) (Some (map (summary_of b) blobs)))
                (logged (world st) [ListObjects b]))) /\
  (status (world st) <> Healthy \/ remote (world st) !! b = None ->
   exists e,
     reload_objects st = (inl e, after st [ListObjects b]) /\
     self (after st [ListObjects b]) = self st /\
     e = match status (world st) with
         | Healthy => ClientError "NoSuchBucket"
         | Failing code => ClientError code
         | Unreachable => EndpointConnectionError
         end).
Proof.
  intros Hb. rewrite (reload_objects_run b st Hb). split.
  - intros blobs -> ->. reflexivity.
  - intros Hfail. destruct (status (world st)) eqn:Hs.
    + destruct Hfail as [Hne| ->]; [congruence|]. eexists. eauto.
    + eexists. split; [|split]; reflexivity.
    + eexists. split; [|split]; reflexivity.
Qed.

Lemma reload_objects_spec_witness :
  fst (reload_objects demo_cached) = inr demo_summaries /\
  trace (world (snd (reload_objects demo_cached))) = [ListObjects "fastq"] /\
  let down := MkState (self demo_cached) (demo_world Unreachable) in
  fst (reload_objects down) = inl EndpointConnectionError /\
  objects (self (snd (reload_objects down))) = Some demo_summaries.
Proof.
  destruct (reload_objects_spec "fastq" demo_cached eq_refl) as [Hok _].
  rewrite (Hok demo_blobs eq_refl eq_refl).
  split; [reflexivity|]. split; [reflexivity|]. intros down.
  destruct (reload_objects_spec "fastq" down eq_refl) as [_ Hfail].
  destruct Hfail as (e & Hrun & _ & ->); [left; discriminate|].
  rewrite Hrun. split; reflexivity.
Defined.

(** ** Deleting *)

Lemma remove_keys_cons (key : string) (y : blob) (l : list blob) :
  remove_keys [key] (y :: l)
  = if String.eqb (b_key y) key then remove_keys [key] l
    else y :: remove_keys [key] l.
Proof.
  unfold remove_keys. cbn [List.filter existsb]. rewrite orb_false_r.
  destruct (String.eqb (b_key y) key); reflexivity.
Qed.

Lemma find_key_cons (key : string) (y : blob) (l : list blob) :
  find_key key (y :: l)
  = if String.eqb (b_key y) key then Some y else find_key key l.
Proof. reflexivity. Qed.

Lemma find_key_remove_other (key key' : string) (l : list blob) :
  key' <> key ->
  find_key key' (remove_keys [key] l) = find_key key' l.
Proof.
  intros Hne. induction l as [|y l IH]; [reflexivity|].
  rewrite remove_keys_cons, (find_key_cons key' y l).
  destruct (String.eqb (b_key y) key) eqn:E.
  - apply String.eqb_eq in E.
    destruct (String.eqb (b_key y) key') eqn:E'; [|exact IH].
    apply String.eqb_eq in E'. congruence.
  - rewrite find_key_cons, IH. reflexivity.
Qed.

Lemma remove_keys_absent (key : string) (l : list blob) :
  find_key key l = None -> remove_keys [key] l = l.
Proof.
  induction l as [|y l IH]; [reflexivity|].
  rewrite remove_keys_cons, find_key_cons.
  destruct (String.eqb (b_key y) key); [discriminate|].
  intros H. rewrite (IH H). reflexivity.
Qed.

(** X3. [delete_object] on an attached bucket whose service answers:
    one DeleteObjects request naming the key of the descriptor.
    Afterwards the bucket holds nothing under that key and holds
    under every other key what it held before; the other buckets,
    the local files and the manager (its cached listing included)
    are as before. *)
Theorem delete_object_removes (b key : string) (obj : value) (l : list blob)
    (st : State) :
  bucket (self st) = Some b ->
  key_of obj = Some key ->
  status (world st) = Healthy ->
  remote (world st) !! b = Some l ->
  let st' := snd (delete_object obj st) in
  fst (delete_object obj st) = inr tt /\
  stored (world st') b key = None /\
  (forall key', key' <> key -> stored (world st') b key' = stored (world st) b key') /\
  (forall b', b' <> b -> remote (world st') !! b' = remote (world st) !! b') /\
  fs (world st') = fs (world st) /\
  self st' = self st /\
  trace (world st') = (trace (world st) ++ [DeleteObjects b [key]])%list.
Proof.
  intros Hb Hk Hs Hr st'. subst st'.
  rewrite (delete_object_run b key obj l st Hb Hk Hs Hr).
  unfold stored, logged, with_bucket. cbn [fst snd self world remote fs trace].
  rewrite lookup_insert_eq, Hr.
  repeat split.
  - apply find_key_remove_keys.
  - intros key' Hne. apply find_key_remove_other, Hne.
  - intros b' Hne. apply lookup_insert_ne. congruence.
Qed.

Lemma delete_object_removes_witness :
  let obj := VSummary (MkSummary "fastq" "run1/sampleA.fastq" 3 "e-a1") in
  let st' := snd (delete_object obj demo_cached) in
  stored (world st') "fastq" "run1/sampleA.fastq" = None /\
  stored (world st') "fastq" "run1/sampleB.fastq"
  = Some (Blob "run1/sampleB.fastq" body_B1 "e-b1" []).
Proof.
  intros obj st'.
  destruct (delete_object_removes "fastq" "run1/sampleA.fastq" obj demo_blobs
              demo_cached eq_refl eq_refl eq_refl eq_refl)
    as (_ & Hgone & Hother & _).
  split; [exact Hgone|].
  fold st' in Hother. rewrite Hother by discriminate. reflexivity.
Defined.

(** X4. Deleting a key under which the bucket holds nothing is not an
    error: [delete_object] returns and the buckets are exactly as
    before.  So deleting the same descriptor a second time changes
    nothing. *)
Theorem delete_object_absent (b key : string) (obj : value) (l : list blob)
    (st : State) :
  bucket (self st) = Some b ->
  key_of obj = Some key ->
  status (world st) = Healthy ->
  remote (world st) !! b = Some l ->
  (stored (world st) b key = None ->
   fst (delete_object obj st) = inr tt /\
   remote (world (snd (delete_object obj st))) = remote (world st)) /\
  (let st1 := snd (delete_object obj st) in
   fst (delete_object obj st1) = inr tt /\
   remote (world (snd (delete_object obj st1))) = remote (world st1)).
Proof.
  intros Hb Hk Hs Hr.
  assert (Habsent : forall l st,
            bucket (self st) = Some b ->
            status (world st) = Healthy ->
            remote (world st) !! b = Some l ->
            stored (world st) b key = None ->
            fst (delete_object obj st) = inr tt /\
            remote (world (snd (delete_object obj st))) = remote (world st)).
  { clear l st Hb Hs Hr. intros l st Hb Hs Hr Hnone.
    rewrite (delete_object_run b key obj l st Hb Hk Hs Hr).
    split; [reflexivity|].
    unfold stored in Hnone. rewrite Hr in Hnone.
    unfold logged, with_bucket. cbn [snd world remote].
    rewrite (remove_keys_absent key l Hnone). apply insert_id, Hr. }
  split; [apply (Habsent l st Hb Hs Hr)|].
  intros st1. subst st1.
  rewrite (delete_object_run b key obj l st Hb Hk Hs Hr). cbn [snd].
  apply (Habsent (remove_keys [key] l)); unfold logged, with_bucket, stored;
    cbn [self world remote status]; try assumption;
    rewrite ?lookup_insert_eq; try reflexivity.
  apply find_key_remove_keys.
Qed.

Lemma delete_object_absent_witness :
  let obj := VSummary (MkSummary "fastq" "run9/none.fastq" 0 "e") in
  fst (delete_object obj (demo_attached Healthy)) = inr tt /\
  remote (world (snd (delete_object obj (demo_attached Healthy))))
  = remote (demo_world Healthy).
Proof.
  intros obj.
  destruct (delete_object_absent "fastq" "run9/none.fastq" obj demo_blobs
              (demo_attached Healthy) eq_refl eq_refl eq_refl eq_refl)
    as [Habsent _].
  exact (Habsent eq_refl).
Defined.

(** X5. The cached listing is not kept in step with the bucket.
    After [delete_object] of a cached descriptor, [search_objects]
    still answers from the cache, without a request, exactly what it
    answered before, the deleted object included; [get_object] for
    its key finds nothing; and [reload_objects] returns a listing
    that has no descriptor with that key. *)
Theorem deleted_object_stays_cached (b str : string) (o : ObjectSummary)
    (cached : list ObjectSummary) (l : list blob) (st : State) :
  bucket (self st) = Some b ->
  objects (self st) = Some cached ->
  status (world st) = Healthy ->
  remote (world st) !! b = Some l ->
  let st1 := snd (delete_object (VSummary o) st) in
  search_objects str st1 = (inr (matching str cached), st1) /\
  fst (search_objects str st1) = fst (search_objects str st) /\
  fst (get_object (os_key o) st1) = inr VNone /\
  exists fresh,
    fst (reload_objects st1) = inr fresh /\
    forall o', In o' fresh -> os_key o' <> os_key o.
Proof.
  intros Hb Ho Hs Hr st1.
  pose proof (delete_object_run b (os_key o) (VSummary o) l st Hb eq_refl Hs Hr)
    as Hdel.
  assert (Hst1 : st1 = MkState (self st)
                         (logged (with_bucket (world st) b
                                    (remove_keys [os_key o] l))
                                 [DeleteObjects b [os_key o]]))
    by (subst st1; rewrite Hdel; reflexivity).
  assert (Hb1 : bucket (self st1) = Some b) by (rewrite Hst1; exact Hb).
  assert (Ho1 : objects (self st1) = Some cached) by (rewrite Hst1; exact Ho).
  assert (Hr1 : remote (world st1) !! b = Some (remove_keys [os_key o] l)).
  { rewrite Hst1. unfold logged, with_bucket. cbn [world remote].
    apply lookup_insert_eq. }
  assert (Hs1 : status (world st1) = Healthy) by (rewrite Hst1; exact Hs).
  split; [exact (search_objects_hit str b cached st1 Hb1 Ho1)|].
  split.
  { rewrite (search_objects_hit str b cached st1 Hb1 Ho1),
      (search_objects_hit str b cached st Hb Ho). reflexivity. }
  split.
  { rewrite (get_object_run b (os_key o) st1 Hb1), Hs1. unfold stored.
    rewrite Hr1, find_key_remove_keys. reflexivity. }
  exists (map (summary_of b) (remove_keys [os_key o] l)). split.
  - rewrite (reload_objects_run b st1 Hb1), Hs1, Hr1. reflexivity.
  - intros o' Hin. apply in_map_iff in Hin as (x & <- & Hx).
    unfold remove_keys in Hx. apply filter_In in Hx as [_ Hx].
    cbn [summary_of os_key existsb orb] in *.
    rewrite orb_false_r in Hx. apply negb_true_iff in Hx.
    apply String.eqb_neq in Hx. exact Hx.
Qed.

Lemma deleted_object_stays_cached_witness :
  let o := MkSummary "fastq" "run1/sampleA.fastq" 3 "e-a1" in
  let st1 := snd (delete_object (VSummary o) demo_cached) in
  fst (search_objects "sampleA" st1)
  = inr [o; MkSummary "fastq" "run2/sampleA.fastq" 0 "e-a2"] /\
  fst (get_object "run1/sampleA.fastq" st1) = inr VNone.
Proof.
  intros o st1.
  destruct (deleted_object_stays_cached "fastq" "sampleA" o demo_summaries
              demo_blobs demo_cached eq_refl eq_refl eq_refl eq_refl)
    as (Hsearch & _ & Hget & _).
  fold st1 in Hsearch, Hget. rewrite Hsearch. split; [reflexivity | exact Hget].
Defined.

(** ** More on upload and download *)

Lemma find_key_put_other (key' : string) (x : blob) (l : list blob) :
  key' <> b_key x ->
  find_key key' (put_blob x l) = find_key key' l.
Proof.
  intros Hne. induction l as [|y l IH]; cbn [put_blob].
  - rewrite find_key_cons.
    destruct (String.eqb (b_key x) key') eqn:E; [|reflexivity].
    apply String.eqb_eq in E. congruence.
  - destruct (String.eqb (b_key y) (b_key x)) eqn:E.
    + apply String.eqb_eq in E. rewrite !find_key_cons, E.
      destruct (String.eqb (b_key x) key') eqn:E'; [|reflexivity].
      apply String.eqb_eq in E'. congruence.
    + rewrite !find_key_cons, IH. reflexivity.
Qed.

(** X6. [upload_file] of a path at which nothing exists raises
    [OSError] when the progress bar asks for the size of the file,
    before anything is sent: the state, trace of requests included,
    is as before. *)
Theorem upload_file_no_local_file calculate_etag store_etag
    (b local_path remote_key : string) (metadata : list (string * string))
    (st : State) :
  bucket (self st) = Some b ->
  fs (world st) !! local_path = None ->
  upload_file calculate_etag store_etag local_path remote_key metadata st
  = (inl (OSError local_path), st).
Proof.
  intros Hb Hf. unfold upload_file. rewrite (bucketcheck_attached _ _ b Hb).
  step self_bucket_run. apply bind_inl.
  unfold ProgressPercentage__init__, os_path_getsize. run. rewrite Hf.
  reflexivity.
Qed.

Lemma upload_file_no_local_file_witness :
  upload_file (fun _ => "") (fun _ => "") "/data/nothing.fastq" "k" []
    (demo_attached Healthy)
  = (inl (OSError "/data/nothing.fastq"), demo_attached Healthy).
Proof.
  apply (upload_file_no_local_file (fun _ => "") (fun _ => "") "fastq");
    reflexivity.
Defined.

(** X7. [upload_file] touches one key of one bucket.  Whether the
    checksums agree or not, every other key of the attached bucket
    holds afterwards what it held before, and so does every other
    bucket. *)
Theorem upload_file_other_keys calculate_etag store_etag
    (b local_path remote_key : string) (metadata : list (string * string))
    (content : list Byte.byte) (l : list blob) (st : State) :
  bucket (self st) = Some b ->
  status (world st) = Healthy ->
  remote (world st) !! b = Some l ->
  fs (world st) !! local_path = Some (File content) ->
  let st' := snd (upload_file calculate_etag store_etag local_path remote_key
                    metadata st) in
  (forall key', key' <> remote_key ->
                stored (world st') b key' = stored (world st) b key') /\
  (forall b', b' <> b -> remote (world st') !! b' = remote (world st) !! b').
Proof.
  intros Hb Hs Hr Hf st'. subst st'.
  rewrite (upload_file_run calculate_etag store_etag b local_path remote_key
             metadata content l st Hb Hs Hr Hf).
  destruct (String.eqb (calculate_etag content) (store_etag content));
    unfold stored, logged, with_bucket; cbn [snd world remote];
    rewrite lookup_insert_eq, Hr; (split; [intros key' Hne | intros b' Hne]);
    try (apply lookup_insert_ne; congruence).
  - apply find_key_put_other. exact Hne.
  - rewrite find_key_remove_other by exact Hne.
    apply find_key_put_other. exact Hne.
Qed.

Lemma upload_file_other_keys_witness :
  let st' := snd (upload_file (fun _ => "a") (fun _ => "b") "/data/new.fastq"
                    "run1/sampleA.fastq" [] (demo_attached Healthy)) in
  stored (world st') "fastq" "run1/sampleB.fastq"
  = Some (Blob "run1/sampleB.fastq" body_B1 "e-b1" []) /\
  stored (world st') "fastq" "run1/sampleA.fastq" = None.
Proof.
  intros st'.
  destruct (upload_file_other_keys (fun _ => "a") (fun _ => "b") "fastq"
              "/data/new.fastq" "run1/sampleA.fastq" [] body_B1 demo_blobs
              (demo_attached Healthy) eq_refl eq_refl eq_refl eq_refl)
    as [Hkeys _].
  fold st' in Hkeys. rewrite Hkeys by discriminate. split; reflexivity.
Defined.







(** ** The exceptions of the manager *)

Section Hoare.

Variable I : State -> Prop.
Variable ok : exn -> Prop.

Hypothesis I_bucket :
  forall st st', bucket (self st') = bucket (self st) -> I st -> I st'.
Hypothesis ok_external : forall e, external e = true -> ok e.
Hypothesis ok_unattached :
  forall st, I st -> bucket (self st) = None -> ok UnattachedBucketError.

Lemma hoare_ret {A} (a : A) : hoare I ok (ret a).
Proof. intros st HI. split; [exact HI | discriminate]. Qed.

Lemma hoare_raise {A} (e : exn) : ok e -> hoare I ok (@raise A e).
Proof. intros He st HI. split; [exact HI|]. intros e' [= <-]. exact He. Qed.

Lemma hoare_bind {A B} (m : M A) (k : A -> M B) :
  hoare I ok m -> (forall a, hoare I ok (k a)) -> hoare I ok (bind m k).
Proof.
  intros Hm Hk st HI. unfold bind. destruct (Hm st HI) as [HI' He].
  destruct (m st) as [[e|a] st']; cbn [fst snd] in *.
  - split; [exact HI'|]. intros e' [= <-]. apply He. reflexivity.
  - exact (Hk a st' HI').
Qed.

Lemma hoare_try_except {A} (m : M A) (handles : exn -> bool) (h : M A) :
  hoare I ok m -> hoare I ok h -> hoare I ok (try_except m handles h).
Proof.
  intros Hm Hh st HI. unfold try_except. destruct (Hm st HI) as [HI' He].
  destruct (m st) as [[e|a] st']; cbn [fst snd] in *.
  - destruct (handles e); [exact (Hh st' HI')|].
    split; [exact HI'|]. intros e' [= <-]. apply He. reflexivity.
  - split; [exact HI' | discriminate].
Qed.

Lemma hoare_get_world : hoare I ok get_world.
Proof. intros st HI. split; [exact HI | discriminate]. Qed.

Lemma hoare_get_self : hoare I ok get_self.
Proof. intros st HI. split; [exact HI | discriminate]. Qed.

Lemma hoare_put_world (w : World) : hoare I ok (put_world w).
Proof.
  intros st HI. split; [|discriminate].
  apply (I_bucket st); [reflexivity | exact HI].
Qed.

Lemma hoare_set_objects (l : list ObjectSummary) : hoare I ok (set_objects l).
Proof.
  intros st HI. split; [|discriminate].
  apply (I_bucket st); [reflexivity | exact HI].
Qed.

Lemma hoare_bucketcheck {A} (fn : M A) :
  hoare I ok fn -> hoare I ok (bucketcheck fn).
Proof.
  intros Hfn st HI. unfold bucketcheck. run.
  destruct (bucket (self st)) eqn:Hb; [exact (Hfn st HI)|].
  split; [exact HI|]. intros e [= <-]. exact (ok_unattached st HI Hb).
Qed.

Lemma hoare_report (callback : ProgressPercentage) (n : Z) :
  hoare I ok (report callback n).
Proof.
  intros st HI. split.
  - apply (I_bucket st); [|exact HI].
    pose proof (keeps_report callback n st) as K. rewrite K. reflexivity.
  - unfold report. destruct (Z.eqb n 0); [discriminate|].
    unfold time_time. run.
    destruct (Z.eq_dec (_size callback) 0) as [Hz|Hz].
    + rewrite (proj1 (call_outcome (clock (world st)) n callback) Hz).
      intros e [= <-]. apply ok_external. reflexivity.
    + destruct (proj2 (call_outcome (clock (world st)) n callback) Hz)
        as [line ->].
      discriminate.
Qed.

(** Goes through a computation; the exceptions raised on the way are
    external ones. *)
Ltac hoare_go :=
  repeat first
    [ progress intros
    | apply hoare_bucketcheck
    | apply hoare_report
    | apply hoare_set_objects
    | apply hoare_put_world
    | apply hoare_get_world
    | apply hoare_get_self
    | apply hoare_ret
    | apply hoare_raise; apply ok_external; reflexivity
    | apply hoare_bind
    | apply hoare_try_except
    | match goal with
      | |- hoare _ _ (match ?x with _ => _ end) => destruct x
      | |- hoare _ _ (if ?x then _ else _) => destruct x
      end ].

Ltac unfold_prims :=
  unfold self_bucket, self_objects, hasattr_objects,
    instance_attr, Bucket_upload_file,
    calculate_etag_of, Bucket_download_file, Bucket_delete_objects,
    Bucket_objects_all, obj_get_body, get_body, attr_content_length,
    attr_e_tag, attr_key, loaded, load, head_object, the_bucket, send,
    os_path_getsize, os_path_exists, os_path_isdir, time_time, print,
    emit, set_remote, set_fs.

Lemma hoare_ProgressPercentage__init__ (source : value) :
  hoare I ok (ProgressPercentage__init__ source).
Proof.
  destruct source as [| p | z | s | o].
  - intros st HI. split; [exact HI|]. intros e [= <-].
    apply ok_external. reflexivity.
  - unfold ProgressPercentage__init__. unfold_prims. hoare_go.
  - intros st HI. split; [exact HI|]. intros e [= <-].
    apply ok_external. reflexivity.
  - unfold ProgressPercentage__init__. unfold_prims. hoare_go.
  - unfold ProgressPercentage__init__. unfold_prims. hoare_go.
Qed.

Lemma hoare_get_object (key : string) : hoare I ok (get_object key).
Proof. unfold get_object. unfold_prims. hoare_go. Qed.

Lemma hoare_get_objects : hoare I ok get_objects.
Proof. unfold get_objects. unfold_prims. hoare_go. Qed.

Lemma hoare_reload_objects : hoare I ok reload_objects.
Proof. unfold reload_objects. unfold_prims. hoare_go. Qed.

Lemma hoare_search_objects (str : string) : hoare I ok (search_objects str).
Proof.
  unfold search_objects. apply hoare_bucketcheck. apply hoare_bind.
  - unfold_prims. hoare_go.
  - intros has. apply hoare_bind.
    + destruct has; cbn [negb]; [apply hoare_ret|].
      apply hoare_bind; [apply hoare_get_objects | intros; apply hoare_ret].
    + intros _. unfold_prims. hoare_go.
Qed.

Lemma hoare_delete_object (obj : value) : hoare I ok (delete_object obj).
Proof. unfold delete_object. unfold_prims. hoare_go. Qed.

Lemma hoare_read_object (obj : value) : hoare I ok (read_object obj).
Proof. unfold read_object. unfold_prims. hoare_go. Qed.

Lemma hoare_download_file (obj : value) (local_path : string) (force : bool) :
  (force = false -> forall p, ok (LocalFileExistsError p)) ->
  hoare I ok (download_file obj local_path force).
Proof.
  intros Hlf. unfold download_file. apply hoare_bucketcheck. apply hoare_bind.
  { destruct obj; try apply hoare_ret. apply hoare_get_object. }
  intros o. apply hoare_bind; [unfold_prims; hoare_go|].
  intros isdir. apply hoare_bind; [unfold_prims; hoare_go|].
  intros path. apply hoare_bind; [unfold_prims; hoare_go|].
  intros found. apply hoare_bind.
  { destruct force.
    - rewrite andb_false_r. apply hoare_ret.
    - destruct found; cbn [andb negb]; [|apply hoare_ret].
      apply hoare_raise. apply Hlf. reflexivity. }
  intros _. apply hoare_bind; [unfold_prims; hoare_go|].
  intros b. apply hoare_bind; [unfold_prims; hoare_go|].
  intros key. apply hoare_bind; [apply hoare_ProgressPercentage__init__|].
  intros callback. unfold_prims. hoare_go.
Qed.

Lemma hoare_upload_file calculate_etag store_etag
    (local_path remote_key : string) (m : list (string * string)) :
  ok MismatchChecksumError ->
  hoare I ok (upload_file calculate_etag store_etag local_path remote_key m).
Proof.
  intros Hmis. unfold upload_file. apply hoare_bucketcheck.
  apply hoare_bind; [unfold_prims; hoare_go|].
  intros b. apply hoare_bind; [apply hoare_ProgressPercentage__init__|].
  intros callback. apply hoare_bind; [unfold_prims; hoare_go|].
  intros _. apply hoare_bind; [unfold_prims; hoare_go|].
  intros _. apply hoare_bind; [unfold_prims; hoare_go|].
  intros sum. apply hoare_bind; [apply hoare_get_object|].
  intros o. apply hoare_bind; [unfold_prims; hoare_go|].
  intros tag. destruct (negb (String.eqb sum tag)); [|apply hoare_ret].
  apply hoare_bind; [apply hoare_delete_object|].
  intros _. apply hoare_raise. exact Hmis.
Qed.

End Hoare.

Lemma call_raises_ok calculate_etag store_etag (I : State -> Prop)
    (ok : exn -> Prop) (c : call) (st : State) (e : exn) :
  (forall st st', bucket (self st') = bucket (self st) -> I st -> I st') ->
  (forall e, external e = true -> ok e) ->
  (forall st, I st -> bucket (self st) = None -> ok UnattachedBucketError) ->
  (forall lp rk md, c = UploadFile lp rk md -> ok MismatchChecksumError) ->
  (forall obj lp, c = DownloadFile obj lp false ->
                  forall p, ok (LocalFileExistsError p)) ->
  I st ->
  call_raises calculate_etag store_etag c st = Some e ->
  ok e.
Proof.
  intros HI Hext Hun Hup Hdown Hst.
  assert (Hfrom : forall A (m : M A),
            hoare I ok m -> raised (m st) = Some e -> ok e).
  { intros A m Hm. unfold raised. destruct (Hm st Hst) as [_ He].
    destruct (fst (m st)) as [e'|a]; [|discriminate].
    intros [= <-]. apply He. reflexivity. }
  destruct c; cbn [call_raises].
  - rewrite attach_bucket_run. discriminate.
  - apply Hfrom, hoare_get_object; assumption.
  - apply Hfrom, hoare_get_objects; assumption.
  - apply Hfrom, hoare_reload_objects; assumption.
  - apply Hfrom, hoare_search_objects; assumption.
  - apply Hfrom, hoare_upload_file; try assumption. eapply Hup. reflexivity.
  - apply Hfrom, hoare_download_file; try assumption.
    intros ->. eapply Hdown. reflexivity.
  - apply Hfrom, hoare_delete_object; assumption.
  - apply Hfrom, hoare_read_object; assumption.
Qed.

(** X10. The exceptions of [hcp/errors.py], over all calls on a
    manager, in every state.  [UnknownSourceTypeError] is never
    raised.  [MismatchChecksumError] comes from [upload_file] only,
    [LocalFileExistsError] from [download_file] called with [force]
    false only, and [UnattachedBucketError] only from a manager that
    has no bucket attached. *)
Theorem own_errors calculate_etag store_etag (c : call) (st : State) (e : exn) :
  call_raises calculate_etag store_etag c st = Some e ->
  e <> UnknownSourceTypeError /\
  (e = MismatchChecksumError -> exists lp rk md, c = UploadFile lp rk md) /\
  (forall p, e = LocalFileExistsError p ->
             exists obj lp, c = DownloadFile obj lp false) /\
  (e = UnattachedBucketError -> bucket (self st) = None).
Proof.
  intros Hraised.
  assert (H1 : e <> UnknownSourceTypeError /\
               (e = MismatchChecksumError ->
                exists lp rk md, c = UploadFile lp rk md) /\
               (forall p, e = LocalFileExistsError p ->
                          exists obj lp, c = DownloadFile obj lp false)).
  { apply (call_raises_ok calculate_etag store_etag (fun _ => True)
             (fun e => e <> UnknownSourceTypeError /\
                       (e = MismatchChecksumError ->
                        exists lp rk md, c = UploadFile lp rk md) /\
                       (forall p, e = LocalFileExistsError p ->
                                  exists obj lp, c = DownloadFile obj lp false))
             c st e); auto.
    - intros e' He'. destruct e'; try discriminate He';
        repeat split; intros; discriminate.
    - intros _ _ _. repeat split; intros; discriminate.
    - intros lp rk md ->. repeat split; intros; try discriminate; eauto.
    - intros obj lp -> p. repeat split; intros; try discriminate; eauto. }
  destruct H1 as (Hu & Hm & Hl). repeat split; try assumption.
  intros ->. destruct (bucket (self st)) as [b|] eqn:Hb; [|reflexivity].
  exfalso.
  apply (call_raises_ok calculate_etag store_etag
           (fun st => bucket (self st) <> None)
           (fun e => e <> UnattachedBucketError) c st UnattachedBucketError);
    try congruence; try (intros; discriminate).
  intros e' He'. destruct e'; try discriminate He'; discriminate.
Qed.

Lemma own_errors_witness :
  let st := demo_attached Healthy in
  let c := DownloadFile (VStr "run1/sampleA.fastq") "/data/out" false in
  call_raises (fun _ => "") (fun _ => "") c st
  = Some (LocalFileExistsError "/data/out/sampleA.fastq") /\
  exists obj lp, c = DownloadFile obj lp false.
Proof.
  intros st c. split; [reflexivity|].
  destruct (own_errors (fun _ => "") (fun _ => "") c st
              (LocalFileExistsError "/data/out/sampleA.fastq") eq_refl)
    as (_ & _ & Hl & _).
  exact (Hl "/data/out/sampleA.fastq" eq_refl).
Defined.

(** ** Narrowing a search *)

Lemma append_assoc_string (a b c : string) : (a ++ b) ++ c = a ++ (b ++ c).
Proof.
  induction a as [|x a IH]; [reflexivity|].
  rewrite !append_String, IH. reflexivity.
Qed.

Lemma contains_trans (a b c : string) :
  contains a b = true -> contains b c = true -> contains a c = true.
Proof.
  rewrite !contains_spec. intros (p1 & q1 & ->) (p2 & q2 & ->).
  exists (p2 ++ p1), (q1 ++ q2). rewrite !append_assoc_string. reflexivity.
Qed.

Lemma contains_empty_sub (s : string) : contains "" s = true.
Proof. apply contains_spec. exists "", s. reflexivity. Qed.

Lemma matching_narrow (s1 s2 : string) (l : list ObjectSummary) :
  contains s1 s2 = true ->
  matching s2 (matching s1 l) = matching s2 l.
Proof.
  intros Hsub. unfold matching. induction l as [|o l IH]; [reflexivity|].
  cbn [List.filter].
  destruct (contains s1 (os_key o)) eqn:E1; cbn [List.filter].
  - rewrite IH. reflexivity.
  - destruct (contains s2 (os_key o)) eqn:E2; [|exact IH].
    rewrite (contains_trans s1 s2 (os_key o) Hsub E2) in E1. discriminate.
Qed.

Lemma matching_all (l : list ObjectSummary) : matching "" l = l.
Proof.
  unfold matching. induction l as [|o l IH]; [reflexivity|].
  cbn [List.filter]. rewrite contains_empty_sub, IH. reflexivity.
Qed.

(** X11. Searching with the empty string returns the whole cached
    listing.  And a longer query only narrows: when [s1] occurs in
    [s2], the answer for [s2] is what searching [s2] among the answer
    for [s1] gives, so every descriptor found for [s2] is found for
    [s1]. *)
Theorem search_objects_narrows (b s1 s2 : string) (l : list ObjectSummary)
    (st : State) :
  bucket (self st) = Some b ->
  objects (self st) = Some l ->
  fst (search_objects "" st) = inr l /\
  (contains s1 s2 = true ->
   fst (search_objects s2 st) = inr (matching s2 (matching s1 l)) /\
   forall o r1 r2,
     fst (search_objects s1 st) = inr r1 ->
     fst (search_objects s2 st) = inr r2 ->
     In o r2 -> In o r1).
Proof.
  intros Hb Ho. rewrite !(search_objects_hit _ b l st Hb Ho). cbn [fst].
  split; [rewrite matching_all; reflexivity|].
  intros Hsub. split; [rewrite (matching_narrow s1 s2 l Hsub); reflexivity|].
  intros o r1 r2 [= <-] [= <-]. rewrite <- (matching_narrow s1 s2 l Hsub).
  intros Hin. apply matching_In in Hin as [Hin _]. exact Hin.
Qed.

Lemma search_objects_narrows_witness :
  fst (search_objects "" demo_cached) = inr demo_summaries /\
  fst (search_objects "run1/sampleA" demo_cached)
  = inr (matching "run1/sampleA" (matching "sampleA" demo_summaries)).
Proof.
  destruct (search_objects_narrows "fastq" "sampleA" "run1/sampleA"
              demo_summaries demo_cached eq_refl eq_refl) as [Hall Hnarrow].
  split; [exact Hall|]. destruct (Hnarrow eq_refl) as [H _]. exact H.
Defined.

(** ** The counters of the progress bar *)

Lemma call_counters (now : Q) (bytes_amount : Z) (self : ProgressPercentage) :
  let self' := fst (__call__ now bytes_amount self) in
  _seen_so_far self' = _seen_so_far self + bytes_amount /\
  _size self' = _size self /\
  _source self' = _source self /\
  _interval self' = _interval self.
Proof.
  cbv zeta. rewrite call_state. unfold _calculate_speed.
  destruct (Qlt_le_dec _ _); repeat split; reflexivity.
Qed.

Lemma round2_nonneg (q : Q) : (0 <= q)%Q -> (0 <= round2 q)%Q.
Proof.
  intros Hq. unfold round2, round_half_even.
  assert (Hf : 0 <= Qfloor (q * 100)).
  { change 0 with (Qfloor 0). apply Qfloor_resp_le. lra. }
  assert (Hz : forall z, 0 <= z -> (0 <= z # 100)%Q).
  { intros z Hz. unfold Qle. cbn. lia. }
  destruct (q * 100 - inject_Z (Qfloor (q * 100)) ?= 1 # 2)%Q;
    try destruct (Z.even (Qfloor (q * 100))); apply Hz; lia.
Qed.

Lemma call_baseline (now : Q) (bytes_amount : Z) (self : ProgressPercentage) :
  _interval self = 1%Q ->
  0 <= bytes_amount ->
  _previous_bytesize self <= _seen_so_far self ->
  (0 <= _speed self)%Q ->
  let self' := fst (__call__ now bytes_amount self) in
  _previous_bytesize self' <= _seen_so_far self' /\ (0 <= _speed self')%Q.
Proof.
  intros Hi Hn Hb Hs. cbv zeta. rewrite call_state. unfold _calculate_speed.
  cbn [_previous_time _interval _seen_so_far _previous_bytesize _speed].
  rewrite Hi.
  destruct (Qlt_le_dec (_previous_time self) (now - 1)) as [Hlt|Hle];
    cbn [fst _previous_bytesize _seen_so_far _speed].
  - split; [lia|]. apply round2_nonneg.
    apply Qle_shift_div_l; [reflexivity|]. rewrite Qmult_0_l.
    apply Qle_shift_div_l; [lra|]. rewrite Qmult_0_l.
    change 0%Q with (inject_Z 0). rewrite <- Zle_Qle. lia.
  - split; [lia | exact Hs].
Qed.

(** X12. Over any sequence of calls of the progress callback, with any
    readings of the clock: [_seen_so_far] grows by the total of the
    byte counts, and the size, the source and the interval stay as
    they are.  If no byte count is negative, the sample baseline
    never runs ahead of [_seen_so_far] and the speed is never
    negative. *)
Theorem callbacks_accumulate (calls : list (Q * Z)) (self : ProgressPercentage) :
  let self' := callbacks calls self in
  (_seen_so_far self' = _seen_so_far self + total_bytes calls /\
   _size self' = _size self /\
   _source self' = _source self /\
   _interval self' = _interval self) /\
  (_interval self = 1%Q ->
   Forall (fun c => 0 <= snd c) calls ->
   _previous_bytesize self <= _seen_so_far self ->
   (0 <= _speed self)%Q ->
   _previous_bytesize self' <= _seen_so_far self' /\ (0 <= _speed self')%Q).
Proof.
  cbv zeta. revert self. induction calls as [|[now n] calls IH]; intros self.
  - cbn [callbacks total_bytes map fold_right]. split; [|tauto].
    repeat split. lia.
  - cbn [callbacks]. specialize (IH (fst (__call__ now n self))).
    destruct IH as [(Hseen & Hsize & Hsrc & Hint) Hbase].
    destruct (call_counters now n self) as (Hseen1 & Hsize1 & Hsrc1 & Hint1).
    split.
    + rewrite Hseen, Hsize, Hsrc, Hint, Hseen1, Hsize1, Hsrc1, Hint1.
      unfold total_bytes. cbn [map fold_right snd]. repeat split. lia.
    + intros Hi Hall Hb Hs.
      apply List.Forall_cons_iff in Hall as [Hn Hall]. cbn [snd] in Hn.
      destruct (call_baseline now n self Hi Hn Hb Hs) as [Hb1 Hs1].
      apply Hbase; try assumption. congruence.
Qed.

Lemma callbacks_accumulate_witness :
  let bar := new_progress (VStr "/data/new.fastq") 3000 0 in
  let calls := [((1 # 2)%Q, 1000); ((3 # 2)%Q, 1000); ((3 # 1)%Q, 1000)] in
  _seen_so_far (callbacks calls bar) = 3000 /\
  (0 <= _speed (callbacks calls bar))%Q.
Proof.
  intros bar calls.
  destruct (callbacks_accumulate calls bar) as [(Hseen & _) Hbase].
  split; [exact Hseen|].
  apply Hbase; try reflexivity; try discriminate.
  repeat constructor; discriminate.
Defined.

(** X13. What one call of the progress callback does.  For a source
    of size 0 the call raises [ZeroDivisionError], after the bytes
    were added.  Otherwise it writes a line that shows the bytes seen
    so far including those of this call, and the size; when the two
    are equal the percentage is 100. *)
Theorem call_line (now : Q) (bytes_amount : Z) (self : ProgressPercentage) :
  let r := __call__ now bytes_amount self in
  (_size self = 0 ->
   snd r = inl ZeroDivisionError /\
   _seen_so_far (fst r) = _seen_so_far self + bytes_amount) /\
  (_size self <> 0 ->
   exists line,
     snd r = inr line /\
     l_seen_so_far line = _seen_so_far self + bytes_amount /\
     l_size line = _size self /\
     (_seen_so_far self + bytes_amount = _size self ->
      (l_percentage line == 100)%Q)).
Proof.
  cbv zeta.
  destruct (call_counters now bytes_amount self) as (Hseen & Hsize & _).
  unfold __call__ in *.
  destruct (_calculate_speed now _) as [self' speed].
  destruct (Z.eqb_spec (_size self') 0) as [E|E]; cbn [fst snd] in *;
    rewrite Hsize in E.
  - split; [intros _; split; [reflexivity | exact Hseen] | contradiction].
  - split; [contradiction | intros Hz].
    eexists. split; [reflexivity|].
    cbn [l_seen_so_far l_size l_percentage]. rewrite Hseen, Hsize.
    split; [reflexivity|]. split; [reflexivity|].
    assert (Hq : ~ (inject_Z (_size self) == 0)%Q).
    { change 0%Q with (inject_Z 0). rewrite inject_Z_injective. exact Hz. }
    intros ->. rewrite Qmult_comm.
    unfold Qdiv. rewrite Qmult_inv_r by exact Hq. reflexivity.
Qed.

Lemma call_line_witness :
  snd (__call__ (1 # 2) 10 (new_progress (VStr "/data/empty") 0 0))
  = inl ZeroDivisionError /\
  exists line,
    snd (__call__ (1 # 2) 3 (new_progress (VStr "/data/new.fastq") 3 0))
    = inr line /\ (l_percentage line == 100)%Q.
Proof.
  split.
  - destruct (call_line (1 # 2) 10 (new_progress (VStr "/data/empty") 0 0))
      as [Hzero _].
    destruct (Hzero eq_refl) as [H _]. exact H.
  - destruct (call_line (1 # 2) 3 (new_progress (VStr "/data/new.fastq") 3 0))
      as [_ Hline].
    destruct Hline as (line & Hr & _ & _ & Hpct); [discriminate|].
    exists line. split; [exact Hr|]. apply Hpct. reflexivity.
Defined.

(** * The commands *)

Example cli_delete_force_demo :
  let r := cli_delete "sampleA" true (demo_attached Healthy, MkConsole [] []) in
  fst r = inr tt /\
  remote (world (fst (snd r))) !! "fastq"
  = Some [Blob "run1/sampleB.fastq" body_B1 "e-b1" []] /\
  shown (snd (snd r))
  = [LogInfo "Found 2 files matching query"; Sleep 2;
     LogInfo ("[--] Deleting file " ++ dquote ++ "sampleA" ++ dquote ++ " " ++ nl);
     Sleep 2;
     LogInfo ("[--] Deleting file " ++ dquote ++ "sampleA" ++ dquote ++ " " ++ nl)].
Proof. repeat split; reflexivity. Qed.

Example cli_download_two_matches_demo :
  fst (cli_download "/data/out" "sampleA" false
         (demo_attached Healthy, MkConsole ["y" ++ nl] []))
  = inl (NameError "found_obj").
Proof. reflexivity. Qed.

Example cli_download_one_match_demo :
  fst (cli_download "/data/out" "sampleB" false
         (demo_attached Healthy, MkConsole [] []))
  = inl (Raised (AttributeError "key")).
Proof. reflexivity. Qed.

Example cli_download_exact_key_demo :
  let r := cli_download "/data/out" "run1/sampleB.fastq" false
             (demo_attached Healthy, MkConsole [] []) in
  fst r = inr tt /\
  fs (world (fst (snd r))) !! "/data/out/sampleB.fastq" = Some (File body_B1).
Proof. split; reflexivity. Qed.

(** ** Running a command *)

Lemma cbind_inr {A B} (m : CLI A) (k : A -> CLI B) s s' (a : A) :
  m s = (inr a, s') -> cbind m k s = k a s'.
Proof. intros H. unfold cbind. rewrite H. reflexivity. Qed.

Lemma cbind_inl {A B} (m : CLI A) (k : A -> CLI B) s s' (e : cli_exn) :
  m s = (inl e, s') -> cbind m k s = (inl e, s').
Proof. intros H. unfold cbind. rewrite H. reflexivity. Qed.

Lemma lift_inr {A} (m : M A) (st st' : State) (con : Console) (a : A) :
  m st = (inr a, st') -> lift m (st, con) = (inr a, (st', con)).
Proof. intros H. unfold lift. cbn [fst snd]. rewrite H. reflexivity. Qed.

Lemma lift_inl {A} (m : M A) (st st' : State) (con : Console) (e : exn) :
  m st = (inl e, st') -> @lift A m (st, con) = (inl (Raised e), (st', con)).
Proof. intros H. unfold lift. cbn [fst snd]. rewrite H. reflexivity. Qed.

Lemma search_objects_keeps_status (str : string) :
  keeps status_of (search_objects str).
Proof.
  unfold_all.
  frame ltac:(first [ intros st; reflexivity ]).
Qed.

(** What a successful search leaves of a state with an answering
    service. *)
Lemma search_objects_after (b str : string) (objs : list ObjectSummary)
    (st st1 : State) :
  bucket (self st) = Some b ->
  search_objects str st = (inr objs, st1) ->
  bucket (self st1) = Some b /\
  status (world st1) = status (world st) /\
  remote (world st1) = remote (world st) /\
  fs (world st1) = fs (world st).
Proof.
  intros Hb Hs.
  pose proof (search_objects_keeps_status str st) as H1.
  pose proof (search_objects_keeps_remote str st) as H2.
  pose proof (search_objects_keeps_fs str st) as H3.
  assert (H0 : hoare (fun st => bucket (self st) = Some b) (fun _ => True)
                 (search_objects str)).
  { apply hoare_search_objects; auto. intros; congruence. }
  destruct (H0 st Hb) as [H0' _].
  rewrite Hs in *. cbn [snd] in *. auto.
Qed.

(** ** The command [download] *)

Lemma for_each_cons {A} (x : A) (l : list A) (body : A -> CLI unit) :
  for_each (x :: l) body = cbind (body x) (fun _ => for_each l body).
Proof. reflexivity. Qed.

(** X14. [download] without [--fast], when the query matches more
    than one object of the listing: the loop over the matches stops
    at its first statement with [NameError] for [found_obj].  Nothing
    is asked, logged or downloaded; the local files and the buckets
    are as before. *)
Theorem cli_download_several_matches (b destination query : string)
    (objs : list ObjectSummary) (st st1 : State) (con : Console) :
  bucket (self st) = Some b ->
  search_objects query st = (inr objs, st1) ->
  (1 < length objs)%nat ->
  cli_download destination query false (st, con)
  = (inl (NameError "found_obj"), (st1, con)) /\
  fs (world st1) = fs (world st) /\
  remote (world st1) = remote (world st).
Proof.
  intros Hb Hs Hlen.
  destruct (search_objects_after b query objs st st1 Hb Hs) as (_ & _ & Hr & Hf).
  split; [|split; assumption].
  unfold cli_download. cbn [negb].
  rewrite (cbind_inr _ _ _ _ _ (lift_inr _ _ _ con _ Hs)).
  destruct objs as [|o [|o' objs]]; cbn [length] in Hlen; try lia.
  reflexivity.
Qed.

Lemma cli_download_several_matches_witness :
  fst (cli_download "/data/out" "sampleA" false
         (demo_cached, MkConsole ["y" ++ nl; "y" ++ nl] []))
  = inl (NameError "found_obj").
Proof.
  destruct (cli_download_several_matches "fastq" "/data/out" "sampleA"
              (matching "sampleA" demo_summaries) demo_cached demo_cached
              (MkConsole ["y" ++ nl; "y" ++ nl] []) eq_refl eq_refl)
    as [H _].
  - cbn. lia.
  - rewrite H. reflexivity.
Defined.

Lemma download_forced_none (b destination : string) (st : State) :
  bucket (self st) = Some b ->
  download_file VNone destination true st = (inl (AttributeError "key"), st).
Proof.
  intros Hb. rewrite download_file_split, (bucketcheck_attached _ _ b Hb).
  cbn [resolve]. unfold ret at 1. unfold bind at 1.
  rewrite (download_resolved_none b destination true st Hb).
  destruct (fs (world st) !! destination) as [[c|sz]|]; reflexivity.
Qed.

(** X15. [download] without [--fast], when the query matches exactly
    one object but is not itself the key of an object.  The command
    looks up the query, not the key that was found; [get_object]
    returns [None] and the command ends with [AttributeError] for
    the attribute [key] of [None].  No file is written. *)
Theorem cli_download_inexact_query (b destination query : string)
    (o : ObjectSummary) (st st1 st2 : State) (con : Console) :
  bucket (self st) = Some b ->
  search_objects query st = (inr [o], st1) ->
  get_object query st1 = (inr VNone, st2) ->
  cli_download destination query false (st, con)
  = (inl (Raised (AttributeError "key")), (st2, con)) /\
  fs (world st2) = fs (world st).
Proof.
  intros Hb Hs Hg.
  destruct (search_objects_after b query [o] st st1 Hb Hs) as (Hb1 & _ & _ & Hf).
  assert (Hb2 : bucket (self st2) = Some b).
  { pose proof (keeps_get_object query st1) as K. rewrite Hg in K.
    cbn [snd] in K. rewrite K. exact Hb1. }
  split.
  - unfold cli_download. cbn [negb].
    rewrite (cbind_inr _ _ _ _ _ (lift_inr _ _ _ con _ Hs)).
    cbn [length Nat.eqb Nat.ltb Nat.leb].
    rewrite (cbind_inr _ _ _ _ _ (lift_inr _ _ _ con _ Hg)).
    apply lift_inl. exact (download_forced_none b destination st2 Hb2).
  - pose proof (get_object_keeps_fs query st1) as K. rewrite Hg in K.
    cbn [snd] in K. unfold fs_of in K. congruence.
Qed.

Lemma cli_download_inexact_query_witness :
  fst (cli_download "/data/out" "sampleB" false (demo_cached, MkConsole [] []))
  = inl (Raised (AttributeError "key")).
Proof.
  destruct (cli_download_inexact_query "fastq" "/data/out" "sampleB"
              (MkSummary "fastq" "run1/sampleB.fastq" 3 "e-b1")
              demo_cached demo_cached
              (after demo_cached [HeadObject "fastq" "sampleB"])
              (MkConsole [] []) eq_refl eq_refl eq_refl) as [H _].
  rewrite H. reflexivity.
Defined.






(** ** The command [delete] *)

Lemma cli_delete_split (query : string) (force : bool) :
  cli_delete query force
  = (objs <- lift (search_objects query);;
     if (length objs <? 1)%nat then
       name <- bucket_name;;
       log_info ("File: " ++ query ++ " does not exist on " ++ name)
     else
       log_info ("Found " ++ pretty (length objs) ++ " files matching query");;
       for_each objs (delete_body query force))%cli.
Proof. reflexivity. Qed.

Lemma find_key_without (key : string) (objs : list ObjectSummary)
    (l : list blob) :
  find_key key (without objs l)
  = if key_among key objs then None else find_key key l.
Proof.
  unfold without, key_among. revert l.
  induction objs as [|o objs IH]; intros l; [reflexivity|].
  cbn [fold_left existsb]. rewrite IH.
  destruct (String.eqb (os_key o) key) eqn:E; cbn [orb].
  - apply String.eqb_eq in E. subst key. rewrite find_key_remove_keys.
    destruct (existsb _ objs); reflexivity.
  - apply String.eqb_neq in E.
    rewrite find_key_remove_other by congruence. reflexivity.
Qed.

Lemma delete_and_log_run (b query : string) (obj : ObjectSummary)
    (l : list blob) (st : State) (con : Console) :
  bucket (self st) = Some b ->
  status (world st) = Healthy ->
  remote (world st) !! b = Some l ->
  delete_and_log query obj (st, con)
  = (inr tt,
     (MkState (self st)
        (logged (with_bucket (world st) b (remove_keys [os_key obj] l))
                [DeleteObjects b [os_key obj]]),
      MkConsole (stdin con) ((shown con ++ [Sleep 2]) ++ [deleting_line query]))).
Proof.
  intros Hb Hs Hr. unfold delete_and_log.
  rewrite (cbind_inr _ _ _ _ _
             (lift_inr _ _ _ con _
                (delete_object_run b (os_key obj) (VSummary obj) l st Hb
                   eq_refl Hs Hr))).
  reflexivity.
Qed.

Lemma delete_body_answered (b query : string) (obj : ObjectSummary)
    (c : ascii) (a : string) (inp : list string) (out : list cli_output)
    (l : list blob) (st : State) :
  bucket (self st) = Some b ->
  status (world st) = Healthy ->
  remote (world st) !! b = Some l ->
  delete_body query false obj (st, MkConsole (String c a :: inp) out)
  = if Ascii.eqb (lower c) "y" then
      (inr tt,
       (MkState (self st)
          (logged (with_bucket (world st) b (remove_keys [os_key obj] l))
                  [DeleteObjects b [os_key obj]]),
        MkConsole inp
          (((out ++ [question b obj]) ++ [Sleep 2]) ++ [deleting_line query])))
    else
      (inr tt,
       (st, MkConsole inp ((out ++ [question b obj]) ++ [skipped_line obj]))).
Proof.
  intros Hb Hs Hr. unfold delete_body. cbn [negb]. unfold bucket_name.
  rewrite (cbind_inr _ _ _ _ _ (lift_inr _ _ _ _ _ (self_bucket_run b st Hb))).
  unfold stdout_write, show at 1. unfold cbind at 1. cbn [fst snd stdin shown].
  unfold stdin_readline at 1. unfold cbind at 1. cbn [fst snd stdin shown].
  unfold index0 at 1, cret at 1. unfold cbind at 1.
  destruct (Ascii.eqb (lower c) "y").
  - rewrite (delete_and_log_run b query obj l st _ Hb Hs Hr). reflexivity.
  - reflexivity.
Qed.

Lemma delete_loop (b query : string) (force : bool) (objs : list ObjectSummary) :
  forall (answers rest : list string) (l : list blob) (st : State)
         (con : Console),
    bucket (self st) = Some b ->
    status (world st) = Healthy ->
    remote (world st) !! b = Some l ->
    (force = false ->
     stdin con = (answers ++ rest)%list /\
     length answers = length objs /\
     Forall (fun a => a <> "") answers) ->
    exists st',
      for_each objs (delete_body query force) (st, con)
      = (inr tt,
         (st', MkConsole (if force then stdin con else rest)
                 (shown con
                  ++ (if force then forced_shown query objs
                      else prompted_shown b query answers objs)))) /\
      remote (world st') !! b
      = Some (without (if force then objs else confirmed answers objs) l) /\
      (forall b', b' <> b -> remote (world st') !! b' = remote (world st) !! b') /\
      self st' = self st /\
      fs (world st') = fs (world st).
Proof.
  induction objs as [|obj objs IH]; intros answers rest l st con Hb Hs Hr Hin.
  - exists st. split.
    { cbn [for_each]. unfold cret. destruct con as [inp out].
      cbn [stdin shown] in *.
      destruct force; cbn [forced_shown prompted_shown].
      - rewrite app_nil_r. reflexivity.
      - destruct (Hin eq_refl) as (Hstdin & Hlen & _).
        destruct answers; [|discriminate Hlen]. rewrite Hstdin.
        cbn [prompted_shown]. rewrite app_nil_r. reflexivity. }
    split.
    { destruct force; [exact Hr|]. destruct answers; exact Hr. }
    repeat split; auto.
  - rewrite for_each_cons.
    set (st1 := MkState (self st)
                  (logged (with_bucket (world st) b (remove_keys [os_key obj] l))
                          [DeleteObjects b [os_key obj]])).
    assert (Hb1 : bucket (self st1) = Some b) by exact Hb.
    assert (Hs1 : status (world st1) = Healthy) by exact Hs.
    assert (Hr1 : remote (world st1) !! b = Some (remove_keys [os_key obj] l)).
    { unfold st1, logged, with_bucket. cbn [world remote].
      apply lookup_insert_eq. }
    assert (Hother1 : forall b', b' <> b ->
                        remote (world st1) !! b' = remote (world st) !! b').
    { intros b' Hne. unfold st1, logged, with_bucket. cbn [world remote].
      apply lookup_insert_ne. congruence. }
    destruct force.
    + unfold delete_body at 1. cbn [negb].
      rewrite (cbind_inr _ _ _ _ _
                 (delete_and_log_run b query obj l st con Hb Hs Hr)).
      fold st1.
      destruct (IH [] [] (remove_keys [os_key obj] l) st1
                  (MkConsole (stdin con)
                     ((shown con ++ [Sleep 2]) ++ [deleting_line query]))
                  Hb1 Hs1 Hr1) as (st' & Hrun & Hrem & Hoth & Hself & Hfs);
        [discriminate|].
      exists st'. split.
      { rewrite Hrun. cbn [stdin shown forced_shown].
        rewrite <- !app_assoc. reflexivity. }
      split; [exact Hrem|].
      split; [intros b' Hne; rewrite (Hoth b' Hne); apply Hother1, Hne|].
      split; [exact Hself | exact Hfs].
    + destruct (Hin eq_refl) as (Hstdin & Hlen & Hall).
      destruct answers as [|a answers]; [discriminate Hlen|].
      injection Hlen as Hlen.
      apply List.Forall_cons_iff in Hall as [Ha Hall].
      destruct a as [|c a]; [contradiction|].
      destruct con as [inp out]. cbn [stdin shown] in *. subst inp.
      pose proof (delete_body_answered b query obj c a (answers ++ rest)%list
                    out l st Hb Hs Hr) as Hbody.
      cbn [confirmed prompted_shown says_yes].
      change ((String c a :: answers) ++ rest)%list
        with (String c a :: (answers ++ rest)%list).
      destruct (Ascii.eqb (lower c) "y").
      * rewrite (cbind_inr _ _ _ _ _ Hbody). fold st1.
        destruct (IH answers rest (remove_keys [os_key obj] l) st1
                    (MkConsole (answers ++ rest)%list
                       (((out ++ [question b obj]) ++ [Sleep 2])
                        ++ [deleting_line query]))
                    Hb1 Hs1 Hr1) as (st' & Hrun & Hrem & Hoth & Hself & Hfs);
          [intros _; repeat split; assumption|].
        exists st'. split.
        { rewrite Hrun. cbn [stdin shown]. rewrite <- !app_assoc. reflexivity. }
        split; [exact Hrem|].
        split; [intros b' Hne; rewrite (Hoth b' Hne); apply Hother1, Hne|].
        split; [exact Hself | exact Hfs].
      * rewrite (cbind_inr _ _ _ _ _ Hbody).
        destruct (IH answers rest l st
                    (MkConsole (answers ++ rest)%list
                       ((out ++ [question b obj]) ++ [skipped_line obj]))
                    Hb Hs Hr) as (st' & Hrun & Hrem & Hoth & Hself & Hfs);
          [intros _; repeat split; assumption|].
        exists st'. split.
        { rewrite Hrun. cbn [stdin shown]. rewrite <- !app_assoc. reflexivity. }
        repeat split; assumption.
Qed.

Lemma cli_delete_run (b query : string) (force : bool)
    (objs : list ObjectSummary) (answers rest : list string) (l : list blob)
    (st st1 : State) (con : Console) :
  bucket (self st) = Some b ->
  status (world st) = Healthy ->
  remote (world st) !! b = Some l ->
  search_objects query st = (inr objs, st1) ->
  (force = false ->
   stdin con = (answers ++ rest)%list /\
   length answers = length objs /\
   Forall (fun a => a <> "") answers) ->
  exists st',
    cli_delete query force (st, con)
    = (inr tt,
       (st', MkConsole (if force then stdin con else rest)
               (shown con
                ++ search_line b query objs
                   :: (if force then forced_shown query objs
                       else prompted_shown b query answers objs)))) /\
    remote (world st') !! b
    = Some (without (if force then objs else confirmed answers objs) l) /\
    (forall b', b' <> b -> remote (world st') !! b' = remote (world st) !! b') /\
    fs (world st') = fs (world st).
Proof.
  intros Hb Hs Hr Hsearch Hin.
  destruct (search_objects_after b query objs st st1 Hb Hsearch)
    as (Hb1 & Hs1 & Hr1 & Hf1).
  rewrite cli_delete_split.
  rewrite (cbind_inr _ _ _ _ _ (lift_inr _ _ _ con _ Hsearch)).
  destruct objs as [|o objs].
  - cbn [length Nat.ltb Nat.leb]. unfold bucket_name.
    rewrite (cbind_inr _ _ _ _ _ (lift_inr _ _ _ _ _ (self_bucket_run b st1 Hb1))).
    exists st1. split.
    { unfold log_info, show. cbn [fst snd search_line]. f_equal. f_equal.
      destruct force; cbn [forced_shown prompted_shown].
      - reflexivity.
      - destruct (Hin eq_refl) as (Hstdin & Hlen & _).
        destruct answers; [|discriminate Hlen]. rewrite Hstdin. reflexivity. }
    split.
    { rewrite Hr1. destruct force; [exact Hr|]. destruct answers; exact Hr. }
    split; [intros b' _; rewrite Hr1; reflexivity | exact Hf1].
  - change (length (o :: objs) <? 1)%nat with false. cbv iota.
    unfold log_info, show at 1. unfold cbind at 1. cbn [fst snd].
    destruct (delete_loop b query force (o :: objs) answers rest l st1
                (MkConsole (stdin con)
                   (shown con ++ [search_line b query (o :: objs)]))
                Hb1) as (st' & Hrun & Hrem & Hoth & _ & Hfs).
    + rewrite Hs1. exact Hs.
    + rewrite Hr1. exact Hr.
    + exact Hin.
    + exists st'. split.
      { cbn [search_line] in *. rewrite Hrun. cbn [stdin shown].
        rewrite <- app_assoc. reflexivity. }
      split; [exact Hrem|].
      split; [intros b' Hne; rewrite (Hoth b' Hne), Hr1; reflexivity|].
      rewrite Hfs. exact Hf1.
Qed.

(** X17. [delete --force]: every object that [search_objects] returns
    for the query is deleted, without a question.  Afterwards the
    attached bucket holds nothing under the key of any of them and
    holds under every other key what it held before; the other
    buckets and the local files are untouched.  No line of the input
    is read, and what is shown is the line that reports the search
    followed, for each match, by the two-second sleep and the
    deletion line: nothing is written to the standard output.  (With
    the default, empty query the matches are the whole listing.) *)
Theorem cli_delete_forced (b query : string) (objs : list ObjectSummary)
    (l : list blob) (st st1 : State) (con : Console) :
  bucket (self st) = Some b ->
  status (world st) = Healthy ->
  remote (world st) !! b = Some l ->
  search_objects query st = (inr objs, st1) ->
  let r := cli_delete query true (st, con) in
  fst r = inr tt /\
  (forall key,
     stored (world (fst (snd r))) b key
     = if key_among key objs then None else stored (world st) b key) /\
  (forall b', b' <> b ->
     remote (world (fst (snd r))) !! b' = remote (world st) !! b') /\
  fs (world (fst (snd r))) = fs (world st) /\
  stdin (snd (snd r)) = stdin con /\
  shown (snd (snd r))
  = (shown con ++ search_line b query objs :: forced_shown query objs)%list /\
  (forall text, ~ In (StdoutWrite text) (forced_shown query objs)).
Proof.
  intros Hb Hs Hr Hsearch r. subst r.
  destruct (cli_delete_run b query true objs [] [] l st st1 con Hb Hs Hr Hsearch)
    as (st' & Hrun & Hrem & Hoth & Hfs); [discriminate|].
  rewrite Hrun. cbn [fst snd stdin shown]. split; [reflexivity|].
  split.
  { intros key. unfold stored. rewrite Hrem, Hr. apply find_key_without. }
  repeat split; try assumption.
  intros text. clear. induction objs as [|o objs IH]; cbn [forced_shown In].
  - tauto.
  - intros [H|[H|H]]; try discriminate. exact (IH H).
Qed.

Lemma cli_delete_forced_witness :
  let r := cli_delete "" true (demo_cached, MkConsole ["y" ++ nl] []) in
  fst r = inr tt /\
  remote (world (fst (snd r))) !! "fastq" = Some [] /\
  stdin (snd (snd r)) = ["y" ++ nl].
Proof.
  intros r.
  destruct (cli_delete_forced "fastq" "" demo_summaries demo_blobs demo_cached
              demo_cached (MkConsole ["y" ++ nl] [])
              eq_refl eq_refl eq_refl eq_refl)
    as (Hr & _ & _ & _ & Hin & _).
  split; [exact Hr|]. split; [reflexivity | exact Hin].
Defined.

(** X18. [delete] without [--force] asks once per match, in the order
    of the listing, and reads one line per question.  An object is
    deleted exactly when the first character of its answer is [y] or
    [Y]; everything else in the buckets stays, and the lines after
    the answers are left unread.  What is shown is the line that
    reports the search and then, match by match, the question
    followed by the sleep and the deletion line, or by the line that
    says the object was skipped. *)
Theorem cli_delete_prompted (b query : string) (objs : list ObjectSummary)
    (answers rest : list string) (l : list blob) (st st1 : State)
    (con : Console) :
  bucket (self st) = Some b ->
  status (world st) = Healthy ->
  remote (world st) !! b = Some l ->
  search_objects query st = (inr objs, st1) ->
  stdin con = (answers ++ rest)%list ->
  length answers = length objs ->
  Forall (fun a => a <> "") answers ->
  let r := cli_delete query false (st, con) in
  fst r = inr tt /\
  (forall key,
     stored (world (fst (snd r))) b key
     = if key_among key (confirmed answers objs) then None
       else stored (world st) b key) /\
  (forall b', b' <> b ->
     remote (world (fst (snd r))) !! b' = remote (world st) !! b') /\
  stdin (snd (snd r)) = rest /\
  shown (snd (snd r))
  = (shown con
     ++ search_line b query objs :: prompted_shown b query answers objs)%list.
Proof.
  intros Hb Hs Hr Hsearch Hstdin Hlen Hall r. subst r.
  destruct (cli_delete_run b query false objs answers rest l st st1 con
              Hb Hs Hr Hsearch)
    as (st' & Hrun & Hrem & Hoth & _); [auto|].
  rewrite Hrun. cbn [fst snd stdin shown]. split; [reflexivity|].
  split.
  { intros key. unfold stored. rewrite Hrem, Hr. apply find_key_without. }
  repeat split; auto.
Qed.

Lemma cli_delete_prompted_witness :
  let r := cli_delete "sampleA" false
             (demo_cached, MkConsole ["no" ++ nl; "Yes" ++ nl; "y" ++ nl] []) in
  fst r = inr tt /\
  stored (world (fst (snd r))) "fastq" "run1/sampleA.fastq"
  = Some (Blob "run1/sampleA.fastq" body_A1 "e-a1" []) /\
  stored (world (fst (snd r))) "fastq" "run2/sampleA.fastq" = None /\
  stdin (snd (snd r)) = ["y" ++ nl] /\
  shown (snd (snd r))
  = [ LogInfo "Found 2 files matching query";
      question "fastq" (MkSummary "fastq" "run1/sampleA.fastq" 3 "e-a1");
      skipped_line (MkSummary "fastq" "run1/sampleA.fastq" 3 "e-a1");
      question "fastq" (MkSummary "fastq" "run2/sampleA.fastq" 0 "e-a2");
      Sleep 2;
      deleting_line "sampleA" ].
Proof.
  intros r.
  destruct (cli_delete_prompted "fastq" "sampleA"
              (matching "sampleA" demo_summaries)
              ["no" ++ nl; "Yes" ++ nl] ["y" ++ nl] demo_blobs demo_cached
              demo_cached (MkConsole ["no" ++ nl; "Yes" ++ nl; "y" ++ nl] [])
              eq_refl eq_refl eq_refl eq_refl eq_refl eq_refl)
    as (Hr & Hkeys & _ & Hrest & Hshown).
  - repeat constructor; discriminate.
  - fold r in Hr, Hkeys, Hrest, Hshown. rewrite !Hkeys, Hshown.
    repeat split; try assumption; reflexivity.
Defined.

(** X19. [delete] without [--force], when the input is at its end at
    the first question: [readline] returns the empty string,
    [answer[0]] raises [IndexError], and nothing has been deleted. *)
Theorem cli_delete_end_of_input (b query : string) (o : ObjectSummary)
    (objs : list ObjectSummary) (st st1 : State) (con : Console) :
  bucket (self st) = Some b ->
  search_objects query st = (inr (o :: objs), st1) ->
  stdin con = [] ->
  let r := cli_delete query false (st, con) in
  fst r = inl IndexError /\
  remote (world (fst (snd r))) = remote (world st) /\
  exists question,
    shown (snd (snd r))
    = (shown con
       ++ [LogInfo ("Found " ++ pretty (length (o :: objs))
                    ++ " files matching query");
           StdoutWrite question])%list.
Proof.
  intros Hb Hsearch Hstdin r.
  destruct (search_objects_after b query (o :: objs) st st1 Hb Hsearch)
    as (Hb1 & _ & Hr1 & _).
  set (question := "[--] You are about to delete the file "
                   ++ os_key o ++ "on " ++ b ++ ", are you sure? [Y/N]?" ++ nl).
  set (found := LogInfo ("Found " ++ pretty (length (o :: objs))
                         ++ " files matching query")).
  assert (Hrun : r = (inl IndexError,
                      (st1, MkConsole (stdin con)
                              ((shown con ++ [found]) ++ [StdoutWrite question])))).
  { subst r. rewrite cli_delete_split.
    rewrite (cbind_inr _ _ _ _ _ (lift_inr _ _ _ con _ Hsearch)).
    change (length (o :: objs) <? 1)%nat with false. cbv iota.
    unfold log_info, show at 1. unfold cbind at 1. cbn [fst snd]. fold found.
    rewrite for_each_cons. apply cbind_inl.
    unfold delete_body. cbn [negb]. unfold bucket_name.
    rewrite (cbind_inr _ _ _ _ _ (lift_inr _ _ _ _ _ (self_bucket_run b st1 Hb1))).
    fold question.
    unfold stdout_write, show at 1. unfold cbind at 1. cbn [fst snd stdin shown].
    unfold stdin_readline at 1. unfold cbind at 1. cbn [fst snd stdin shown].
    rewrite Hstdin. reflexivity. }
  rewrite Hrun. cbn [fst snd shown]. split; [reflexivity|]. split; [exact Hr1|].
  exists question. rewrite <- app_assoc. reflexivity.
Qed.

Lemma cli_delete_end_of_input_witness :
  let r := cli_delete "sampleB" false (demo_cached, MkConsole [] []) in
  fst r = inl IndexError /\
  remote (world (fst (snd r))) = remote (demo_world Healthy).
Proof.
  intros r.
  destruct (cli_delete_end_of_input "fastq" "sampleB"
              (MkSummary "fastq" "run1/sampleB.fastq" 3 "e-b1") []
              demo_cached demo_cached (MkConsole [] [])
              eq_refl eq_refl eq_refl) as (Hr & Hrem & _).
  split; [exact Hr | exact Hrem].
Defined.
